(** * YT-Research-Dashboard: ingestion and metrics core of [server/yt.js]

    A shallow embedding of the server's feed walker, detail fetcher,
    channel resolver, ingestion and metrics routes and of the insight
    provider fallback, together with the properties the specification
    states about them.

    Conventions of the embedding.
    - JavaScript strings are [string], one [ascii] for each UTF-16 code
      unit; the code units are those below 256 (ASCII and Latin-1), which
      covers the identifiers and ISO-8601 timestamps the server handles.
      [trim] and [toLowerCase] are exact on such strings.
    - [undefined] and [null] are [None]; a string is truthy when it is not
      empty. Where the code tells the two apart ([dayjs(undefined)] is the
      current instant, [dayjs(null)] is invalid) [None] is [undefined]: a
      field the platform's answer does not carry.
    - Numbers read from the environment and from the platform's statistics
      are integers ([Z]). The [days] parameter of a query string is a
      [JsNumber]: an integer, or [NaN] for a text that is no number.
    - [await]ed calls to the platform and to the LLM providers are calls to
      a deterministic test double ([Upstream]); every call is recorded in
      the [calls] log of the [World], an exception is the [Throw] result.
    - The JSON file behind [loadDB]/[saveDB] is the [disk] of the [World];
      [writes] counts [fs.writeFileSync]. *)

From Stdlib Require Import ZArith Lia String Ascii List Bool OrderedTypeEx.
From stdpp Require Import base option list gmap strings sorting pretty.

Import ListNotations.
Local Open Scope string_scope.
Local Open Scope Z_scope.
Local Open Scope list_scope.

(** ** JavaScript values *)

(** Result of an [async] function: a value or a thrown [Error(msg)]. *)
Inductive result (A : Type) : Type :=
| Ok (a : A)
| Throw (msg : string).
Arguments Ok {A} a.
Arguments Throw {A} msg.

(** Truthiness of an optional string: [undefined], [null] and [''] are falsy. *)
Definition truthy (o : option string) : bool :=
  match o with
  | Some s => negb (String.eqb s "")
  | None => false
  end.

(** [a || b] on optional strings. *)
Definition jsOr (a b : option string) : option string :=
  if truthy a then a else b.

(** [a || ''] *)
Definition orEmpty (a : option string) : string :=
  match jsOr a (Some "") with Some s => s | None => "" end.

(** [x || 0] followed by [Number(...)] on an optional integer statistic. *)
Definition numberOr0 (a : option Z) : Z :=
  match a with Some z => z | None => 0 end.

(** A number as a route obtains it with [Number(...)]: an integer, or
    [NaN] for a text that is no number. *)
Inductive JsNumber :=
| JsInt (z : Z)
| JsNaN.

(** [Number(x || dflt)] for a query-string parameter [x]; [None] is an
    absent or empty parameter. *)
Definition numberParam (x : option JsNumber) (dflt : Z) : JsNumber :=
  match x with Some n => n | None => JsInt dflt end.

(** [Number(x || dflt)] for a JSON number [x]: 0 is falsy. *)
Definition numberOr (x : option Z) (dflt : Z) : Z :=
  match x with
  | Some z => if z =? 0 then dflt else z
  | None => dflt
  end.

(** White space and line terminators: the tab, the line feed, the vertical
    tab, the form feed, the carriage return, the space and the no-break
    space. *)
Definition isSpace (c : ascii) : bool :=
  let n := nat_of_ascii c in
  ((9 <=? n)%nat && (n <=? 13)%nat) || (n =? 32)%nat || (n =? 160)%nat.

Fixpoint dropSpaces (l : list ascii) : list ascii :=
  match l with
  | c :: l' => if isSpace c then dropSpaces l' else l
  | [] => []
  end.

(** [s.trim()] *)
Definition trim (s : string) : string :=
  string_of_list_ascii
    (rev (dropSpaces (rev (dropSpaces (list_ascii_of_string s))))).

(** The lower-case form of a code unit: of [A] to [Z], and of the Latin-1
    capitals (192 to 222 but the multiplication sign 215). *)
Definition lowerChar (c : ascii) : ascii :=
  let n := nat_of_ascii c in
  if ((65 <=? n)%nat && (n <=? 90)%nat)
     || ((192 <=? n)%nat && (n <=? 222)%nat && negb (n =? 215)%nat)
  then ascii_of_nat (n + 32) else c.

(** [s.toLowerCase()] *)
Fixpoint toLowerCase (s : string) : string :=
  match s with
  | EmptyString => EmptyString
  | String c s' => String (lowerChar c) (toLowerCase s')
  end.

(** [s.replace(/^@/, '')] *)
Definition stripLeadingAt (s : string) : string :=
  match s with
  | String "@" rest => rest
  | _ => s
  end.

(** [s.slice(0, n)] for a non-negative [n]. *)
Fixpoint slice0 (n : nat) (s : string) : string :=
  match n, s with
  | S n', String c s' => String c (slice0 n' s')
  | _, _ => ""
  end.

(** ** Records of the platform API and of the store *)

(** An item of [youtube.search.list]. *)
Record SearchItem := {
  id_videoId : option string;
  id_channelId : option string;
  snippet_channelId : option string;
  snippet_title : option string;
  snippet_description : option string;
}.

(** An item of [youtube.playlistItems.list]. *)
Record PlaylistItem := {
  contentDetails_videoId : option string;
  contentDetails_videoPublishedAt : option string;
}.

(** An item of [youtube.videos.list]. *)
Record ApiVideo := {
  api_id : string;
  api_title : option string;
  api_description : option string;
  api_publishedAt : option string;
  api_channelId : option string;
  api_channelTitle : option string;
  api_duration : option string;
  api_viewCount : option Z;
  api_likeCount : option Z;
  api_commentCount : option Z;
}.

(** An item of [youtube.channels.list]. *)
Record ChannelItem := {
  ci_title : option string;
  ci_description : option string;
  ci_subscriberCount : option Z;
  ci_videoCount : option Z;
  ci_viewCount : option Z;
  ci_uploads : option string;
}.

(** A row of the store and of the metrics. An optional field is [None]
    when the platform's answer did not carry it ([undefined]); the platform
    does not answer [null] for a field. *)
Record VideoRecord := {
  videoId : string;
  title : string;
  description : string;
  publishedAt : option string;
  channelId : option string;
  channelTitle : option string;
  duration : option string;
  views : Z;
  likes : Z;
  comments : Z;
}.

Record ChannelMeta := {
  meta_channelId : string;
  meta_title : option string;
  meta_description : option string;
  meta_subscriberCount : Z;
  meta_videoCount : Z;
  meta_viewCount : Z;
  meta_uploadsId : option string;
  meta_fetchedAt : string;
}.

(** [ch.videos] is a JavaScript object: assigning an existing key keeps its
    position, a new key goes last, and [Object.values] lists the values in
    that order. *)
Record ChannelState := {
  videos : list (string * VideoRecord);
  lastSeenVideoId : option string;
  lastPublishedAt : option string;
  meta : option ChannelMeta;
}.

(** [{ channels: { ... } }] *)
Record DB := { channels : gmap string ChannelState }.

(** What [listNewVideoIds] collects: [{ id, publishedAt }]. *)
Record Candidate := {
  cand_id : string;
  cand_publishedAt : option string;
}.

(** The rows handed to the LLM providers. *)
Record SampleRow := {
  sample_d : string;
  sample_title : string;
  sample_views : Z;
  sample_likes : Z;
  sample_comments : Z;
  sample_ch : string;
}.

(** ** The world: call log and JSON file *)

Inductive Call :=
| Call_search_channel (q : string)
| Call_search_video (q publishedAfter : string) (page : nat)
| Call_channels_list (id : string)
| Call_playlistItems_list (playlistId : string) (page : nat)
| Call_videos_list (ids : list string)
| Call_openai
| Call_gemini
| Console_warn (msg : string).

Record World := {
  calls : list Call;
  disk : option DB;
  writes : nat;
}.

(** The platform and the LLM providers, as a deterministic test double.
    A paginated listing is the finite sequence of the responses obtained by
    following [nextPageToken] from the first request; the last response
    carries no token. *)
Record Upstream := {
  search_channel : string -> result (list SearchItem);
  search_video : string -> string -> list (result (list SearchItem));
  channels_list : string -> result (option ChannelItem);
  playlistItems_list : string -> list (result (list PlaylistItem));
  videos_list : list string -> result (list ApiVideo);
  openai_create : list SampleRow -> Z -> result (option string);
  gemini_generateContent : list SampleRow -> Z -> result (option string);
}.

(** Computations that call upstream and touch the file. *)
Definition M (A : Type) : Type := World -> World * result A.

Definition ret {A} (a : A) : M A := fun w => (w, Ok a).

Definition throw {A} (msg : string) : M A := fun w => (w, Throw msg).

Definition bind {A B} (m : M A) (k : A -> M B) : M B :=
  fun w =>
    match m w with
    | (w', Ok a) => k a w'
    | (w', Throw e) => (w', Throw e)
    end.

(** [try { m } catch (e) { h(e.message) }] *)
Definition tryCatch {A} (m : M A) (h : string -> M A) : M A :=
  fun w =>
    match m w with
    | (w', Ok a) => (w', Ok a)
    | (w', Throw e) => h e w'
    end.

Notation "'let!' x ':=' m 'in' k" := (bind m (fun x => k))
  (at level 10, x name, m at level 200, k at level 200).

(** [await] of one upstream call: log it, then return or throw its answer. *)
Definition await {A} (c : Call) (r : result A) : M A :=
  fun w =>
    ({| calls := calls w ++ [c]; disk := disk w; writes := writes w |}, r).

(** [console.warn(msg, ...)] *)
Definition warn (msg : string) : M unit := await (Console_warn msg) (Ok tt).

(** ** Channel resolver *)

Definition isIdChar (c : ascii) : bool :=
  let n := nat_of_ascii c in
  ((48 <=? n)%nat && (n <=? 57)%nat)
  || ((65 <=? n)%nat && (n <=? 90)%nat)
  || ((97 <=? n)%nat && (n <=? 122)%nat)
  || (n =? 95)%nat || (n =? 45)%nat.

(** [/^UC[0-9A-Za-z_-]{22}$/.test(s)] *)
Definition isCanonicalChannelId (s : string) : bool :=
  match s with
  | String "U" (String "C" rest) =>
      (String.length rest =? 22)%nat
      && forallb isIdChar (list_ascii_of_string rest)
  | _ => false
  end.

(** [items?.[0]?.snippet?.channelId || items?.[0]?.id?.channelId || null] *)
Definition firstChannelId (items : list SearchItem) : option string :=
  match items with
  | it :: _ =>
      match jsOr (snippet_channelId it) (id_channelId it) with
      | Some s => if truthy (Some s) then Some s else None
      | None => None
      end
  | [] => None
  end.

Definition resolveToChannelId (up : Upstream) (handleOrId : string) : M string :=
  if isCanonicalChannelId handleOrId then ret handleOrId
  else
    let q := trim (stripLeadingAt handleOrId) in
    let! items := await (Call_search_channel q) (search_channel up q) in
    match firstChannelId items with
    | None => throw "cannot resolve channelId"
    | Some id => ret id
    end.

(** ** Configuration and runtime *)

(** The environment variables the core reads; [None] is an unset or empty
    variable. *)
Record Config := {
  env_YT_FETCH_MAX_NEW : option Z;
  env_YT_VIDEOS_BATCH : option Z;
  env_YT_SEARCH_MAX_PAGES : option Z;
  env_INSIGHT_MAX_ROWS : option Z;
  env_LLM_PROVIDER : string;
  OPENAI_KEY : string;
  GEMINI_KEY : string;
}.

(** [Number(process.env.X || dflt)] *)
Definition numberEnv (v : option Z) (dflt : Z) : Z :=
  match v with Some z => z | None => dflt end.

Definition RAW_FETCH_MAX (cfg : Config) : Z := numberEnv (env_YT_FETCH_MAX_NEW cfg) 2000.
Definition YT_FETCH_MAX_NEW (cfg : Config) : Z := Z.max 1 (RAW_FETCH_MAX cfg).

Definition RAW_BATCH (cfg : Config) : Z := numberEnv (env_YT_VIDEOS_BATCH cfg) 50.
Definition YT_VIDEOS_BATCH (cfg : Config) : Z := Z.max 1 (Z.min 50 (RAW_BATCH cfg)).

Definition YT_SEARCH_MAX_PAGES (cfg : Config) : Z := numberEnv (env_YT_SEARCH_MAX_PAGES cfg) 20.
Definition INSIGHT_MAX_ROWS (cfg : Config) : Z := numberEnv (env_INSIGHT_MAX_ROWS cfg) 1000.

(** The clock and the date and collation primitives of the JavaScript
    runtime and of dayjs. Instants are milliseconds since the epoch; a date
    whose instant would leave the range of [Date] is an Invalid Date. *)
Record Runtime := {
  now : Z;                                   (* Date.now() *)
  Date_parse : string -> option Z;           (* new Date(s); None: Invalid Date *)
  toISOString : Z -> string;                 (* new Date(t).toISOString() *)
  dayjs_parse : string -> option Z;          (* dayjs(s); None: invalid *)
  startOfDay : Z -> option Z;                (* dayjs(t).startOf('day'); None: invalid *)
  subtractDays : Z -> Z -> option Z;         (* dayjs(t).subtract(n, 'day'); None: invalid *)
  localeCompare : string -> string -> comparison;  (* sign of a.localeCompare(b) *)
}.

(** ** Video feed walker *)

(** [sinceISO ? new Date(sinceISO).toISOString() : null] *)
Definition cutoffOf (rt : Runtime) (sinceISO : option string) : result (option string) :=
  match sinceISO with
  | Some s =>
      if truthy (Some s) then
        match Date_parse rt s with
        | Some t => Ok (Some (toISOString rt t))
        | None => Throw "Invalid time value"
        end
      else Ok None
  | None => Ok None
  end.

(** [cutoff && pub && pub < cutoff] *)
Definition olderThanCutoff (cutoff pub : option string) : bool :=
  match cutoff, pub with
  | Some c, Some p => truthy cutoff && truthy pub && String.ltb p c
  | _, _ => false
  end.

(** The [for (const it of items)] loop of one page: the buffer after the
    page and the [stop] flag. *)
Fixpoint walkItems (cap : Z) (cutoff lastSeenVideoId : option string) (backfill : bool)
    (items : list PlaylistItem) (out : list Candidate) : list Candidate * bool :=
  match items with
  | [] => (out, false)
  | it :: rest =>
      let id := contentDetails_videoId it in
      let pub := contentDetails_videoPublishedAt it in
      match id with
      | Some idv =>
          if negb (truthy id) then
            walkItems cap cutoff lastSeenVideoId backfill rest out
          else if negb backfill && truthy lastSeenVideoId
                  && bool_decide (id = lastSeenVideoId) then (out, true)
          else if olderThanCutoff cutoff pub then (out, true)
          else
            let out' := out ++ [{| cand_id := idv; cand_publishedAt := pub |}] in
            if Z.of_nat (length out') >=? cap then (out', true)
            else walkItems cap cutoff lastSeenVideoId backfill rest out'
      | None => walkItems cap cutoff lastSeenVideoId backfill rest out
      end
  end.

(** The [do ... while (pageToken)] loop over the responses. *)
Fixpoint walkPages (cap : Z) (cutoff lastSeenVideoId : option string) (backfill : bool)
    (uploadsId : string) (page : nat) (pages : list (result (list PlaylistItem)))
    (out : list Candidate) : M (list Candidate) :=
  match pages with
  | [] => ret out
  | r :: rest =>
      let! items := await (Call_playlistItems_list uploadsId page) r in
      let '(out', stop) := walkItems cap cutoff lastSeenVideoId backfill items out in
      if stop then ret out'
      else walkPages cap cutoff lastSeenVideoId backfill uploadsId (S page) rest out'
  end.

(** The first request is always issued: a listing without responses is one
    response without items. *)
Definition feedPages (up : Upstream) (uploadsId : string) : list (result (list PlaylistItem)) :=
  match playlistItems_list up uploadsId with
  | [] => [Ok []]
  | pages => pages
  end.

Definition listNewVideoIds (cfg : Config) (rt : Runtime) (up : Upstream)
    (uploadsId : string) (sinceISO lastSeenVideoId : option string) (backfill : bool)
    : M (list Candidate) :=
  match cutoffOf rt sinceISO with
  | Throw e => throw e
  | Ok cutoff =>
      let! out := walkPages (YT_FETCH_MAX_NEW cfg) cutoff lastSeenVideoId backfill
                    uploadsId 0 (feedPages up uploadsId) [] in
      ret (reverse out)
  end.

(** ** Detail fetcher *)

(** [l.slice(i, j)] for [0 <= i]. *)
Definition jsSlice {A} (i j : Z) (l : list A) : list A :=
  take (Z.to_nat (j - i)) (drop (Z.to_nat i) l).

Definition toRow (v : ApiVideo) : VideoRecord :=
  {| videoId := api_id v;
     title := orEmpty (api_title v);
     description := orEmpty (api_description v);
     publishedAt := api_publishedAt v;
     channelId := api_channelId v;
     channelTitle := api_channelTitle v;
     duration := api_duration v;
     views := numberOr0 (api_viewCount v);
     likes := numberOr0 (api_likeCount v);
     comments := numberOr0 (api_commentCount v) |}.

(** [for (let i = 0; i < ids.length; i += YT_VIDEOS_BATCH)]; the loop runs
    at most [ids.length] times since the step is at least 1, which is the
    fuel [fetchVideoDetails] gives it. *)
Fixpoint fetchLoop (fuel : nat) (up : Upstream) (batchSize : Z) (ids : list string)
    (i : Z) (rows : list VideoRecord) : M (list VideoRecord) :=
  if i <? Z.of_nat (length ids) then
    match fuel with
    | O => ret rows
    | S fuel' =>
        let batch := jsSlice i (i + batchSize) ids in
        let! items := await (Call_videos_list batch) (videos_list up batch) in
        fetchLoop fuel' up batchSize ids (i + batchSize) (rows ++ map toRow items)
    end
  else ret rows.

Definition fetchVideoDetails (cfg : Config) (up : Upstream) (ids : list string)
    : M (list VideoRecord) :=
  fetchLoop (length ids) up (YT_VIDEOS_BATCH cfg) ids 0 [].

(** ** Metrics *)

(** [Array.prototype.sort(cmp)] is stable; with a consistent comparator its
    result is the one stable sorted arrangement, computed here by insertion:
    an element moves behind a later one only when the comparator is
    positive. *)
Fixpoint insertSorted {A} (cmp : A -> A -> comparison) (x : A) (l : list A) : list A :=
  match l with
  | [] => [x]
  | y :: l' =>
      match cmp x y with
      | Gt => y :: insertSorted cmp x l'
      | _ => x :: l
      end
  end.

Definition jsSort {A} (cmp : A -> A -> comparison) (l : list A) : list A :=
  foldr (insertSorted cmp) [] l.

(** [dayjs(v.publishedAt)]: [dayjs(undefined)] is the current instant. A
    row has no [publishedAt] when the platform's answer carried none; the
    JSON file keeps no key for it. *)
Definition publishedInstant (rt : Runtime) (v : VideoRecord) : option Z :=
  match publishedAt v with
  | Some s => dayjs_parse rt s
  | None => Some (now rt)
  end.

(** [d.isAfter(cutoff)]; an invalid date is after nothing and nothing is
    after an invalid date. *)
Definition isAfter (d cutoff : option Z) : bool :=
  match d, cutoff with
  | Some t, Some c => c <? t
  | _, _ => false
  end.

(** [dayjs().subtract(days, 'day').startOf('day')]; [None] is an invalid
    date: [days] is [NaN], or the date leaves the range of [Date]. *)
Definition windowStart (rt : Runtime) (days : JsNumber) : option Z :=
  match days with
  | JsInt n => subtractDays rt (now rt) n ≫= startOfDay rt
  | JsNaN => None
  end.

Definition publishedStr (v : VideoRecord) : string := default "" (publishedAt v).

(** [(a, b) => a.publishedAt.localeCompare(b.publishedAt)] *)
Definition byPublishedAt (rt : Runtime) (a b : VideoRecord) : comparison :=
  localeCompare rt (publishedStr a) (publishedStr b).

(** [(a, b) => b.views - a.views] *)
Definition byViewsDesc (a b : VideoRecord) : comparison :=
  Z.compare (views b) (views a).

(** [const d = v.publishedAt.slice(0, 10); byDay[d] = (byDay[d] || 0) + 1] *)
Definition countDay (byDay : gmap string Z) (v : VideoRecord) : gmap string Z :=
  let d := slice0 10 (publishedStr v) in
  <[d := default 0 (byDay !! d) + 1]> byDay.

Record Metrics := {
  byDay : gmap string Z;
  rows : list VideoRecord;
  top : list VideoRecord;
  total : Z;
}.

Definition emptyMetrics : Metrics :=
  {| byDay := ∅; rows := []; top := []; total := 0 |}.

(** The filter, sort, bucket and top steps the two metrics computations
    share. Reading [publishedAt] of a surviving row that has none raises a
    [TypeError], in the comparator ([reading 'localeCompare']) or at the
    latest in the bucket loop ([reading 'slice']); the message kept here is
    what the two have in common. *)
Definition metricsOfRows (rt : Runtime) (cutoff : option Z) (stored : list VideoRecord)
    : result Metrics :=
  let kept := filter (fun v => isAfter (publishedInstant rt v) cutoff = true) stored in
  if forallb (fun v => bool_decide (is_Some (publishedAt v))) kept then
    let rows := jsSort (byPublishedAt rt) kept in
    let byDay := fold_left countDay rows ∅ in
    let top := take 10 (jsSort byViewsDesc rows) in
    Ok {| byDay := byDay; rows := rows; top := top; total := Z.of_nat (length rows) |}
  else Throw "Cannot read properties of undefined".

Definition makeMetricsFromChannel (rt : Runtime) (db : DB) (cid : string)
    (days : JsNumber) : result Metrics :=
  match channels db !! cid with
  | None => Ok emptyMetrics
  | Some ch => metricsOfRows rt (windowStart rt days) (map snd (videos ch))
  end.

(** ** JSON bodies of the responses *)

Inductive JsValue :=
| VNull
| VBool (b : bool)
| VNum (z : Z)
| VStr (s : string)
| VRows (l : list VideoRecord)
| VCounts (m : gmap string Z)
| VStats (subscriberCount videoCount viewCount : Z).

(** An object literal: its properties in the order they are written. *)
Definition JsObject : Type := list (string * JsValue).

Definition keysOf (o : JsObject) : list string := map fst o.

Fixpoint field (k : string) (o : JsObject) : option JsValue :=
  match o with
  | [] => None
  | (k', v) :: o' => if String.eqb k' k then Some v else field k o'
  end.

Record Response := {
  status : Z;
  body : JsObject;
}.

(** [{ byDay, rows, top, total }] *)
Definition metricsJson (m : Metrics) : JsObject :=
  [("byDay", VCounts (byDay m)); ("rows", VRows (rows m));
   ("top", VRows (top m)); ("total", VNum (total m))].

(** An optional string property; [JSON.stringify] drops [undefined]. *)
Definition optField (k : string) (v : option string) : JsObject :=
  match v with Some s => [(k, VStr s)] | None => [] end.

(** The metadata object of [fetchChannelMeta]; thumbnails are not modelled. *)
Definition metaJson (m : ChannelMeta) : JsObject :=
  [("channelId", VStr (meta_channelId m))]
  ++ optField "title" (meta_title m)
  ++ optField "description" (meta_description m)
  ++ [("stats", VStats (meta_subscriberCount m) (meta_videoCount m) (meta_viewCount m));
      ("uploadsId", match meta_uploadsId m with Some u => VStr u | None => VNull end);
      ("fetchedAt", VStr (meta_fetchedAt m))].

(** [res.status(500).json({ error: e.message })] *)
Definition errorResponse (e : string) : Response :=
  {| status := 500; body := [("error", VStr e)] |}.

(** ** LLM providers *)

Inductive Provider := openai | gemini.

(** [(process.env.LLM_PROVIDER || '').toLowerCase()] *)
Definition LLM_PROVIDER (cfg : Config) : string := toLowerCase (env_LLM_PROVIDER cfg).

Definition pickProvider (cfg : Config) : Provider :=
  if String.eqb (LLM_PROVIDER cfg) "gemini" then gemini
  else if String.eqb (LLM_PROVIDER cfg) "openai" then openai
  else if negb (truthy (Some (OPENAI_KEY cfg))) && truthy (Some (GEMINI_KEY cfg)) then gemini
  else openai.

Definition callOpenAI (cfg : Config) (up : Upstream) (sample : list SampleRow) (days : Z)
    : M string :=
  if negb (truthy (Some (OPENAI_KEY cfg))) then throw "OPENAI_API_KEY not configured"
  else
    let! content := await Call_openai (openai_create up sample days) in
    let text := trim <$> content in
    match text with
    | Some t => if truthy text then ret t else throw "OpenAI returned empty content"
    | None => throw "OpenAI returned empty content"
    end.

Definition callGemini (cfg : Config) (up : Upstream) (sample : list SampleRow) (days : Z)
    : M string :=
  if negb (truthy (Some (GEMINI_KEY cfg))) then throw "GEMINI_API_KEY not configured"
  else
    let! resp := await Call_gemini (gemini_generateContent up sample days) in
    let text := orEmpty resp in
    if truthy (Some text) then ret text else throw "Gemini returned empty content".

Definition buildInsightText (cfg : Config) (up : Upstream) (sample : list SampleRow)
    (days : Z) : M string :=
  match pickProvider cfg with
  | gemini =>
      tryCatch (callGemini cfg up sample days)
               (fun _ =>
                  let! _ := warn "[insight] gemini failed, fallback->openai:" in
                  callOpenAI cfg up sample days)
  | openai =>
      tryCatch (callOpenAI cfg up sample days)
               (fun _ =>
                  let! _ := warn "[insight] openai failed, fallback->gemini:" in
                  callGemini cfg up sample days)
  end.

(** ** The JSON file *)

Definition emptyDB : DB := {| channels := ∅ |}.

(** [loadDB]: a missing file is created with [{ channels: {} }]. A file
    that cannot be read or parsed (the [catch] branch) is not modelled. *)
Definition loadDB : M DB :=
  fun w =>
    match disk w with
    | Some db => (w, Ok db)
    | None =>
        ({| calls := calls w; disk := Some emptyDB; writes := S (writes w) |},
         Ok emptyDB)
    end.

Definition saveDB (db : DB) : M unit :=
  fun w => ({| calls := calls w; disk := Some db; writes := S (writes w) |}, Ok tt).

(** ** Channel metadata *)

Definition fetchChannelMeta (rt : Runtime) (up : Upstream) (cid : string) : M ChannelMeta :=
  let! item := await (Call_channels_list cid) (channels_list up cid) in
  match item with
  | None => throw "channel not found"
  | Some it =>
      ret {| meta_channelId := cid;
             meta_title := ci_title it;
             meta_description := ci_description it;
             meta_subscriberCount := numberOr0 (ci_subscriberCount it);
             meta_videoCount := numberOr0 (ci_videoCount it);
             meta_viewCount := numberOr0 (ci_viewCount it);
             meta_uploadsId := jsOr (ci_uploads it) None;
             meta_fetchedAt := toISOString rt (now rt) |}
  end.

Definition getUploadsPlaylistId (up : Upstream) (cid : string) : M string :=
  let! item := await (Call_channels_list cid) (channels_list up cid) in
  match item ≫= ci_uploads with
  | Some uploads =>
      if truthy (Some uploads) then ret uploads
      else throw "uploads playlist not found"
  | None => throw "uploads playlist not found"
  end.

(** ** Routes *)

(** [ch.videos[v.videoId] = v] *)
Fixpoint setVideo (vs : list (string * VideoRecord)) (v : VideoRecord)
    : list (string * VideoRecord) :=
  match vs with
  | [] => [(videoId v, v)]
  | (k, old) :: vs' =>
      if String.eqb k (videoId v) then (k, v) :: vs' else (k, old) :: setVideo vs' v
  end.

Definition withVideos (ch : ChannelState) (vs : list (string * VideoRecord)) : ChannelState :=
  {| videos := vs; lastSeenVideoId := lastSeenVideoId ch;
     lastPublishedAt := lastPublishedAt ch; meta := meta ch |}.

Definition withCursor (ch : ChannelState) (seen pub : option string) : ChannelState :=
  {| videos := videos ch; lastSeenVideoId := seen;
     lastPublishedAt := pub; meta := meta ch |}.

Definition withMeta (ch : ChannelState) (m : option ChannelMeta) : ChannelState :=
  {| videos := videos ch; lastSeenVideoId := lastSeenVideoId ch;
     lastPublishedAt := lastPublishedAt ch; meta := m |}.

(** [{ videos: {}, lastSeenVideoId: null, lastPublishedAt: null }] *)
Definition newChannel : ChannelState :=
  {| videos := []; lastSeenVideoId := None; lastPublishedAt := None; meta := None |}.

(** [channelIdIn || (handle ? await resolveToChannelId(handle) : null)] *)
Definition channelIdOrResolve (up : Upstream) (channelIdIn handle : option string)
    : M (option string) :=
  if truthy channelIdIn then ret channelIdIn
  else match handle with
       | Some h =>
           if truthy handle then
             let! c := resolveToChannelId up h in ret (Some c)
           else ret None
       | None => ret None
       end.

(** [GET /api/yt/resolve] *)
Definition resolveRoute (rt : Runtime) (up : Upstream) (handle : string) : M Response :=
  tryCatch
    (let! cid := resolveToChannelId up handle in
     let! db := loadDB in
     let cached := channels db !! cid ≫= meta in
     let freshEnough :=
       match cached with
       | Some c =>
           match dayjs_parse rt (meta_fetchedAt c) with
           | Some t => Z.quot (now rt - t) 3600000 <? 24
           | None => false
           end
       | None => false
       end in
     let! m := match cached with
               | Some c => if freshEnough then ret c else fetchChannelMeta rt up cid
               | None => fetchChannelMeta rt up cid
               end in
     let ch := default newChannel (channels db !! cid) in
     let! _ := saveDB {| channels := <[cid := withMeta ch (Some m)]> (channels db) |} in
     ret {| status := 200; body := metaJson m |})
    (fun e => ret (errorResponse e)).

(** The body of [POST /api/yt/ingest]. *)
Record IngestRequest := {
  req_handle : option string;
  req_channelId : option string;
  req_since : option string;
  req_backfill : bool;
}.

Definition ingestOk (added : Z) (cid : string) (backfill : bool) : Response :=
  {| status := 200;
     body := [("ok", VBool true); ("added", VNum added);
              ("channelId", VStr cid); ("backfill", VBool backfill)] |}.

(** The handler from [const channelId = ...] on, [db] being what [loadDB]
    returned. *)
Definition ingestWith (cfg : Config) (rt : Runtime) (up : Upstream)
    (req : IngestRequest) (db : DB) : M Response :=
  let backfill := req_backfill req in
  let! cido := channelIdOrResolve up (req_channelId req) (req_handle req) in
  match cido with
  | None => throw "channelId/handle required"
  | Some cid =>
      if negb (truthy (Some cid)) then throw "channelId/handle required" else
      let! uploadsId := getUploadsPlaylistId up cid in
      let ch := default newChannel (channels db !! cid) in
      let! newList :=
        listNewVideoIds cfg rt up uploadsId (req_since req)
          (lastSeenVideoId ch) backfill in
      let ids := map cand_id newList in
      if (length ids =? 0)%nat then ret (ingestOk 0 cid backfill)
      else
        let! details := fetchVideoDetails cfg up ids in
        let ch1 := withVideos ch (fold_left setVideo details (videos ch)) in
        let ch2 :=
          if negb backfill then
            let newest := last newList in
            withCursor ch1
              (jsOr (cand_id <$> newest) (lastSeenVideoId ch1))
              (jsOr (newest ≫= cand_publishedAt) (lastPublishedAt ch1))
          else ch1 in
        let! ch3 :=
          match meta ch2 with
          | Some _ => ret ch2
          | None =>
              tryCatch
                (let! m := fetchChannelMeta rt up cid in ret (withMeta ch2 (Some m)))
                (fun _ => ret ch2)
          end in
        let! _ := saveDB {| channels := <[cid := ch3]> (channels db) |} in
        ret (ingestOk (Z.of_nat (length details)) cid backfill)
  end.

(** [res.status(500).json({ ok: false, error: e.message })] *)
Definition ingestError (e : string) : Response :=
  {| status := 500; body := [("ok", VBool false); ("error", VStr e)] |}.

(** [POST /api/yt/ingest] *)
Definition ingest (cfg : Config) (rt : Runtime) (up : Upstream) (req : IngestRequest)
    : M Response :=
  tryCatch
    (let! db := loadDB in ingestWith cfg rt up req db)
    (fun e => ret (ingestError e)).

(** [GET /api/yt/metrics-by-handle] *)
Definition metricsByHandle (rt : Runtime) (up : Upstream)
    (channelIdQ handle : option string) (daysQ : option JsNumber) : M Response :=
  tryCatch
    (let days := numberParam daysQ 90 in
     let! cido := channelIdOrResolve up channelIdQ handle in
     match cido with
     | None => ret {| status := 200; body := metricsJson emptyMetrics |}
     | Some cid =>
         if negb (truthy cido) then ret {| status := 200; body := metricsJson emptyMetrics |}
         else
           let! db := loadDB in
           match makeMetricsFromChannel rt db cid days with
           | Ok m => ret {| status := 200; body := metricsJson m |}
           | Throw e => throw e
           end
     end)
    (fun e => ret (errorResponse e)).

(** ** Insight *)

(** A row as a client may post it to the insight route. *)
Record InsightRow := {
  in_publishedAt : option string;
  in_published_at : option string;
  in_date : option string;
  in_title : option string;
  in_views : option Z;
  in_likes : option Z;
  in_comments : option Z;
  in_channelTitle : option string;
  in_channel_title : option string;
}.

(** A stored row read as an insight row. *)
Definition ofVideoRecord (v : VideoRecord) : InsightRow :=
  {| in_publishedAt := publishedAt v; in_published_at := None; in_date := None;
     in_title := Some (title v); in_views := Some (views v);
     in_likes := Some (likes v); in_comments := Some (comments v);
     in_channelTitle := channelTitle v; in_channel_title := None |}.

(** The body of [POST /api/yt/insight]; an absent array is [None]. *)
Record InsightRequest := {
  ins_days : option Z;
  ins_metrics_rows : option (list InsightRow);
  ins_rows : option (list InsightRow);
  ins_channelId : option string;
  ins_handle : option string;
}.

(** The fields the route keeps of a row. *)
Record NormalizedRow := {
  n_publishedAt : option string;
  n_title : string;
  n_views : Z;
  n_likes : Z;
  n_comments : Z;
  n_channelTitle : string;
}.

Definition normalize (v : InsightRow) : NormalizedRow :=
  {| n_publishedAt :=
       match jsOr (jsOr (in_publishedAt v) (in_published_at v)) (in_date v) with
       | Some p => if truthy (Some p) then Some p else None
       | None => None
       end;
     n_title := orEmpty (in_title v);
     n_views := numberOr0 (in_views v);
     n_likes := numberOr0 (in_likes v);
     n_comments := numberOr0 (in_comments v);
     n_channelTitle := orEmpty (jsOr (in_channelTitle v) (in_channel_title v)) |}.

(** [l.slice(-n)]: the last [n] elements; all of them for [n = 0]. *)
Definition sliceLast {A} (n : Z) (l : list A) : list A :=
  let len := Z.of_nat (length l) in
  let start := if - n <? 0 then Z.max (len - n) 0 else Z.min (- n) len in
  drop (Z.to_nat start) l.

Definition toSample (v : NormalizedRow) : SampleRow :=
  {| sample_d := slice0 10 (orEmpty (n_publishedAt v));
     sample_title := slice0 140 (n_title v);
     sample_views := n_views v;
     sample_likes := n_likes v;
     sample_comments := n_comments v;
     sample_ch := n_channelTitle v |}.

(** [POST /api/yt/insight] *)
Definition insight (cfg : Config) (rt : Runtime) (up : Upstream) (req : InsightRequest)
    : M Response :=
  tryCatch
    (let days := numberOr (ins_days req) 90 in
     let posted :=
       match ins_metrics_rows req with
       | Some l => Some l
       | None => ins_rows req
       end in
     let! rowsInput :=
       match posted with
       | Some (v :: l) => ret (v :: l)
       | _ =>
           let! cido := channelIdOrResolve up (ins_channelId req) (ins_handle req) in
           match cido with
           | Some cid =>
               if truthy cido then
                 let! db := loadDB in
                 match makeMetricsFromChannel rt db cid (JsInt days) with
                 | Ok m => ret (map ofVideoRecord (rows m))
                 | Throw e => throw e
                 end
               else ret (default [] posted)
           | None => ret (default [] posted)
           end
       end in
     match rowsInput with
     | [] =>
         ret {| status := 400;
                body := [("error",
                          VStr "rows data not provided (or cannot load from DB).")] |}
     | _ =>
         let normalized := map normalize rowsInput in
         let sample :=
           map toSample
             (sliceLast (INSIGHT_MAX_ROWS cfg)
                (jsSort (fun a b => localeCompare rt (orEmpty (n_publishedAt a))
                                      (orEmpty (n_publishedAt b)))
                        normalized)) in
         let! text := buildInsightText cfg up sample days in
         ret {| status := 200;
                body := [("text", VStr text);
                         ("rowsUsed", VNum (Z.of_nat (length sample)))] |}
     end)
    (fun e => ret (errorResponse e)).

(** ** Keyword search *)

(** [t.includes(k)] *)
Fixpoint includes (t k : string) : bool :=
  if String.prefix k t then true
  else match t with
       | EmptyString => false
       | String _ t' => includes t' k
       end.

Definition isMatchAllKeywords (text : string) (keywords : list string) : bool :=
  let t := toLowerCase text in
  forallb (fun k => includes t (toLowerCase k)) keywords.

(** [s.split(',')] *)
Fixpoint splitComma (s : string) : list string :=
  match s with
  | EmptyString => [EmptyString]
  | String c s' =>
      if Ascii.eqb c "," then EmptyString :: splitComma s'
      else match splitComma s' with
           | h :: t => String c h :: t
           | [] => [String c EmptyString]
           end
  end.

(** [l.join(sep)] *)
Fixpoint join (sep : string) (l : list string) : string :=
  match l with
  | [] => EmptyString
  | [x] => x
  | x :: l' => String.append x (String.append sep (join sep l'))
  end.

(** The ids one search page contributes. *)
Fixpoint matchingIds (keywords : list string) (items : list SearchItem) : list string :=
  match items with
  | [] => []
  | it :: rest =>
      match id_videoId it with
      | Some id =>
          if negb (truthy (Some id)) then matchingIds keywords rest
          else
            let text := String.append (orEmpty (snippet_title it))
                          (String (ascii_of_nat 10) (orEmpty (snippet_description it))) in
            if negb (isMatchAllKeywords text keywords) then matchingIds keywords rest
            else id :: matchingIds keywords rest
      | None => matchingIds keywords rest
      end
  end.

(** [do ... while (pageToken && pages < YT_SEARCH_MAX_PAGES)] *)
Fixpoint searchPages (maxPages : Z) (q publishedAfter : string) (keywords : list string)
    (pages : nat) (responses : list (result (list SearchItem))) (videoIds : list string)
    : M (list string) :=
  match responses with
  | [] => ret videoIds
  | r :: rest =>
      let! items := await (Call_search_video q publishedAfter pages) r in
      let videoIds' := videoIds ++ matchingIds keywords items in
      if Z.of_nat (S pages) <? maxPages
      then searchPages maxPages q publishedAfter keywords (S pages) rest videoIds'
      else ret videoIds'
  end.

(** [GET /api/yt/metrics-by-query]; the route repeats the batch loop of
    [fetchVideoDetails] verbatim. [toISOString] of an invalid window start
    raises a [RangeError]. *)
Definition metricsByQuery (cfg : Config) (rt : Runtime) (up : Upstream)
    (qQ : option string) (daysQ : option JsNumber) : M Response :=
  tryCatch
    (let q := trim (orEmpty qQ) in
     let days := numberParam daysQ 90 in
     if negb (truthy (Some q)) then
       ret {| status := 200; body := ("query", VNull) :: metricsJson emptyMetrics |}
     else
       let keywords :=
         filter (fun s => truthy (Some s) = true) (map trim (splitComma q)) in
       match windowStart rt days with
       | None => throw "Invalid time value"
       | Some start =>
           let publishedAfter := toISOString rt start in
           let responses :=
             match search_video up (join " " keywords) publishedAfter with
             | [] => [Ok []]
             | l => l
             end in
           let! videoIds :=
             searchPages (YT_SEARCH_MAX_PAGES cfg) (join " " keywords) publishedAfter
               keywords 0 responses [] in
           let! fetched := fetchVideoDetails cfg up videoIds in
           match metricsOfRows rt (dayjs_parse rt publishedAfter) fetched with
           | Ok m => ret {| status := 200; body := ("query", VStr q) :: metricsJson m |}
           | Throw e => throw e
           end
       end)
    (fun e => ret (errorResponse e)).

(** ** Vocabulary of the statements *)

Definition otherProvider (p : Provider) : Provider :=
  match p with openai => gemini | gemini => openai end.

Definition callProvider (cfg : Config) (up : Upstream) (p : Provider)
    : list SampleRow -> Z -> M string :=
  match p with openai => callOpenAI cfg up | gemini => callGemini cfg up end.

Definition isWarn (c : Call) : bool :=
  match c with Console_warn _ => true | _ => false end.

(** How many fallbacks the log records. *)
Definition fallbacks (w : World) : nat := length (List.filter isWarn (calls w)).

Definition logged (c : Call) (w : World) : World :=
  {| calls := calls w ++ [c]; disk := disk w; writes := writes w |}.

(** The candidate a feed item yields when it carries a video id. *)
Definition candidateOf (it : PlaylistItem) : option Candidate :=
  match contentDetails_videoId it with
  | Some idv =>
      if truthy (Some idv)
      then Some {| cand_id := idv;
                   cand_publishedAt := contentDetails_videoPublishedAt it |}
      else None
  | None => None
  end.

Definition candidatesOf (items : list PlaylistItem) : list Candidate :=
  omap candidateOf items.

(** The items of a feed in front of the first one that carries a video id
    and is older than the cutoff. *)
Fixpoint untilOlder (cutoff : option string) (items : list PlaylistItem)
    : list PlaylistItem :=
  match items with
  | [] => []
  | it :: rest =>
      if truthy (contentDetails_videoId it)
         && olderThanCutoff cutoff (contentDetails_videoPublishedAt it)
      then []
      else it :: untilOlder cutoff rest
  end.

(** [a] may stay in front of [b]. *)
Definition notAfter {A} (cmp : A -> A -> comparison) (a b : A) : Prop :=
  cmp a b <> Gt.

(** A comparator that orders: any two elements are comparable one way or
    the other, transitively. *)
Definition consistent {A} (cmp : A -> A -> comparison) : Prop :=
  (forall a b, cmp a b = Gt -> cmp b a <> Gt)
  /\ (forall a b c, notAfter cmp a b -> notAfter cmp b c -> notAfter cmp a c).

(** The [byDay] key of a row. *)
Definition dayOf (v : VideoRecord) : string := slice0 10 (publishedStr v).

Definition sumCounts (m : gmap string Z) : Z :=
  map_fold (fun _ n acc => n + acc) 0 m.

(** The filter of [makeMetricsFromChannel]: published after the start of
    the day that lies [days] days back. *)
Definition inWindow (rt : Runtime) (days : JsNumber) (v : VideoRecord) : bool :=
  isAfter (publishedInstant rt v) (windowStart rt days).

(** The world after some more calls. *)
Definition extend (w : World) (cs : list Call) : World :=
  {| calls := calls w ++ cs; disk := disk w; writes := writes w |}.

(** A computation that only calls upstream: it answers [r] in every world
    and leaves the file alone. *)
Definition io_only {A} (m : M A) (r : result A) : Prop :=
  forall w, exists cs, m w = (extend w cs, r).

(** A computation that calls upstream and ends by saving [db']: it answers
    [r] in every world and writes the file once. *)
Definition saves {A} (m : M A) (db' : DB) (r : result A) : Prop :=
  forall w, exists cs,
    m w = ({| calls := calls w ++ cs; disk := Some db'; writes := S (writes w) |}, r).

(** What the route answers for the outcome of its handler. *)
Definition answer (r : result Response) : Response :=
  match r with Ok resp => resp | Throw e => ingestError e end.

(** The store as the next [loadDB] will read it. *)
Definition storedDB (w : World) : DB := default emptyDB (disk w).

(** The cursor of a channel: [lastSeenVideoId] and [lastPublishedAt]. *)
Definition cursorOf (db : DB) (cid : string) : option string * option string :=
  match channels db !! cid with
  | Some ch => (lastSeenVideoId ch, lastPublishedAt ch)
  | None => (None, None)
  end.

(** A computation that leaves the store as it is. *)
Definition keeps {A} (m : M A) : Prop :=
  forall w w' r, m w = (w', r) -> storedDB w' = storedDB w.

(** ** Vocabulary of the further properties *)

(** [ch.videos] of a channel, empty when the channel is not stored. *)
Definition videosOf (db : DB) (cid : string) : list (string * VideoRecord) :=
  match channels db !! cid with
  | Some ch => videos ch
  | None => []
  end.

(** [videos[k]] *)
Fixpoint lookupVideo (k : string) (vs : list (string * VideoRecord))
    : option VideoRecord :=
  match vs with
  | [] => None
  | (k', v) :: vs' => if String.eqb k' k then Some v else lookupVideo k vs'
  end.

Definition isPlaylistCall (c : Call) : bool :=
  match c with Call_playlistItems_list _ _ => true | _ => false end.

Definition isSearchVideoCall (c : Call) : bool :=
  match c with Call_search_video _ _ _ => true | _ => false end.

Definition isVideosCall (c : Call) : bool :=
  match c with Call_videos_list _ => true | _ => false end.

Definition isOpenAICall (c : Call) : bool :=
  match c with Call_openai => true | _ => false end.

Definition isGeminiCall (c : Call) : bool :=
  match c with Call_gemini => true | _ => false end.

(** The calls of the log that satisfy [p]. *)
Definition countCalls (p : Call -> bool) (w : World) : nat :=
  length (List.filter p (calls w)).

(** The rows one [videos.list] batch contributes. *)
Definition rowsOfBatch (up : Upstream) (batch : list string) : list VideoRecord :=
  match videos_list up batch with
  | Ok items => map toRow items
  | Throw _ => []
  end.

(** [ids.slice(k * B, k * B + B)]. *)
Definition batchAt (B : Z) (ids : list string) (k : nat) : list string :=
  jsSlice (Z.of_nat k * B) (Z.of_nat k * B + B) ids.

(** [`${sn.title || ''}\n${sn.description || ''}`] *)
Definition searchTextOf (it : SearchItem) : string :=
  String.append (orEmpty (snippet_title it))
    (String (ascii_of_nat 10) (orEmpty (snippet_description it))).

(** [q.split(',').map((s) => s.trim()).filter(Boolean)] *)
Definition keywordsOf (q : string) : list string :=
  filter (fun s => truthy (Some s) = true) (map trim (splitComma q)).

(** The pages the search answers; a search without answer is one empty
    page. *)
Definition searchResponses (up : Upstream) (q publishedAfter : string)
    : list (result (list SearchItem)) :=
  match search_video up q publishedAfter with
  | [] => [Ok []]
  | l => l
  end.

(** The row that a run of [for (const v of details) ch.videos[v.videoId] = v]
    leaves under the key [k]: the last fetched row with that id. *)
Definition lastFetched (k : string) (details : list VideoRecord) : option VideoRecord :=
  last (filter (fun d => videoId d = k) details).

(** [metrics.rows] when it is an array, else [rows] when it is one. *)
Definition postedRows (req : InsightRequest) : option (list InsightRow) :=
  match ins_metrics_rows req with
  | Some l => Some l
  | None => ins_rows req
  end.

(** A provider request or the fallback warning. *)
Definition isInsightCall (c : Call) : bool :=
  isOpenAICall c || isGeminiCall c || isWarn c.

(** ** A reference runtime

    A server whose local zone is UTC, reading and printing ISO-8601
    instants with the [Z] suffix, and comparing strings byte-wise (which is
    how every collation orders two such instants). It instantiates
    [Runtime] in the examples. *)
Module UTC.

Definition digitOf (c : ascii) : option Z :=
  let n := nat_of_ascii c in
  if (48 <=? n)%nat && (n <=? 57)%nat then Some (Z.of_nat (n - 48)) else None.

Fixpoint numberOf (acc : Z) (s : string) : option Z :=
  match s with
  | EmptyString => Some acc
  | String c s' =>
      match digitOf c with
      | Some d => numberOf (10 * acc + d) s'
      | None => None
      end
  end.

(** The [len] digits of [s] from position [i]. *)
Definition num (s : string) (i len : nat) : option Z :=
  let t := substring i len s in
  if (String.length t =? len)%nat then numberOf 0 t else None.

(** Days from 1970-01-01 to the civil date [y-m-d]. *)
Definition daysFromCivil (y m d : Z) : Z :=
  let y' := if m <=? 2 then y - 1 else y in
  let era := y' / 400 in
  let yoe := y' - era * 400 in
  let doy := (153 * (if m >? 2 then m - 3 else m + 9) + 2) / 5 + d - 1 in
  let doe := yoe * 365 + yoe / 4 - yoe / 100 + doy in
  era * 146097 + doe - 719468.

(** The civil date [(y, m, d)] of a day number. *)
Definition civilFromDays (z0 : Z) : Z * Z * Z :=
  let z := z0 + 719468 in
  let era := z / 146097 in
  let doe := z - era * 146097 in
  let yoe := (doe - doe / 1460 + doe / 36524 - doe / 146096) / 365 in
  let doy := doe - (365 * yoe + yoe / 4 - yoe / 100) in
  let mp := (5 * doy + 2) / 153 in
  let d := doy - (153 * mp + 2) / 5 + 1 in
  let m := if mp <? 10 then mp + 3 else mp - 9 in
  let y := yoe + era * 400 + (if m <=? 2 then 1 else 0) in
  (y, m, d).

Definition charAt (s : string) (i : nat) : option ascii := String.get i s.

(** [YYYY-MM-DDTHH:MM:SSZ] or [YYYY-MM-DDTHH:MM:SS.mmmZ] *)
Definition parse (s : string) : option Z :=
  y ← num s 0 4; mo ← num s 5 2; d ← num s 8 2;
  h ← num s 11 2; mi ← num s 14 2; se ← num s 17 2;
  ms ← (if String.eqb (substring 19 (String.length s) s) "Z" then Some 0
        else if bool_decide (charAt s 19 = Some "."%char)
                && String.eqb (substring 23 (String.length s) s) "Z"
             then num s 20 3 else None);
  if bool_decide (charAt s 4 = Some "-"%char) && bool_decide (charAt s 7 = Some "-"%char)
     && bool_decide (charAt s 10 = Some "T"%char)
     && bool_decide (charAt s 13 = Some ":"%char)
     && bool_decide (charAt s 16 = Some ":"%char)
     && (1 <=? mo) && (mo <=? 12) && (1 <=? d) && (d <=? 31)
     && (h <? 24) && (mi <? 60) && (se <? 60)
  then Some ((((daysFromCivil y mo d * 24 + h) * 60 + mi) * 60 + se) * 1000 + ms)
  else None.

(** The last [w] decimal digits of [z], in front of [acc]. *)
Fixpoint digits (w : nat) (z : Z) (acc : string) : string :=
  match w with
  | O => acc
  | S w' => digits w' (z / 10) (String (ascii_of_nat (48 + Z.to_nat (z mod 10))) acc)
  end.

Definition format (t : Z) : string :=
  let '(y, m, d) := civilFromDays (t / 86400000) in
  let r := t mod 86400000 in
  digits 4 y (String "-" (digits 2 m (String "-" (digits 2 d (String "T"
  (digits 2 (r / 3600000) (String ":" (digits 2 (r / 60000 mod 60) (String ":"
  (digits 2 (r / 1000 mod 60) (String "." (digits 3 (r mod 1000) "Z")))))))))))).

(** The instants of [Date]: 100 000 000 days either side of the epoch. *)
Definition inRange (t : Z) : option Z :=
  if Z.abs t <=? 8640000000000000 then Some t else None.

Definition runtime (nowISO : string) : Runtime :=
  {| now := default 0 (parse nowISO);
     Date_parse := parse;
     toISOString := format;
     dayjs_parse := parse;
     startOfDay := fun t => inRange (t - t mod 86400000);
     subtractDays := fun t n => inRange (t - n * 86400000);
     localeCompare := String.compare |}.

End UTC.

(** ** Sample data for the examples *)
Module Samples.

Definition cfg0 : Config :=
  {| env_YT_FETCH_MAX_NEW := None; env_YT_VIDEOS_BATCH := None;
     env_YT_SEARCH_MAX_PAGES := None; env_INSIGHT_MAX_ROWS := None;
     env_LLM_PROVIDER := ""; OPENAI_KEY := "sk-test"; GEMINI_KEY := "g-test" |}.

(** A platform that knows no channel, no video and no provider. *)
Definition offline : Upstream :=
  {| search_channel := fun _ => Ok [];
     search_video := fun _ _ => [];
     channels_list := fun _ => Ok None;
     playlistItems_list := fun _ => [];
     videos_list := fun _ => Ok [];
     openai_create := fun _ _ => Throw "429";
     gemini_generateContent := fun _ _ => Throw "Gemini timeout" |}.

Definition world0 : World := {| calls := []; disk := None; writes := 0 |}.

Definition canonicalId : string := "UCabcdefghij0123456789_-".

(** A batch size far above the platform's ceiling. *)
Definition cfg500 : Config :=
  {| env_YT_FETCH_MAX_NEW := None; env_YT_VIDEOS_BATCH := Some 500;
     env_YT_SEARCH_MAX_PAGES := None; env_INSIGHT_MAX_ROWS := None;
     env_LLM_PROVIDER := ""; OPENAI_KEY := "sk-test"; GEMINI_KEY := "g-test" |}.

(** The ids v0, v1, ... *)
Definition videoIdOf (n : nat) : string := String.append "v" (pretty n).

Definition ids120 : list string := map videoIdOf (seq 0 120).

Definition item (id pub : string) : PlaylistItem :=
  {| contentDetails_videoId := Some id; contentDetails_videoPublishedAt := Some pub |}.

Definition apiVideo (id : string) : ApiVideo :=
  {| api_id := id; api_title := Some id; api_description := None;
     api_publishedAt := Some "2024-01-01T00:00:00Z"; api_channelId := None;
     api_channelTitle := None; api_duration := None; api_viewCount := Some 1;
     api_likeCount := None; api_commentCount := None |}.

(** A platform with one channel whose upload feed is [pages]. *)
Definition withFeed (pages : list (list PlaylistItem)) : Upstream :=
  {| search_channel := fun _ => Ok [];
     search_video := fun _ _ => [];
     channels_list := fun _ =>
       Ok (Some {| ci_title := Some "channel"; ci_description := None;
                   ci_subscriberCount := None; ci_videoCount := None;
                   ci_viewCount := None; ci_uploads := Some "UU-uploads" |});
     playlistItems_list := fun _ => map Ok pages;
     videos_list := fun ids => Ok (map apiVideo ids);
     openai_create := fun _ _ => Throw "429";
     gemini_generateContent := fun _ _ => Throw "Gemini timeout" |}.

(** 120 uploads, newest first, in pages of 50, 50 and 20. *)
Definition feed120 : list (list PlaylistItem) :=
  let items := map (fun id => item id "2024-01-01T00:00:00Z") ids120 in
  [take 50 items; take 50 (drop 50 items); drop 100 items].

Definition cfg100 : Config :=
  {| env_YT_FETCH_MAX_NEW := Some 100; env_YT_VIDEOS_BATCH := None;
     env_YT_SEARCH_MAX_PAGES := None; env_INSIGHT_MAX_ROWS := None;
     env_LLM_PROVIDER := ""; OPENAI_KEY := "sk-test"; GEMINI_KEY := "g-test" |}.

Definition rt0 : Runtime := UTC.runtime "2024-03-10T12:00:00Z".

(** Three uploads; the oldest one is the cursor. *)
Definition feedABX : list (list PlaylistItem) :=
  [[item "a" "2024-03-01T00:00:00Z"; item "b" "2024-01-15T00:00:00Z";
    item "x" "2024-01-01T00:00:00Z"]].

Definition row (id pub : string) (n : Z) : VideoRecord :=
  {| videoId := id; title := id; description := ""; publishedAt := Some pub;
     channelId := Some canonicalId; channelTitle := Some "channel";
     duration := None; views := n; likes := 0; comments := 0 |}.

(** A store with one channel of three rows; at noon of 2024-03-10 and with
    [days = 1] the first row is older than [now - days] and the last one
    lies in the future. *)
Definition db3 : DB :=
  {| channels :=
       {[ canonicalId :=
            {| videos := [("early", row "early" "2024-03-09T06:00:00Z" 5);
                          ("late", row "late" "2024-03-10T08:00:00Z" 7);
                          ("next", row "next" "2024-03-11T09:00:00Z" 7)];
               lastSeenVideoId := Some "late";
               lastPublishedAt := Some "2024-03-10T08:00:00Z";
               meta := None |} ]} |}.

Definition ingestABX (backfill : bool) : IngestRequest :=
  {| req_handle := None; req_channelId := Some canonicalId;
     req_since := Some "2024-01-01T00:00:00Z"; req_backfill := backfill |}.

(** The file holds [db3]. *)
Definition world3 : World := {| calls := []; disk := Some db3; writes := 0 |}.

(** A platform whose search finds one video that mentions both keywords
    and one that does not. *)
Definition withSearch : Upstream :=
  {| search_channel := fun _ => Ok [];
     search_video := fun _ _ =>
       [Ok [ {| id_videoId := Some "v1"; id_channelId := None;
                snippet_channelId := None;
                snippet_title := Some "LG AC event";
                snippet_description := Some "our newest air conditioner" |};
             {| id_videoId := Some "v2"; id_channelId := None;
                snippet_channelId := None;
                snippet_title := Some "LG TV";
                snippet_description := None |} ]];
     channels_list := fun _ => Ok None;
     playlistItems_list := fun _ => [];
     videos_list := fun ids => Ok (map apiVideo ids);
     openai_create := fun _ _ => Throw "429";
     gemini_generateContent := fun _ _ => Throw "Gemini timeout" |}.

(** OpenAI is over quota, Gemini answers. *)
Definition geminiOnly : Upstream :=
  {| search_channel := fun _ => Ok [];
     search_video := fun _ _ => [];
     channels_list := fun _ => Ok None;
     playlistItems_list := fun _ => [];
     videos_list := fun _ => Ok [];
     openai_create := fun _ _ => Throw "429";
     gemini_generateContent := fun _ _ => Ok (Some "report") |}.

End Samples.

(** ** Further cases *)

Module Cases.

(** A platform whose [videos.list] answers full batches of 50 and refuses
    any other. *)
Definition quotaAfterFull : Upstream :=
  {| search_channel := fun _ => Ok [];
     search_video := fun _ _ => [];
     channels_list := fun _ => Ok None;
     playlistItems_list := fun _ => [];
     videos_list := fun ids =>
       if (length ids =? 50)%nat then Ok (map Samples.apiVideo ids)
       else Throw "quotaExceeded";
     openai_create := fun _ _ => Throw "429";
     gemini_generateContent := fun _ _ => Throw "Gemini timeout" |}.

(** A store whose only channel holds one dated and one undated row. *)
Definition dbUndated : DB :=
  {| channels :=
       {[ Samples.canonicalId :=
            {| videos :=
                 [("dated", Samples.row "dated" "2024-03-09T06:00:00Z" 5);
                  ("undated",
                   {| videoId := "undated"; title := "undated"; description := "";
                      publishedAt := None; channelId := None; channelTitle := None;
                      duration := None; views := 0; likes := 0; comments := 0 |})];
               lastSeenVideoId := None; lastPublishedAt := None;
               meta := None |} ]} |}.

(** No provider key is configured. *)
Definition cfgNoKeys : Config :=
  {| env_YT_FETCH_MAX_NEW := None; env_YT_VIDEOS_BATCH := None;
     env_YT_SEARCH_MAX_PAGES := None; env_INSIGHT_MAX_ROWS := None;
     env_LLM_PROVIDER := ""; OPENAI_KEY := ""; GEMINI_KEY := "" |}.

(** Channel metadata fetched twelve hours before the clock of
    [Samples.rt0]. *)
Definition metaNoon : ChannelMeta :=
  {| meta_channelId := Samples.canonicalId; meta_title := Some "channel";
     meta_description := None; meta_subscriberCount := 10; meta_videoCount := 3;
     meta_viewCount := 19; meta_uploadsId := Some "UU-uploads";
     meta_fetchedAt := "2024-03-10T00:00:00.000Z" |}.

Definition channelCached : ChannelState :=
  {| videos := [("early", Samples.row "early" "2024-03-09T06:00:00Z" 5)];
     lastSeenVideoId := Some "early";
     lastPublishedAt := Some "2024-03-09T06:00:00Z";
     meta := Some metaNoon |}.

Definition dbCached : DB := {| channels := {[ Samples.canonicalId := channelCached ]} |}.

(** A platform whose channel search finds the sample channel, under
    [id.channelId] only. *)
Definition withChannel : Upstream :=
  {| search_channel := fun _ =>
       Ok [ {| id_videoId := None; id_channelId := Some Samples.canonicalId;
               snippet_channelId := None; snippet_title := Some "LG Global";
               snippet_description := None |} ];
     search_video := fun _ _ => [];
     channels_list := fun _ => Ok None;
     playlistItems_list := fun _ => [];
     videos_list := fun _ => Ok [];
     openai_create := fun _ _ => Throw "429";
     gemini_generateContent := fun _ _ => Throw "Gemini timeout" |}.

End Cases.

(** ** The specification's sentences that the code does not satisfy,
    as they are written *)
Module Stated.

(** "Given Incremental mode and cursorVideoId = X present in the feed at
    position k, the result contains exactly the k-1 items newer than X":
    for every configuration and every [since]. *)
Definition cursor_exclusion : Prop :=
  forall cfg rt up uploadsId sinceISO X (pages : list (list PlaylistItem))
         pre it post w,
    playlistItems_list up uploadsId = map Ok pages ->
    concat pages = pre ++ it :: post ->
    contentDetails_videoId it = Some X -> X <> "" ->
    Forall (fun p => truthy (contentDetails_videoId p) = true
                     /\ contentDetails_videoId p <> Some X) pre ->
    (exists cutoff, cutoffOf rt sinceISO = Ok cutoff) ->
    exists w',
      listNewVideoIds cfg rt up uploadsId sinceISO (Some X) false w
      = (w', Ok (reverse (candidatesOf pre))).

(** "Given a synthetic newest-first feed of 120 items and maxRecords=100,
    the walker returns exactly 100 items, oldest-first, and the 100th item
    (newest kept) is the 100th item from the feed's start." *)
Definition record_cap_100th : Prop :=
  forall cfg rt up uploadsId (pages : list (list PlaylistItem)) backfill w,
    YT_FETCH_MAX_NEW cfg = 100 ->
    playlistItems_list up uploadsId = map Ok pages ->
    length (concat pages) = 120%nat ->
    Forall (fun p => truthy (contentDetails_videoId p) = true) (concat pages) ->
    exists w' res,
      listNewVideoIds cfg rt up uploadsId None None backfill w = (w', Ok res)
      /\ length res = 100%nat
      /\ res !! 99%nat = concat pages !! 99%nat ≫= candidateOf.

(** "Filter rows to publishedAt within [now - days, now) ... a row outside
    the window appears in none of rows, top, byDay, or total." *)
Definition metrics_window : Prop :=
  forall rt db cid (days : Z) ch m v p t from,
    channels db !! cid = Some ch ->
    makeMetricsFromChannel rt db cid (JsInt days) = Ok m ->
    publishedAt v = Some p -> dayjs_parse rt p = Some t ->
    subtractDays rt (now rt) days = Some from ->
    ~ (from <= t < now rt) ->
    v ∉ rows m.

(** "The keyword-search result includes, in addition to byDay/rows/top/
    total, a topChannels field." *)
Definition topChannels_field : Prop :=
  forall cfg rt up qQ daysQ w w' resp,
    metricsByQuery cfg rt up qQ daysQ w = (w', Ok resp) ->
    status resp = 200 ->
    is_Some (field "topChannels" (body resp)).

End Stated.

(** * Properties *)

(** ** The model at work *)

Example keyword_filter_kept :
  isMatchAllKeywords
    (String.append "LG AC event"
       (String (ascii_of_nat 10) "our newest air conditioner"))
    ["LG"; "air conditioner"] = true.
Proof. reflexivity. Qed.

Example keyword_filter_dropped :
  isMatchAllKeywords (String.append "LG TV" (String (ascii_of_nat 10) ""))
    ["LG"; "air conditioner"] = false.
Proof. reflexivity. Qed.

Example resolver_query : trim (stripLeadingAt "@lg global ") = "lg global".
Proof. reflexivity. Qed.

Example batch_size_clamped : YT_VIDEOS_BATCH Samples.cfg500 = 50.
Proof. reflexivity. Qed.

Example cutoff_normalised :
  cutoffOf Samples.rt0 (Some "2024-02-01T00:00:00Z")
  = Ok (Some "2024-02-01T00:00:00.000Z").
Proof. reflexivity. Qed.

Example window_start_of_day :
  toISOString Samples.rt0 <$> windowStart Samples.rt0 (JsInt 1)
  = Some "2024-03-09T00:00:00.000Z".
Proof. reflexivity. Qed.

Example window_start_out_of_range :
  windowStart Samples.rt0 (JsInt 200000000) = None
  /\ windowStart Samples.rt0 JsNaN = None.
Proof. split; reflexivity. Qed.

Example provider_name_lower_cased :
  pickProvider {| env_YT_FETCH_MAX_NEW := None; env_YT_VIDEOS_BATCH := None;
                  env_YT_SEARCH_MAX_PAGES := None; env_INSIGHT_MAX_ROWS := None;
                  env_LLM_PROVIDER := "GEMINI"; OPENAI_KEY := "sk-test";
                  GEMINI_KEY := "" |} = gemini.
Proof. reflexivity. Qed.

Example trim_no_break_space :
  trim (String (ascii_of_nat 160) "lg ") = "lg".
Proof. reflexivity. Qed.

Example sort_is_stable :
  map videoId
    (jsSort byViewsDesc
       [Samples.row "a" "" 5; Samples.row "b" "" 7; Samples.row "c" "" 5;
        Samples.row "d" "" 7])
  = ["b"; "d"; "a"; "c"].
Proof. reflexivity. Qed.

Example slice_last : sliceLast 2 [1; 2; 3] = [2; 3] /\ sliceLast 0 [1; 2; 3] = [1; 2; 3].
Proof. split; reflexivity. Qed.

(** ** Channel resolver *)

Lemma isCanonicalChannelId_shape (s : string) :
  isCanonicalChannelId s = true <->
  exists rest, s = String "U" (String "C" rest)
    /\ String.length rest = 22%nat
    /\ Forall (fun c => isIdChar c = true) (list_ascii_of_string rest).
Proof.
  unfold isCanonicalChannelId. split.
  - destruct s as [|c1 s']; [discriminate|].
    destruct c1 as [[] [] [] [] [] [] [] []]; try discriminate.
    destruct s' as [|c2 rest]; [discriminate|].
    destruct c2 as [[] [] [] [] [] [] [] []]; try discriminate.
    intros H. apply andb_prop in H as [Hl Hf].
    exists rest. split; [reflexivity|]. split.
    + by apply Nat.eqb_eq.
    + apply Forall_forall. intros c Hc. rewrite forallb_forall in Hf.
      apply Hf. by apply list_elem_of_In.
  - intros (rest & -> & Hl & Hf). apply andb_true_intro. split.
    + by apply Nat.eqb_eq.
    + apply forallb_forall. intros c Hc. rewrite Forall_forall in Hf.
      apply Hf. by apply list_elem_of_In.
Qed.

Lemma firstChannelId_None (items : list SearchItem) :
  firstChannelId items = None <->
  items = [] \/ exists it rest, items = it :: rest
     /\ truthy (snippet_channelId it) = false /\ truthy (id_channelId it) = false.
Proof.
  unfold firstChannelId, jsOr. split.
  - destruct items as [|it rest]; [by left|]. intros H. right. exists it, rest.
    split; [done|].
    destruct (truthy (snippet_channelId it)) eqn:E1.
    + destruct (snippet_channelId it); [|done]. by rewrite E1 in H.
    + split; [done|]. destruct (id_channelId it) as [s|]; [|done].
      destruct (truthy (Some s)); [done|done].
  - intros [->|(it & rest & -> & H1 & H2)]; [done|].
    rewrite H1. destruct (id_channelId it); [|done]. by rewrite H2.
Qed.

Lemma rev_is_reverse {A} (l : list A) : rev l = reverse l.
Proof. unfold reverse. apply rev_alt. Qed.

Lemma dropSpaces_spec (l : list ascii) :
  exists pre,
    l = pre ++ dropSpaces l
    /\ Forall (fun c => isSpace c = true) pre
    /\ forall c, head (dropSpaces l) = Some c -> isSpace c = false.
Proof.
  induction l as [|a l IH]; cbn [dropSpaces].
  - exists []. by repeat split.
  - destruct (isSpace a) eqn:Ha.
    + destruct IH as (pre & Hl & Hpre & Hhead). exists (a :: pre).
      split; [cbn; congruence|]. split; [by constructor|done].
    + exists []. split; [done|]. split; [constructor|].
      intros c [= <-]. done.
Qed.

(** [trim] removes white space, and only white space, from both ends. *)
Lemma trim_spec (s : string) :
  exists pre post,
    list_ascii_of_string s = pre ++ list_ascii_of_string (trim s) ++ post
    /\ Forall (fun c => isSpace c = true) pre
    /\ Forall (fun c => isSpace c = true) post
    /\ (forall c, head (list_ascii_of_string (trim s)) = Some c -> isSpace c = false)
    /\ (forall c, last (list_ascii_of_string (trim s)) = Some c -> isSpace c = false).
Proof.
  unfold trim. rewrite list_ascii_of_string_of_list_ascii.
  destruct (dropSpaces_spec (list_ascii_of_string s)) as (pre & Hl & Hpre & Hhead).
  set (l1 := dropSpaces (list_ascii_of_string s)) in *.
  destruct (dropSpaces_spec (rev l1)) as (post & Hr & Hpost & Hlast).
  set (l2 := dropSpaces (rev l1)) in *.
  assert (Hl1 : l1 = rev l2 ++ rev post).
  { rewrite <- (rev_involutive l1), Hr. apply rev_app_distr. }
  exists pre, (rev post). split; [by rewrite <- Hl1|].
  split; [done|]. split; [by apply Forall_rev|]. split.
  - intros c Hc. apply Hhead. rewrite Hl1. by destruct (rev l2).
  - intros c Hc. apply Hlast. rewrite rev_is_reverse, last_reverse in Hc. done.
Qed.

(** C8. An input matches the canonical shape exactly when it is the two
    letters UC followed by 22 characters of the id alphabet. Such an input
    is returned unchanged and the world is untouched: no search call is
    issued. Any other input costs exactly one channel search; the query is
    the input without its leading [@], if it has one, and without the white
    space at both ends. An answer without a channel id fails with "cannot
    resolve channelId"; otherwise the first item's [snippet.channelId], or
    else its [id.channelId], is returned. *)
Theorem resolveToChannelId_short_circuit (up : Upstream) (input : string) (w : World) :
  (isCanonicalChannelId input = true <->
     exists rest, input = String "U" (String "C" rest) /\ String.length rest = 22%nat
       /\ Forall (fun c => isIdChar c = true) (list_ascii_of_string rest))
  /\ (isCanonicalChannelId input = true ->
      resolveToChannelId up input w = (w, Ok input))
  /\ (isCanonicalChannelId input = false ->
      let q := trim (stripLeadingAt input) in
      exists r,
        resolveToChannelId up input w =
          ({| calls := calls w ++ [Call_search_channel q];
              disk := disk w; writes := writes w |}, r)
        /\ (exists core pre post,
              (input = String "@" core
               \/ (core = input /\ forall rest, input <> String "@" rest))
              /\ list_ascii_of_string core = pre ++ list_ascii_of_string q ++ post
              /\ Forall (fun c => isSpace c = true) pre
              /\ Forall (fun c => isSpace c = true) post
              /\ (forall c, head (list_ascii_of_string q) = Some c -> isSpace c = false)
              /\ (forall c, last (list_ascii_of_string q) = Some c -> isSpace c = false))
        /\ (forall items, search_channel up q = Ok items ->
              (items = [] \/ exists it rest, items = it :: rest
                 /\ truthy (snippet_channelId it) = false
                 /\ truthy (id_channelId it) = false) ->
              r = Throw "cannot resolve channelId")
        /\ (forall it rest id, search_channel up q = Ok (it :: rest) ->
              snippet_channelId it = Some id -> id <> "" -> r = Ok id)
        /\ (forall it rest id, search_channel up q = Ok (it :: rest) ->
              truthy (snippet_channelId it) = false ->
              id_channelId it = Some id -> id <> "" -> r = Ok id)
        /\ (forall items id, search_channel up q = Ok items ->
              firstChannelId items = Some id -> r = Ok id)
        /\ (forall e, search_channel up q = Throw e -> r = Throw e)).
Proof.
  split; [apply isCanonicalChannelId_shape|]. split.
  - intros H. unfold resolveToChannelId. by rewrite H.
  - intros H q.
    assert (Hq : exists core pre post,
              (input = String "@" core
               \/ (core = input /\ forall rest, input <> String "@" rest))
              /\ list_ascii_of_string core = pre ++ list_ascii_of_string q ++ post
              /\ Forall (fun c => isSpace c = true) pre
              /\ Forall (fun c => isSpace c = true) post
              /\ (forall c, head (list_ascii_of_string q) = Some c -> isSpace c = false)
              /\ (forall c, last (list_ascii_of_string q) = Some c -> isSpace c = false)).
    { destruct (trim_spec (stripLeadingAt input)) as (pre & post & Hsplit & Hrest).
      exists (stripLeadingAt input), pre, post. split; [|by split].
      destruct input as [|c rest]; [right; by split|].
      destruct (Ascii.eqb_spec c "@") as [->|Hc]; [by left|].
      right. split; [|intros rest' [= ? _]; done].
      cbn. destruct c as [[] [] [] [] [] [] [] []]; try done. }
    assert (Hfirst : forall it rest id,
              (snippet_channelId it = Some id
               \/ (truthy (snippet_channelId it) = false /\ id_channelId it = Some id)) ->
              id <> "" -> firstChannelId (it :: rest) = Some id).
    { intros it rest id Hid Hne. apply String.eqb_neq in Hne.
      unfold firstChannelId, jsOr. destruct Hid as [Hs|[Hs Hi]].
      - rewrite Hs. do 3 (cbn; rewrite ?Hne). done.
      - rewrite Hs, Hi. do 3 (cbn; rewrite ?Hne). done. }
    unfold resolveToChannelId. rewrite H. fold q.
    unfold bind, await. cbn.
    destruct (search_channel up q) as [items|e] eqn:E.
    + destruct (firstChannelId items) as [id|] eqn:F.
      * eexists. split; [reflexivity|]. split; [exact Hq|]. split; [|split; [|split; [|split]]].
        -- intros items' [= <-] Hn. apply firstChannelId_None in Hn. congruence.
        -- intros it rest id' [= ->] Hs Hne.
           rewrite (Hfirst it rest id' (or_introl Hs) Hne) in F. congruence.
        -- intros it rest id' [= ->] Hs Hi Hne.
           rewrite (Hfirst it rest id' (or_intror (conj Hs Hi)) Hne) in F. congruence.
        -- intros items' id' [= <-] F'. congruence.
        -- discriminate.
      * eexists. split; [reflexivity|]. split; [exact Hq|]. split; [|split; [|split; [|split]]].
        -- done.
        -- intros it rest id' [= ->] Hs Hne.
           rewrite (Hfirst it rest id' (or_introl Hs) Hne) in F. discriminate F.
        -- intros it rest id' [= ->] Hs Hi Hne.
           rewrite (Hfirst it rest id' (or_intror (conj Hs Hi)) Hne) in F. discriminate F.
        -- intros items' id' [= <-] F'. congruence.
        -- discriminate.
    + eexists. split; [reflexivity|]. split; [exact Hq|].
      split; [|split; [|split; [|split]]]; try discriminate.
      by intros e' [= ->].
Qed.

Lemma resolveToChannelId_short_circuit_witness :
  resolveToChannelId Samples.offline Samples.canonicalId Samples.world0
  = (Samples.world0, Ok Samples.canonicalId)
  /\ resolveToChannelId Cases.withChannel "@lg global " Samples.world0
     = ({| calls := [Call_search_channel "lg global"]; disk := None; writes := 0 |},
        Ok Samples.canonicalId).
Proof.
  split.
  - apply (proj1 (proj2 (resolveToChannelId_short_circuit
                           Samples.offline Samples.canonicalId Samples.world0))).
    reflexivity.
  - destruct (proj2 (proj2 (resolveToChannelId_short_circuit
                              Cases.withChannel "@lg global " Samples.world0))
                eq_refl) as (r & Hrun & _ & _ & _ & Hid & _).
    rewrite Hrun. f_equal. eapply Hid; [reflexivity|reflexivity|reflexivity|discriminate].
Defined.

(** ** Provider fallback *)

Lemma callProvider_fallbacks cfg up p sample days w w' r :
  callProvider cfg up p sample days w = (w', r) -> fallbacks w' = fallbacks w.
Proof.
  unfold fallbacks.
  assert (Hlog : forall c, isWarn c = false ->
            length (List.filter isWarn (calls w ++ [c]))
            = length (List.filter isWarn (calls w))).
  { intros c Hc. rewrite List.filter_app, length_app. cbn. rewrite Hc. cbn. lia. }
  destruct p; cbn; unfold callOpenAI, callGemini, bind, await, throw, ret;
    repeat (case_match; cbn); intros Heq; simplify_eq; cbn; try done;
    by apply Hlog.
Qed.

(** C9. Let the first-choice provider be the one [pickProvider] selects.
    When its call returns a text, that text is the result and nothing else
    happens (the world is the one its call left, no fallback is logged).
    When it throws, one fallback is logged and the other provider is
    called exactly once: the text or the error of that call is the result
    of [buildInsightText]. *)
Theorem buildInsightText_fallback (cfg : Config) (up : Upstream)
    (sample : list SampleRow) (days : Z) (w w1 : World) (r1 : result string) :
  callProvider cfg up (pickProvider cfg) sample days w = (w1, r1) ->
  (forall text, r1 = Ok text ->
     buildInsightText cfg up sample days w = (w1, Ok text)
     /\ fallbacks w1 = fallbacks w)
  /\ (forall e, r1 = Throw e ->
      exists msg w2 r2,
        callProvider cfg up (otherProvider (pickProvider cfg)) sample days
          (logged (Console_warn msg) w1) = (w2, r2)
        /\ buildInsightText cfg up sample days w = (w2, r2)
        /\ fallbacks w2 = S (fallbacks w)).
Proof.
  intros H1. pose proof (callProvider_fallbacks _ _ _ _ _ _ _ _ H1) as Hf.
  unfold buildInsightText, tryCatch. split.
  - intros text ->. split; [|done].
    destruct (pickProvider cfg); cbn in H1; by rewrite H1.
  - intros e ->.
    destruct (pickProvider cfg); cbn in H1; rewrite H1; cbn.
    + destruct (callGemini cfg up sample days (logged (Console_warn
        "[insight] openai failed, fallback->gemini:") w1)) as [w2 r2] eqn:E2.
      exists "[insight] openai failed, fallback->gemini:", w2, r2.
      split; [done|]. split.
      * unfold bind, warn, await. cbn. exact E2.
      * rewrite (callProvider_fallbacks cfg up gemini _ _ _ _ _ E2).
        unfold fallbacks, logged. cbn.
        rewrite List.filter_app, length_app. cbn. unfold fallbacks in Hf. lia.
    + destruct (callOpenAI cfg up sample days (logged (Console_warn
        "[insight] gemini failed, fallback->openai:") w1)) as [w2 r2] eqn:E2.
      exists "[insight] gemini failed, fallback->openai:", w2, r2.
      split; [done|]. split.
      * unfold bind, warn, await. cbn. exact E2.
      * rewrite (callProvider_fallbacks cfg up openai _ _ _ _ _ E2).
        unfold fallbacks, logged. cbn.
        rewrite List.filter_app, length_app. cbn. unfold fallbacks in Hf. lia.
Qed.

Lemma buildInsightText_fallback_witness :
  exists w2, buildInsightText Samples.cfg0 Samples.geminiOnly [] 90 Samples.world0
             = (w2, Ok "report") /\ fallbacks w2 = 1%nat.
Proof.
  destruct (proj2 (buildInsightText_fallback Samples.cfg0 Samples.geminiOnly [] 90
                     Samples.world0 _ _ eq_refl) "429" eq_refl)
    as (msg & w2 & r2 & H2 & Hb & Hf).
  exists w2. split; [|exact Hf].
  rewrite Hb. f_equal.
  unfold callProvider, Samples.cfg0, pickProvider in H2. cbn in H2.
  by injection H2 as _ <-.
Defined.

(** ** Metrics of an unknown channel *)

(** C10. For a channel id without an entry in the store, whatever [days]
    is, [makeMetricsFromChannel] returns the empty result (no keys in
    [byDay], no [rows], no [top], [total] 0) and raises nothing; the route
    answers with it and leaves the world as it was: the stored file is
    neither rewritten nor changed and nothing is called. *)
Theorem makeMetricsFromChannel_absent (rt : Runtime) (up : Upstream) (db : DB)
    (cid : string) (days : JsNumber) (handle : option string)
    (daysQ : option JsNumber) (w : World) :
  channels db !! cid = None ->
  makeMetricsFromChannel rt db cid days
    = Ok {| byDay := ∅; rows := []; top := []; total := 0 |}
  /\ (disk w = Some db -> truthy (Some cid) = true ->
      metricsByHandle rt up (Some cid) handle daysQ w
      = (w, Ok {| status := 200;
                  body := [("byDay", VCounts ∅); ("rows", VRows []);
                           ("top", VRows []); ("total", VNum 0)] |})).
Proof.
  intros Habs. split.
  - unfold makeMetricsFromChannel. by rewrite Habs.
  - intros Hdisk Ht.
    unfold metricsByHandle, tryCatch, bind, channelIdOrResolve, loadDB, ret.
    cbn in *. do 3 (rewrite ?Ht, ?Hdisk; cbn).
    unfold makeMetricsFromChannel. rewrite Habs. reflexivity.
Qed.

Lemma makeMetricsFromChannel_absent_witness :
  makeMetricsFromChannel (UTC.runtime "2024-03-01T12:00:00Z") emptyDB
    Samples.canonicalId (JsInt 90) = Ok emptyMetrics.
Proof.
  apply (makeMetricsFromChannel_absent (UTC.runtime "2024-03-01T12:00:00Z")
           Samples.offline emptyDB Samples.canonicalId (JsInt 90) None None
           Samples.world0).
  reflexivity.
Defined.

(** ** Detail fetcher *)

Lemma YT_VIDEOS_BATCH_range (cfg : Config) : 1 <= YT_VIDEOS_BATCH cfg <= 50.
Proof. unfold YT_VIDEOS_BATCH. lia. Qed.

Lemma fetchLoop_unfold fuel up B ids i rows :
  fetchLoop fuel up B ids i rows =
  if i <? Z.of_nat (length ids) then
    match fuel with
    | O => ret rows
    | S fuel' =>
        let batch := jsSlice i (i + B) ids in
        let! items := await (Call_videos_list batch) (videos_list up batch) in
        fetchLoop fuel' up B ids (i + B) (rows ++ map toRow items)
    end
  else ret rows.
Proof. by destruct fuel. Qed.

(** The loop from index [n]: the batches it requests are consecutive
    slices of at most [B] ids; they cover the rest of the input unless a
    request throws, and the fuel never runs out. *)
Lemma fetchLoop_batches up (B : Z) (ids : list string) :
  1 <= B ->
  forall (fuel n : nat) (rows : list VideoRecord) (w : World),
    (length ids - n <= fuel)%nat ->
    exists batches w' r,
      fetchLoop fuel up B ids (Z.of_nat n) rows w = (w', r)
      /\ calls w' = calls w ++ map Call_videos_list batches
      /\ disk w' = disk w /\ writes w' = writes w
      /\ Forall (fun b => (0 < length b <= Z.to_nat B)%nat) batches
      /\ concat batches `prefix_of` drop n ids
      /\ (forall rs, r = Ok rs -> concat batches = drop n ids)
      /\ ((forall b, exists items, videos_list up b = Ok items) ->
          exists rs, r = Ok rs).
Proof.
  intros HB.
  assert (Hdone : forall fuel n rows w, (length ids <= n)%nat ->
    exists batches w' r,
      fetchLoop fuel up B ids (Z.of_nat n) rows w = (w', r)
      /\ calls w' = calls w ++ map Call_videos_list batches
      /\ disk w' = disk w /\ writes w' = writes w
      /\ Forall (fun b => (0 < length b <= Z.to_nat B)%nat) batches
      /\ concat batches `prefix_of` drop n ids
      /\ (forall rs, r = Ok rs -> concat batches = drop n ids)
      /\ ((forall b, exists items, videos_list up b = Ok items) ->
          exists rs, r = Ok rs)).
  { intros fuel n rows w Hn. exists [], w, (Ok rows).
    rewrite fetchLoop_unfold.
    destruct (Z.ltb_spec (Z.of_nat n) (Z.of_nat (length ids))); [lia|].
    cbn. rewrite app_nil_r, drop_ge by lia.
    split; [done|]. split; [done|]. split; [done|]. split; [done|].
    split; [constructor|]. split; [done|]. split; [done|].
    intros _. by exists rows. }
  intros fuel. induction fuel as [|fuel IH]; intros n rows w Hfuel.
  { apply Hdone. lia. }
  destruct (Nat.le_gt_cases (length ids) n) as [Hge|Hlt]; [by apply Hdone|].
  clear Hdone. rewrite fetchLoop_unfold.
  destruct (Z.ltb_spec (Z.of_nat n) (Z.of_nat (length ids))); [|lia].
  set (batch := jsSlice (Z.of_nat n) (Z.of_nat n + B) ids).
  assert (Hbatch : batch = take (Z.to_nat B) (drop n ids)).
  { unfold batch, jsSlice. f_equal; [f_equal; lia|]. by rewrite Nat2Z.id. }
  assert (Hlen : (0 < length batch <= Z.to_nat B)%nat).
  { rewrite Hbatch, length_take, length_drop. lia. }
  cbn zeta. unfold bind, await.
  destruct (videos_list up batch) as [items|e] eqn:Ecall.
  - replace (Z.of_nat n + B) with (Z.of_nat (n + Z.to_nat B)) by lia.
    destruct (IH (n + Z.to_nat B)%nat (rows ++ map toRow items)
                (logged (Call_videos_list batch) w))
      as (bs & w' & r & Hrun & Hcalls & Hdisk & Hwrites & Hall & Hpre & Hok & Htot);
      [lia|].
    exists (batch :: bs), w', r. unfold logged in Hrun. rewrite Hrun.
    split; [done|]. split.
    { rewrite Hcalls. cbn. by rewrite <- app_assoc. }
    split; [done|]. split; [done|]. split; [by constructor|].
    assert (Hsplit : drop n ids = batch ++ drop (n + Z.to_nat B) ids).
    { rewrite Hbatch, <- drop_drop. symmetry. apply take_drop. }
    split; [|split].
    + cbn. rewrite Hsplit. by apply prefix_app.
    + intros rs Hr. cbn. rewrite Hsplit. f_equal. by apply (Hok rs).
    + done.
  - exists [batch], (logged (Call_videos_list batch) w), (Throw e).
    split; [done|]. split; [done|]. split; [done|]. split; [done|].
    split; [by constructor|]. split; [|split].
    + cbn. rewrite app_nil_r, Hbatch. apply prefix_take.
    + discriminate.
    + intros Hnever. destruct (Hnever batch) as [items Hi]. congruence.
Qed.

(** C6. Whatever batch size is configured (500, say) and whatever ids are
    given, the batch size in force lies between 1 and 50, and
    [fetchVideoDetails] requests non-empty batches of at most 50 ids that
    are consecutive slices of the input: put end to end they are a prefix
    of the input, and the whole input, each id once and in order, whenever
    the fetch returns rows, which it does when no request throws. *)
Theorem fetchVideoDetails_batches (cfg : Config) (up : Upstream) (ids : list string)
    (w : World) :
  1 <= YT_VIDEOS_BATCH cfg <= 50
  /\ exists batches w' r,
      fetchVideoDetails cfg up ids w = (w', r)
      /\ calls w' = calls w ++ map Call_videos_list batches
      /\ Forall (fun b => (0 < length b <= 50)%nat) batches
      /\ concat batches `prefix_of` ids
      /\ (forall rs, r = Ok rs -> concat batches = ids)
      /\ ((forall b, exists items, videos_list up b = Ok items) ->
          concat batches = ids /\ exists rs, r = Ok rs).
Proof.
  pose proof (YT_VIDEOS_BATCH_range cfg) as HB. split; [done|].
  destruct (fetchLoop_batches up (YT_VIDEOS_BATCH cfg) ids (proj1 HB)
              (length ids) 0%nat [] w)
    as (bs & w' & r & Hrun & Hcalls & _ & _ & Hall & Hpre & Hok & Htot); [lia|].
  exists bs, w', r. unfold fetchVideoDetails. split; [exact Hrun|].
  split; [done|]. split.
  { eapply Forall_impl; [exact Hall|]. cbn. intros b Hb. lia. }
  split; [done|]. split; [done|].
  intros Hnever. destruct (Htot Hnever) as [rs Hr]. split; [|by exists rs].
  by apply (Hok rs).
Qed.

Lemma fetchVideoDetails_batches_witness :
  exists batches w' rs,
    fetchVideoDetails Samples.cfg500 Samples.offline Samples.ids120 Samples.world0
      = (w', Ok rs)
    /\ Forall (fun b => (0 < length b <= 50)%nat) batches
    /\ concat batches = Samples.ids120.
Proof.
  destruct (fetchVideoDetails_batches Samples.cfg500 Samples.offline Samples.ids120
              Samples.world0)
    as (_ & bs & w' & r & Hrun & _ & Hall & _ & _ & Htot).
  destruct Htot as (Hcat & rs & ->).
  { intros b. by exists []. }
  by exists bs, w', rs.
Defined.

(** ** Video feed walker *)

Lemma walkItems_app cap cutoff seen backfill (a b : list PlaylistItem) out :
  walkItems cap cutoff seen backfill (a ++ b) out =
  let '(o, stop) := walkItems cap cutoff seen backfill a out in
  if stop then (o, true) else walkItems cap cutoff seen backfill b o.
Proof.
  revert out. induction a as [|it a IH]; intros out; cbn.
  - by destruct (walkItems cap cutoff seen backfill b out).
  - repeat (case_match; try done); apply IH.
Qed.

Lemma walkItems_cons cap cutoff seen backfill it (rest : list PlaylistItem) out :
  walkItems cap cutoff seen backfill (it :: rest) out =
  match candidateOf it with
  | None => walkItems cap cutoff seen backfill rest out
  | Some c =>
      if negb backfill && truthy seen
         && bool_decide (contentDetails_videoId it = seen) then (out, true)
      else if olderThanCutoff cutoff (contentDetails_videoPublishedAt it)
      then (out, true)
      else if Z.of_nat (length (out ++ [c])) >=? cap then (out ++ [c], true)
      else walkItems cap cutoff seen backfill rest (out ++ [c])
  end.
Proof.
  cbn [walkItems]. unfold candidateOf.
  destruct (contentDetails_videoId it) as [idv|]; [|done].
  by destruct (truthy (Some idv)).
Qed.

Lemma candidatesOf_cons it (items : list PlaylistItem) :
  candidatesOf (it :: items) =
  match candidateOf it with
  | Some c => c :: candidatesOf items
  | None => candidatesOf items
  end.
Proof. reflexivity. Qed.

(** The buffer always is what it was plus the candidates of a prefix of the
    items walked. *)
Lemma walkItems_prefix cap cutoff seen backfill (items : list PlaylistItem) out :
  exists n, (walkItems cap cutoff seen backfill items out).1
            = out ++ candidatesOf (take n items).
Proof.
  revert out. induction items as [|it items IH]; intros out.
  - exists 0%nat. cbn. by rewrite app_nil_r.
  - rewrite walkItems_cons.
    destruct (candidateOf it) as [c|] eqn:Ec.
    + destruct (negb backfill && truthy seen && _).
      { exists 0%nat. cbn. by rewrite app_nil_r. }
      destruct (olderThanCutoff cutoff (contentDetails_videoPublishedAt it)).
      { exists 0%nat. cbn. by rewrite app_nil_r. }
      destruct (Z.of_nat (length (out ++ [c])) >=? cap).
      { exists 1%nat. cbn [take]. rewrite take_0, candidatesOf_cons, Ec. done. }
      destruct (IH (out ++ [c])) as [n Hn].
      exists (S n). rewrite Hn. cbn [take].
      by rewrite candidatesOf_cons, Ec, <- app_assoc.
    + destruct (IH out) as [n Hn]. exists (S n). rewrite Hn. cbn [take].
      by rewrite candidatesOf_cons, Ec.
Qed.

(** Without a cursor or cutoff hit and with room under the cap, every
    candidate is collected. *)
Lemma walkItems_all cap cutoff seen backfill (items : list PlaylistItem) out :
  Forall (fun p => negb backfill && truthy seen
                   && bool_decide (contentDetails_videoId p = seen) = false) items ->
  Forall (fun p => olderThanCutoff cutoff (contentDetails_videoPublishedAt p) = false)
         items ->
  Z.of_nat (length out + length (candidatesOf items)) <= cap ->
  (walkItems cap cutoff seen backfill items out).1 = out ++ candidatesOf items.
Proof.
  revert out. induction items as [|it items IH]; intros out Hseen Hcut Hcap.
  - cbn. by rewrite app_nil_r.
  - inversion Hseen as [|? ? Hs1 Hs2]; inversion Hcut as [|? ? Hc1 Hc2]; subst.
    rewrite walkItems_cons. rewrite candidatesOf_cons in *.
    destruct (candidateOf it) as [c|] eqn:Ec; [|by apply IH].
    rewrite Hs1, Hc1. cbn [length] in Hcap.
    destruct (Z.geb_spec (Z.of_nat (length (out ++ [c]))) cap) as [Hfull|Hroom].
    + rewrite length_app in Hfull. cbn in Hfull.
      assert (Hnone : candidatesOf items = []).
      { apply length_zero_iff_nil. lia. }
      cbn. by rewrite Hnone.
    + rewrite IH; [by rewrite <- app_assoc|done|done|].
      rewrite length_app. cbn. lia.
Qed.

(** At the cap: when no cursor or cutoff is hit and the items hold at least
    as many candidates as the buffer has room for, the walk stops with the
    buffer filled up to the cap. *)
Lemma walkItems_cap cap cutoff seen backfill (items : list PlaylistItem) out :
  Forall (fun p => negb backfill && truthy seen
                   && bool_decide (contentDetails_videoId p = seen) = false) items ->
  Forall (fun p => olderThanCutoff cutoff (contentDetails_videoPublishedAt p) = false)
         items ->
  Z.of_nat (length out) < cap <= Z.of_nat (length out + length (candidatesOf items)) ->
  walkItems cap cutoff seen backfill items out
  = (out ++ take (Z.to_nat cap - length out) (candidatesOf items), true).
Proof.
  revert out. induction items as [|it items IH]; intros out Hseen Hcut Hcap.
  - cbn in Hcap. lia.
  - inversion Hseen as [|? ? Hs1 Hs2]; inversion Hcut as [|? ? Hc1 Hc2]; subst.
    rewrite walkItems_cons. rewrite candidatesOf_cons in *.
    destruct (candidateOf it) as [c|] eqn:Ec; [|by apply IH].
    rewrite Hs1, Hc1. cbn [length] in Hcap.
    destruct (Z.geb_spec (Z.of_nat (length (out ++ [c]))) cap) as [Hfull|Hroom];
      rewrite length_app in *; cbn [length] in *.
    + replace (Z.to_nat cap - length out)%nat with 1%nat by lia.
      cbn. by rewrite take_0.
    + rewrite IH; [|done|done|rewrite length_app; cbn; lia].
      rewrite length_app. cbn [length].
      replace (Z.to_nat cap - length out)%nat
        with (S (Z.to_nat cap - (length out + 1)))%nat by lia.
      cbn. by rewrite <- app_assoc.
Qed.

Lemma walkPages_ok cap cutoff seen backfill uploadsId
    (pages : list (list PlaylistItem)) (page : nat) out (w : World) :
  exists w',
    walkPages cap cutoff seen backfill uploadsId page (map Ok pages) out w
    = (w', Ok (walkItems cap cutoff seen backfill (concat pages) out).1)
    /\ disk w' = disk w /\ writes w' = writes w.
Proof.
  revert page out w. induction pages as [|p ps IH]; intros page out w.
  - exists w. by cbn.
  - cbn [map walkPages concat]. rewrite walkItems_app.
    unfold bind, await.
    destruct (walkItems cap cutoff seen backfill p out) as [o stop].
    destruct stop.
    + eexists. cbn. split; [reflexivity|]. done.
    + destruct (IH (S page) o (logged (Call_playlistItems_list uploadsId page) w))
        as (w' & Hrun & Hd & Hw).
      exists w'. unfold logged in Hrun. by rewrite Hrun.
Qed.

(** On a feed whose pages all arrive, [listNewVideoIds] returns the
    reversed buffer of one walk over the pages put end to end; it writes
    nothing. *)
Lemma listNewVideoIds_ok cfg rt up uploadsId sinceISO cutoff seen backfill
    (pages : list (list PlaylistItem)) (w : World) :
  playlistItems_list up uploadsId = map Ok pages ->
  cutoffOf rt sinceISO = Ok cutoff ->
  exists w',
    listNewVideoIds cfg rt up uploadsId sinceISO seen backfill w
    = (w', Ok (reverse (walkItems (YT_FETCH_MAX_NEW cfg) cutoff seen backfill
                      (concat pages) []).1))
    /\ disk w' = disk w /\ writes w' = writes w.
Proof.
  intros Hfeed Hcut. unfold listNewVideoIds. rewrite Hcut.
  set (pages' := match pages with [] => [[]] | _ => pages end).
  assert (Hpages : feedPages up uploadsId = map Ok pages').
  { unfold feedPages. rewrite Hfeed. unfold pages'. by destruct pages. }
  assert (Hcat : concat pages' = concat pages).
  { unfold pages'. by destruct pages. }
  rewrite Hpages. unfold bind.
  destruct (walkPages_ok (YT_FETCH_MAX_NEW cfg) cutoff seen backfill uploadsId
              pages' 0 [] w) as (w' & Hrun & Hd & Hw).
  rewrite Hrun, Hcat. by exists w'.
Qed.

Lemma candidatesOf_ids (items : list PlaylistItem) (c : Candidate) :
  c ∈ candidatesOf items ->
  exists p, p ∈ items /\ contentDetails_videoId p = Some (cand_id c).
Proof.
  unfold candidatesOf. rewrite list_elem_of_omap. intros (p & Hp & Hc).
  exists p. split; [done|]. unfold candidateOf in Hc.
  destruct (contentDetails_videoId p) as [idv|]; [|done].
  destruct (truthy (Some idv)); [|done]. by injection Hc as <-.
Qed.

Lemma candidatesOf_total (items : list PlaylistItem) :
  Forall (fun p => truthy (contentDetails_videoId p) = true) items ->
  length (candidatesOf items) = length items
  /\ forall i, candidatesOf items !! i = items !! i ≫= candidateOf.
Proof.
  induction items as [|it items IH]; intros Hall; [done|].
  inversion Hall as [|? ? H1 H2]; subst. destruct (IH H2) as [IHl IHi].
  rewrite candidatesOf_cons.
  assert (Hc : exists c, candidateOf it = Some c).
  { unfold candidateOf. destruct (contentDetails_videoId it) as [idv|]; [|done].
    rewrite H1. eauto. }
  destruct Hc as [c Hc]. rewrite Hc. split; [cbn; lia|].
  intros [|i]; cbn; [by rewrite Hc|apply IHi].
Qed.

Lemma candidateOf_truthy (it : PlaylistItem) :
  truthy (contentDetails_videoId it) = bool_decide (is_Some (candidateOf it)).
Proof.
  unfold candidateOf. destruct (contentDetails_videoId it) as [idv|]; [|done].
  by destruct (truthy (Some idv)).
Qed.

(** The buffer after a walk that meets no cursor: the candidates in front
    of the first item older than the cutoff, as far as the cap leaves
    room. *)
Lemma walkItems_exact cap cutoff seen backfill (items : list PlaylistItem) out :
  Forall (fun p => negb backfill && truthy seen
                   && bool_decide (contentDetails_videoId p = seen) = false) items ->
  Z.of_nat (length out) < cap ->
  (walkItems cap cutoff seen backfill items out).1
  = out ++ take (Z.to_nat cap - length out) (candidatesOf (untilOlder cutoff items)).
Proof.
  revert out. induction items as [|it items IH]; intros out Hseen Hcap.
  - cbn. by rewrite take_nil, app_nil_r.
  - inversion Hseen as [|? ? Hs1 Hs2]; subst.
    rewrite walkItems_cons. cbn [untilOlder]. rewrite candidateOf_truthy.
    destruct (candidateOf it) as [c|] eqn:Ec.
    2:{ cbn [andb bool_decide]. rewrite bool_decide_eq_false_2 by (by intros [? ?]).
        cbn [andb]. rewrite candidatesOf_cons, Ec. by apply IH. }
    rewrite Hs1, bool_decide_eq_true_2 by (by eexists). cbn [andb].
    destruct (olderThanCutoff cutoff (contentDetails_videoPublishedAt it)).
    { cbn. by rewrite take_nil, app_nil_r. }
    rewrite candidatesOf_cons, Ec.
    destruct (Z.geb_spec (Z.of_nat (length (out ++ [c]))) cap) as [Hfull|Hroom];
      rewrite length_app in *; cbn [length] in *.
    + replace (Z.to_nat cap - length out)%nat with 1%nat by lia.
      cbn. by rewrite take_0.
    + rewrite IH; [|done|rewrite length_app; cbn; lia].
      rewrite length_app. cbn [length].
      replace (Z.to_nat cap - length out)%nat
        with (S (Z.to_nat cap - (length out + 1)))%nat by lia.
      cbn. by rewrite <- app_assoc.
Qed.

(** C1, as the code has it. In incremental mode, on a feed whose pages all
    arrive and in which the cursor X first occurs right after the items
    [pre], the walk ends at X, at the first item older than the date cutoff
    or when the record cap is reached, whichever comes first: the walker
    returns, oldest first, the candidates among the items of [pre] in front
    of the first one older than the cutoff, and of these the first
    YT_FETCH_MAX_NEW. So it returns only items newer than X, never X itself,
    and nothing that follows an item older than the cutoff. It returns all
    of [pre] (exactly the k-1 items before X when each carries an id)
    provided none of them is older than the cutoff and they do not exceed
    the cap. *)
Theorem listNewVideoIds_cursor_exclusion (cfg : Config) (rt : Runtime) (up : Upstream)
    (uploadsId : string) (sinceISO cutoff : option string) (X : string)
    (pages : list (list PlaylistItem)) (pre : list PlaylistItem) (it : PlaylistItem)
    (post : list PlaylistItem) (w : World) :
  playlistItems_list up uploadsId = map Ok pages ->
  concat pages = pre ++ it :: post ->
  contentDetails_videoId it = Some X -> X <> "" ->
  Forall (fun p => contentDetails_videoId p <> Some X) pre ->
  cutoffOf rt sinceISO = Ok cutoff ->
  exists w' res,
    listNewVideoIds cfg rt up uploadsId sinceISO (Some X) false w = (w', Ok res)
    /\ res = reverse (take (Z.to_nat (YT_FETCH_MAX_NEW cfg))
                        (candidatesOf (untilOlder cutoff pre)))
    /\ (exists n, untilOlder cutoff pre = take n pre
                  /\ Forall (fun p => truthy (contentDetails_videoId p)
                                      && olderThanCutoff cutoff
                                           (contentDetails_videoPublishedAt p) = false)
                            (take n pre)
                  /\ forall p, pre !! n = Some p ->
                       truthy (contentDetails_videoId p) = true
                       /\ olderThanCutoff cutoff (contentDetails_videoPublishedAt p)
                          = true)
    /\ (X ∉ map cand_id res)
    /\ (Forall (fun p => olderThanCutoff cutoff (contentDetails_videoPublishedAt p)
                         = false) pre ->
        Z.of_nat (length (candidatesOf pre)) <= YT_FETCH_MAX_NEW cfg ->
        res = reverse (candidatesOf pre)
        /\ (Forall (fun p => truthy (contentDetails_videoId p) = true) pre ->
            length res = length pre)).
Proof.
  intros Hfeed Hflat HidX HX Hpre Hcut.
  destruct (listNewVideoIds_ok cfg rt up uploadsId sinceISO cutoff (Some X) false
              pages w Hfeed Hcut) as (w' & Hrun & _ & _).
  exists w'. eexists. split; [exact Hrun|].
  assert (Hcap : 1 <= YT_FETCH_MAX_NEW cfg) by (unfold YT_FETCH_MAX_NEW; lia).
  assert (Htruthy : truthy (Some X) = true).
  { cbn. apply negb_true_iff. by apply String.eqb_neq. }
  assert (Hstop : forall o, walkItems (YT_FETCH_MAX_NEW cfg) cutoff (Some X) false
                              (it :: post) o = (o, true)).
  { intros o. rewrite walkItems_cons. unfold candidateOf. rewrite HidX, Htruthy.
    cbn [negb andb]. by rewrite bool_decide_eq_true_2. }
  assert (Hwalk : (walkItems (YT_FETCH_MAX_NEW cfg) cutoff (Some X) false
                     (concat pages) []).1
                  = (walkItems (YT_FETCH_MAX_NEW cfg) cutoff (Some X) false pre []).1).
  { rewrite Hflat, walkItems_app.
    destruct (walkItems (YT_FETCH_MAX_NEW cfg) cutoff (Some X) false pre [])
      as [o stop].
    destruct stop; [done|]. by rewrite Hstop. }
  assert (Hnocursor : Forall (fun p => negb false && truthy (Some X)
                        && bool_decide (contentDetails_videoId p = Some X) = false) pre).
  { eapply Forall_impl; [exact Hpre|]. cbn. intros p Hp.
    rewrite bool_decide_eq_false_2 by done. apply andb_false_r. }
  assert (Hexact : (walkItems (YT_FETCH_MAX_NEW cfg) cutoff (Some X) false pre []).1
                   = take (Z.to_nat (YT_FETCH_MAX_NEW cfg))
                       (candidatesOf (untilOlder cutoff pre))).
  { rewrite walkItems_exact; [|done|cbn; lia]. cbn [app length].
    by rewrite Nat.sub_0_r. }
  rewrite Hwalk. split; [by rewrite Hexact|]. split; [|split].
  - clear. induction pre as [|p pre IH]; cbn [untilOlder].
    + exists 0%nat. split; [done|]. split; [constructor|]. by intros p.
    + destruct (truthy (contentDetails_videoId p)
                && olderThanCutoff cutoff (contentDetails_videoPublishedAt p)) eqn:Ep.
      * exists 0%nat. split; [done|]. split; [constructor|].
        intros p' [= <-]. by apply andb_prop in Ep.
      * destruct IH as (n & Hn & Hall & Hnext). exists (S n). cbn [take].
        split; [by rewrite Hn|]. split; [by constructor|]. exact Hnext.
  - destruct (walkItems_prefix (YT_FETCH_MAX_NEW cfg) cutoff (Some X) false pre [])
      as [n Hn].
    cbn [app] in Hn. rewrite Hn.
    intros Hin. apply list_elem_of_fmap in Hin as (c & -> & Hc).
    rewrite elem_of_reverse in Hc.
    apply candidatesOf_ids in Hc as (p & Hp & Hid).
    apply elem_of_take in Hp as (i & Hp & _).
    rewrite Forall_forall in Hpre.
    apply (Hpre p); [|done]. by eapply list_elem_of_lookup_2.
  - intros Hold Hcount.
    rewrite walkItems_all; cbn [app length]; [| |done|lia].
    + split; [done|]. intros Hids. rewrite length_reverse.
      by apply candidatesOf_total.
    + exact Hnocursor.
Qed.

Lemma listNewVideoIds_cursor_exclusion_witness :
  exists w',
    listNewVideoIds Samples.cfg0 Samples.rt0 (Samples.withFeed Samples.feedABX)
      "UU-uploads" None (Some "x") false Samples.world0
    = (w', Ok [ {| cand_id := "b"; cand_publishedAt := Some "2024-01-15T00:00:00Z" |};
                {| cand_id := "a"; cand_publishedAt := Some "2024-03-01T00:00:00Z" |} ]).
Proof.
  destruct (listNewVideoIds_cursor_exclusion Samples.cfg0 Samples.rt0
              (Samples.withFeed Samples.feedABX) "UU-uploads" None None "x"
              Samples.feedABX
              [Samples.item "a" "2024-03-01T00:00:00Z";
               Samples.item "b" "2024-01-15T00:00:00Z"]
              (Samples.item "x" "2024-01-01T00:00:00Z") [] Samples.world0)
    as (w' & res & Hrun & _ & _ & _ & Hall); try reflexivity.
  { discriminate. }
  { repeat constructor; discriminate. }
  destruct Hall as [-> _].
  { by repeat constructor. }
  { vm_compute. discriminate. }
  by exists w'.
Defined.

(** The sentence as written fails when a cutoff lies between the cursor
    and the newest upload: of the two items before the cursor only the one
    published after [since] is returned. *)
Lemma cursor_exclusion_counterexample : ~ Stated.cursor_exclusion.
Proof.
  intros H.
  destruct (H Samples.cfg0 Samples.rt0 (Samples.withFeed Samples.feedABX)
              "UU-uploads" (Some "2024-02-01T00:00:00Z") "x" Samples.feedABX
              [Samples.item "a" "2024-03-01T00:00:00Z";
               Samples.item "b" "2024-01-15T00:00:00Z"]
              (Samples.item "x" "2024-01-01T00:00:00Z") [] Samples.world0)
    as (w' & Hrun); try reflexivity.
  { discriminate. }
  { repeat constructor; discriminate. }
  { eexists. vm_compute. reflexivity. }
  vm_compute in Hrun. discriminate.
Qed.

(** C4, as the code has it. With the record cap at 100, no cursor and no
    cutoff, a feed of 120 items that all carry an id yields exactly 100
    candidates: the first 100 items of the feed, reversed. The result is
    oldest first, so its first item is the 100th item from the feed's start
    (the one that filled the buffer, which is included) and its 100th item,
    the newest kept, is the first item of the feed. *)
Theorem listNewVideoIds_record_cap (cfg : Config) (rt : Runtime) (up : Upstream)
    (uploadsId : string) (pages : list (list PlaylistItem)) (backfill : bool)
    (w : World) :
  YT_FETCH_MAX_NEW cfg = 100 ->
  playlistItems_list up uploadsId = map Ok pages ->
  length (concat pages) = 120%nat ->
  Forall (fun p => truthy (contentDetails_videoId p) = true) (concat pages) ->
  exists w' res,
    listNewVideoIds cfg rt up uploadsId None None backfill w = (w', Ok res)
    /\ length res = 100%nat
    /\ res = reverse (candidatesOf (take 100 (concat pages)))
    /\ res !! 0%nat = concat pages !! 99%nat ≫= candidateOf
    /\ res !! 99%nat = concat pages !! 0%nat ≫= candidateOf.
Proof.
  intros Hcap Hfeed Hlen Hids.
  destruct (listNewVideoIds_ok cfg rt up uploadsId None None None backfill
              pages w Hfeed eq_refl) as (w' & Hrun & _ & _).
  exists w'. eexists. split; [exact Hrun|]. rewrite Hcap.
  set (flat := concat pages) in *.
  destruct (candidatesOf_total flat Hids) as [Hclen Hci].
  assert (Htake : candidatesOf (take 100 flat) = take 100 (candidatesOf flat)).
  { apply list_eq. intros i.
    destruct (candidatesOf_total (take 100 flat)) as [_ Hti].
    { by apply Forall_take. }
    rewrite Hti. destruct (Nat.lt_ge_cases i 100) as [Hi|Hi].
    - by rewrite !lookup_take_lt, Hci by done.
    - by rewrite !lookup_take_ge by done. }
  rewrite walkItems_cap; cbn [app length fst].
  2:{ apply Forall_forall. intros p _. by rewrite andb_false_r. }
  2:{ by apply Forall_forall. }
  2:{ lia. }
  replace (Z.to_nat 100 - 0)%nat with 100%nat by lia.
  rewrite <- Htake.
  assert (Hl : length (candidatesOf (take 100 flat)) = 100%nat).
  { rewrite Htake, length_take. lia. }
  split; [by rewrite length_reverse|]. split; [done|]. split.
  - rewrite reverse_lookup by lia. rewrite Hl, Htake.
    by rewrite lookup_take_lt, Hci by lia.
  - rewrite reverse_lookup by lia. rewrite Hl, Htake.
    by rewrite lookup_take_lt, Hci by lia.
Qed.

Lemma listNewVideoIds_record_cap_witness :
  exists w' res,
    listNewVideoIds Samples.cfg100 Samples.rt0 (Samples.withFeed Samples.feed120)
      "UU-uploads" None None false Samples.world0 = (w', Ok res)
    /\ length res = 100%nat
    /\ res !! 0%nat = Some {| cand_id := "v99";
                             cand_publishedAt := Some "2024-01-01T00:00:00Z" |}
    /\ res !! 99%nat = Some {| cand_id := "v0";
                              cand_publishedAt := Some "2024-01-01T00:00:00Z" |}.
Proof.
  destruct (listNewVideoIds_record_cap Samples.cfg100 Samples.rt0
              (Samples.withFeed Samples.feed120) "UU-uploads" Samples.feed120
              false Samples.world0)
    as (w' & res & Hrun & Hlen & _ & H0 & H99); try reflexivity.
  { apply Forall_forall. intros p Hp. vm_compute in Hp.
    repeat (apply list_elem_of_In in Hp; destruct Hp as [<-|Hp];
            [reflexivity|apply list_elem_of_In in Hp]).
    by apply elem_of_nil in Hp. }
  exists w', res. split; [exact Hrun|]. split; [exact Hlen|].
  split; [by rewrite H0|by rewrite H99].
Defined.

(** The sentence as written fails on every feed of distinct items: the
    100th item of the result is the newest upload, the feed's first item,
    not its 100th. *)
Lemma record_cap_100th_counterexample : ~ Stated.record_cap_100th.
Proof.
  intros H.
  destruct (H Samples.cfg100 Samples.rt0 (Samples.withFeed Samples.feed120)
              "UU-uploads" Samples.feed120 false Samples.world0)
    as (w' & res & Hrun & _ & H99); try reflexivity.
  { apply Forall_forall. intros p Hp. vm_compute in Hp.
    repeat (apply list_elem_of_In in Hp; destruct Hp as [<-|Hp];
            [reflexivity|apply list_elem_of_In in Hp]).
    by apply elem_of_nil in Hp. }
  vm_compute in Hrun. injection Hrun as _ <-.
  vm_compute in H99. discriminate.
Qed.

(** ** Sorting *)

Section JsSort.
Context {A : Type} (cmp : A -> A -> comparison).

Lemma insertSorted_Permutation (x : A) (l : list A) :
  insertSorted cmp x l ≡ₚ x :: l.
Proof.
  induction l as [|y l IH]; [done|]. cbn.
  destruct (cmp x y); try done.
  rewrite IH. apply Permutation_swap.
Qed.

Lemma jsSort_Permutation (l : list A) : jsSort cmp l ≡ₚ l.
Proof.
  induction l as [|x l IH]; [done|]. cbn.
  by rewrite insertSorted_Permutation, IH.
Qed.

Lemma insertSorted_sorted (x : A) (l : list A) :
  consistent cmp ->
  StronglySorted (notAfter cmp) l -> StronglySorted (notAfter cmp) (insertSorted cmp x l).
Proof.
  intros [Htotal Htrans]. induction l as [|y l IH]; intros Hs; cbn.
  - by repeat constructor.
  - apply StronglySorted_inv in Hs as [Hs Hy].
    destruct (cmp x y) eqn:E.
    + constructor; [by constructor|]. constructor; [unfold notAfter; congruence|].
      eapply Forall_impl; [exact Hy|]. intros z Hz.
      apply (Htrans x y z); [unfold notAfter; congruence|done].
    + constructor; [by constructor|]. constructor; [unfold notAfter; congruence|].
      eapply Forall_impl; [exact Hy|]. intros z Hz.
      apply (Htrans x y z); [unfold notAfter; congruence|done].
    + constructor; [by apply IH|].
      rewrite insertSorted_Permutation. constructor; [by apply Htotal|done].
Qed.

Lemma jsSort_sorted (l : list A) :
  consistent cmp -> StronglySorted (notAfter cmp) (jsSort cmp l).
Proof.
  intros Hc. induction l as [|x l IH]; cbn; [constructor|].
  by apply insertSorted_sorted.
Qed.

(** Stability: the elements of one key keep their order. *)
Lemma jsSort_stable {K} `{EqDecision K} (key : A -> K) (k : K) (l : list A) :
  (forall a b, key a = key b -> cmp a b <> Gt) ->
  filter (fun a => key a = k) (jsSort cmp l) = filter (fun a => key a = k) l.
Proof.
  intros Hkey.
  assert (Hins : forall x l', filter (fun a => key a = k) (insertSorted cmp x l')
                              = filter (fun a => key a = k) (x :: l')).
  { intros x l'. induction l' as [|y l' IH]; [done|]. cbn [insertSorted].
    destruct (cmp x y) eqn:E; try done.
    assert (Hne : key x <> key y) by (intros Heq; by apply (Hkey x y Heq)).
    rewrite filter_cons, IH, !filter_cons.
    repeat case_decide; congruence. }
  induction l as [|x l IH]; [done|]. cbn [jsSort foldr].
  rewrite Hins, !filter_cons. fold (jsSort cmp l). by rewrite IH.
Qed.

End JsSort.

(** ** Day buckets *)

Lemma countDay_fold (rs : list VideoRecord) (m0 : gmap string Z) (d : string) :
  fold_left countDay rs m0 !! d =
  let n := length (filter (fun v => dayOf v = d) rs) in
  if (n =? 0)%nat then m0 !! d else Some (default 0 (m0 !! d) + Z.of_nat n).
Proof.
  revert m0. induction rs as [|v rs IH]; intros m0; [done|].
  cbn [fold_left]. rewrite IH, filter_cons. unfold countDay. fold (dayOf v).
  destruct (decide (dayOf v = d)) as [->|Hne].
  - rewrite lookup_insert_eq. cbn [length default].
    destruct (length (filter (fun v0 => dayOf v0 = d) rs)) as [|n]; cbn;
      f_equal; lia.
  - by rewrite lookup_insert_ne.
Qed.

Lemma sumCounts_insert (m : gmap string Z) (d : string) (n : Z) :
  sumCounts (<[d := n]> m) = sumCounts m - default 0 (m !! d) + n.
Proof.
  unfold sumCounts.
  assert (Hcomm : forall (j1 j2 : string) (z1 z2 y : Z),
            z1 + (z2 + y) = z2 + (z1 + y)) by (intros; lia).
  destruct (m !! d) as [x|] eqn:E; cbn.
  - rewrite <- insert_delete_eq.
    rewrite map_fold_insert_L; [|by intros; apply Hcomm|apply lookup_delete_eq].
    rewrite (map_fold_delete_L _ 0 d x m); [lia|by intros; apply Hcomm|done].
  - rewrite map_fold_insert_L; [lia|by intros; apply Hcomm|done].
Qed.

Lemma sumCounts_fold (rs : list VideoRecord) (m0 : gmap string Z) :
  sumCounts (fold_left countDay rs m0) = sumCounts m0 + Z.of_nat (length rs).
Proof.
  revert m0. induction rs as [|v rs IH]; intros m0; cbn [fold_left length].
  - lia.
  - rewrite IH. unfold countDay. rewrite sumCounts_insert. lia.
Qed.

(** ** Metrics *)

Lemma StronglySorted_weaken {A} (R R' : A -> A -> Prop) (l : list A) :
  (forall a b, R a b -> R' a b) -> StronglySorted R l -> StronglySorted R' l.
Proof.
  intros HR. induction 1 as [|x l Hs IH Hx]; constructor; [done|].
  eapply Forall_impl; [exact Hx|]. intros y. apply HR.
Qed.

Lemma byViewsDesc_consistent : consistent byViewsDesc.
Proof.
  unfold consistent, notAfter, byViewsDesc. split.
  - intros a b. rewrite !Z.compare_gt_iff. lia.
  - intros a b c. rewrite !Z.compare_le_iff. lia.
Qed.

Lemma byPublishedAt_consistent (rt : Runtime) :
  consistent (localeCompare rt) -> consistent (byPublishedAt rt).
Proof.
  unfold consistent, notAfter, byPublishedAt. intros [Ht Hr]. split.
  - intros a b. apply Ht.
  - intros a b c. apply Hr.
Qed.

Lemma String_compare_consistent : consistent String.compare.
Proof.
  unfold consistent, notAfter. split.
  - intros a b H. pose proof (String_as_OT.cmp_antisym b a) as Ha.
    unfold String_as_OT.cmp in Ha. by rewrite Ha, H.
  - intros a b c Hab Hbc.
    destruct (String.compare a b) eqn:Eab; [| |done].
    + apply String_as_OT.cmp_eq in Eab as ->. done.
    + destruct (String.compare b c) eqn:Ebc; [| |done].
      * apply String_as_OT.cmp_eq in Ebc as <-. by rewrite Eab.
      * apply String_as_OT.cmp_lt in Eab, Ebc.
        pose proof (String_as_OT.lt_trans _ _ _ Eab Ebc) as Hac.
        apply String_as_OT.cmp_lt in Hac. unfold String_as_OT.cmp in Hac.
        by rewrite Hac.
Qed.

(** What the filter, sort, bucket and top steps compute, for any cutoff. *)
Lemma metricsOfRows_Ok (rt : Runtime) (cutoff : option Z) (stored : list VideoRecord)
    (m : Metrics) :
  metricsOfRows rt cutoff stored = Ok m ->
  rows m ≡ₚ filter (fun v => isAfter (publishedInstant rt v) cutoff = true) stored
  /\ (consistent (localeCompare rt) ->
      StronglySorted (notAfter (byPublishedAt rt)) (rows m))
  /\ (forall d, byDay m !! d =
        let n := length (filter (fun v => dayOf v = d) (rows m)) in
        if (n =? 0)%nat then None else Some (Z.of_nat n))
  /\ sumCounts (byDay m) = total m
  /\ (exists ranked,
        top m = take 10 ranked
        /\ ranked ≡ₚ rows m
        /\ StronglySorted (fun a b => views b <= views a) ranked
        /\ forall n, filter (fun v => views v = n) ranked
                     = filter (fun v => views v = n) (rows m))
  /\ total m = Z.of_nat (length (rows m))
  /\ (forall v, isAfter (publishedInstant rt v) cutoff = false ->
        (v ∉ rows m) /\ (v ∉ top m)).
Proof.
  unfold metricsOfRows.
  set (kept := filter (fun v => isAfter _ _ = true) stored).
  destruct (forallb (fun v => bool_decide (is_Some (publishedAt v))) kept); [|done].
  intros [= <-]. cbn [rows byDay top total].
  assert (Hperm : jsSort (byPublishedAt rt) kept ≡ₚ kept) by apply jsSort_Permutation.
  assert (Hout : forall v, isAfter (publishedInstant rt v) cutoff = false ->
                           v ∉ jsSort (byPublishedAt rt) kept).
  { intros v Hv Hin. rewrite Hperm in Hin.
    apply list_elem_of_filter in Hin as [Hin _]. congruence. }
  split; [exact Hperm|]. split.
  { intros Hc. by apply jsSort_sorted, byPublishedAt_consistent. }
  split.
  { intros d. rewrite countDay_fold, lookup_empty. cbn zeta. cbn [default].
    by rewrite Z.add_0_l. }
  split.
  { rewrite sumCounts_fold. unfold sumCounts. rewrite map_fold_empty. lia. }
  split.
  { exists (jsSort byViewsDesc (jsSort (byPublishedAt rt) kept)).
    split; [done|]. split; [apply jsSort_Permutation|]. split.
    - eapply StronglySorted_weaken;
        [|apply jsSort_sorted, byViewsDesc_consistent].
      intros a b. unfold notAfter, byViewsDesc. by rewrite Z.compare_le_iff.
    - intros n. apply jsSort_stable. intros a b Hab.
      unfold byViewsDesc. rewrite Hab, Z.compare_refl. done. }
  split; [done|].
  intros v Hv. split; [by apply Hout|].
  intros Hin. apply elem_of_take in Hin as (i & Hin & _).
  apply list_elem_of_lookup_2 in Hin. rewrite jsSort_Permutation in Hin.
  by apply (Hout v).
Qed.

(** Rows that all carry [publishedAt] raise nothing. *)
Lemma metricsOfRows_dated (rt : Runtime) (cutoff : option Z)
    (stored : list VideoRecord) :
  Forall (fun v => is_Some (publishedAt v)) stored ->
  exists m, metricsOfRows rt cutoff stored = Ok m.
Proof.
  intros Hall. unfold metricsOfRows.
  set (kept := filter (fun v => isAfter _ _ = true) stored).
  assert (Hkept : forallb (fun v => bool_decide (is_Some (publishedAt v))) kept = true).
  { apply forallb_forall. intros v Hv. apply bool_decide_eq_true_2.
    apply list_elem_of_In in Hv. apply list_elem_of_filter in Hv as [_ Hv].
    rewrite Forall_forall in Hall. by apply Hall. }
  rewrite Hkept. by eexists.
Qed.

(** C5, as the code has it. For a stored channel whose rows all carry
    [publishedAt] and for every [days], the metrics are computed without
    error and
    - [rows] are exactly the stored rows published strictly after the
      window start, which is the start of the day that lies [days] days
      before now (there is no upper bound); when that date is invalid
      ([days] is no number, or the date leaves the range of [Date]) no row
      is after it and [rows] is empty; [rows] is sorted ascending by
      [publishedAt] when [localeCompare] orders;
    - [byDay] maps each first-ten-characters date of a row to the number of
      rows of that date, and to nothing else; the counts add up to [total];
    - [top] is the first 10 of the rows ranked by descending [views], rows
      of equal views keeping their order in [rows];
    - [total] is the number of [rows];
    - a row that fails the filter is in neither [rows] nor [top]. *)
Theorem makeMetricsFromChannel_metrics (rt : Runtime) (db : DB) (cid : string)
    (days : JsNumber) (ch : ChannelState) :
  channels db !! cid = Some ch ->
  Forall (fun v => is_Some (publishedAt v)) (map snd (videos ch)) ->
  exists m,
    makeMetricsFromChannel rt db cid days = Ok m
    /\ rows m ≡ₚ filter (fun v => inWindow rt days v = true) (map snd (videos ch))
    /\ (forall v, inWindow rt days v = true <->
          exists n back start t,
            days = JsInt n
            /\ subtractDays rt (now rt) n = Some back
            /\ startOfDay rt back = Some start
            /\ publishedInstant rt v = Some t
            /\ start < t)
    /\ (windowStart rt days = None -> rows m = [] /\ total m = 0)
    /\ (consistent (localeCompare rt) ->
        StronglySorted (notAfter (byPublishedAt rt)) (rows m))
    /\ (forall d, byDay m !! d =
          let n := length (filter (fun v => dayOf v = d) (rows m)) in
          if (n =? 0)%nat then None else Some (Z.of_nat n))
    /\ sumCounts (byDay m) = total m
    /\ (exists ranked,
          top m = take 10 ranked
          /\ ranked ≡ₚ rows m
          /\ StronglySorted (fun a b => views b <= views a) ranked
          /\ forall n, filter (fun v => views v = n) ranked
                       = filter (fun v => views v = n) (rows m))
    /\ total m = Z.of_nat (length (rows m))
    /\ (forall v, inWindow rt days v = false -> (v ∉ rows m) /\ (v ∉ top m)).
Proof.
  intros Hch Hall. unfold makeMetricsFromChannel. rewrite Hch.
  destruct (metricsOfRows_dated rt (windowStart rt days) (map snd (videos ch)) Hall)
    as [m Hm].
  destruct (metricsOfRows_Ok rt _ _ m Hm)
    as (Hperm & Hsorted & Hday & Hsum & Htop & Htotal & Hout).
  exists m. split; [exact Hm|]. split; [exact Hperm|]. split.
  { intros v. unfold inWindow, isAfter, windowStart. split.
    - destruct (publishedInstant rt v) as [t|]; [|done].
      destruct days as [n|]; [|done].
      destruct (subtractDays rt (now rt) n) as [back|] eqn:Eb; [|done]. cbn.
      destruct (startOfDay rt back) as [start|] eqn:Es; [|done].
      intros Ht. exists n, back, start, t.
      split; [done|]. split; [done|]. split; [done|]. split; [done|].
      by apply Z.ltb_lt.
    - intros (n & back & start & t & -> & Hb & Hs & -> & Ht).
      rewrite Hb. cbn. rewrite Hs. by apply Z.ltb_lt. }
  split.
  { intros Hnone.
    assert (Hrows : rows m = []).
    { apply Permutation_nil_r. rewrite Hperm. unfold inWindow. rewrite Hnone.
      clear. induction (map snd (videos ch)) as [|v l IH]; [done|].
      rewrite filter_cons. unfold isAfter at 1.
      destruct (publishedInstant rt v); by rewrite decide_False. }
    split; [done|]. by rewrite Htotal, Hrows. }
  split; [exact Hsorted|]. split; [exact Hday|]. split; [exact Hsum|].
  split; [exact Htop|]. split; [exact Htotal|]. exact Hout.
Qed.

Lemma makeMetricsFromChannel_metrics_witness :
  exists m,
    makeMetricsFromChannel Samples.rt0 Samples.db3 Samples.canonicalId (JsInt 1) = Ok m
    /\ StronglySorted (notAfter (byPublishedAt Samples.rt0)) (rows m)
    /\ sumCounts (byDay m) = total m.
Proof.
  destruct (makeMetricsFromChannel_metrics Samples.rt0 Samples.db3
              Samples.canonicalId (JsInt 1)
              (default newChannel (channels Samples.db3 !! Samples.canonicalId)))
    as (m & Hrun & _ & _ & _ & Hsorted & _ & Hsum & _).
  { vm_compute. reflexivity. }
  { vm_compute. repeat constructor; by eexists. }
  exists m. split; [exact Hrun|]. split; [|exact Hsum].
  apply Hsorted. apply String_compare_consistent.
Defined.

(** The sentence as written fails on a row published on the first day of
    the window but more than [days] days ago: at noon of 2024-03-10 with
    [days = 1], a row published at 06:00 on 2024-03-09 lies outside
    [now - days, now) and is in [rows]. *)
Lemma metrics_window_counterexample : ~ Stated.metrics_window.
Proof.
  intros H.
  assert (Hrun : exists m,
             makeMetricsFromChannel Samples.rt0 Samples.db3 Samples.canonicalId
               (JsInt 1) = Ok m
             /\ Samples.row "early" "2024-03-09T06:00:00Z" 5 ∈ rows m).
  { eexists. split; [vm_compute; reflexivity|]. apply list_elem_of_here. }
  destruct Hrun as (m & Hrun & Hin).
  refine (H Samples.rt0 Samples.db3 Samples.canonicalId 1 _ m
            (Samples.row "early" "2024-03-09T06:00:00Z" 5)
            "2024-03-09T06:00:00Z" _ _ _ Hrun eq_refl _ _ _ Hin).
  - vm_compute. reflexivity.
  - vm_compute. reflexivity.
  - vm_compute. reflexivity.
  - vm_compute. intros [H1 _]. by apply H1.
Qed.

(** Two hundred million days back there is no date: the window start is
    invalid and no row is kept. *)
Example metrics_without_window :
  makeMetricsFromChannel Samples.rt0 Samples.db3 Samples.canonicalId
    (JsInt 200000000) = Ok emptyMetrics
  /\ makeMetricsFromChannel Samples.rt0 Samples.db3 Samples.canonicalId JsNaN
     = Ok emptyMetrics.
Proof. split; vm_compute; reflexivity. Qed.

(** ** Computations that only call upstream *)

Lemma extend_extend (w : World) (a b : list Call) :
  extend (extend w a) b = extend w (a ++ b).
Proof. unfold extend. cbn. by rewrite app_assoc. Qed.

Lemma extend_nil (w : World) : extend w [] = w.
Proof. destruct w. unfold extend. cbn. by rewrite app_nil_r. Qed.

Lemma io_ret {A} (a : A) : io_only (ret a) (Ok a).
Proof. intros w. exists []. by rewrite extend_nil. Qed.

Lemma io_throw {A} (e : string) : io_only (@throw A e) (Throw e).
Proof. intros w. exists []. by rewrite extend_nil. Qed.

Lemma io_await {A} (c : Call) (r : result A) : io_only (await c r) r.
Proof. intros w. by exists [c]. Qed.

Lemma io_bind_ok {A B} (m : M A) (k : A -> M B) (a : A) (r : result B) :
  io_only m (Ok a) -> io_only (k a) r -> io_only (bind m k) r.
Proof.
  intros Hm Hk w. destruct (Hm w) as [cs1 H1].
  destruct (Hk (extend w cs1)) as [cs2 H2].
  exists (cs1 ++ cs2). unfold bind. by rewrite H1, H2, extend_extend.
Qed.

Lemma io_bind_throw {A B} (m : M A) (k : A -> M B) (e : string) :
  io_only m (Throw e) -> io_only (bind m k) (Throw e).
Proof.
  intros Hm w. destruct (Hm w) as [cs1 H1]. exists cs1. unfold bind. by rewrite H1.
Qed.

Lemma io_bind {A B} (m : M A) (k : A -> M B) :
  (exists r, io_only m r) -> (forall a, exists r, io_only (k a) r) ->
  exists r, io_only (bind m k) r.
Proof.
  intros [[a|e] Hm] Hk.
  - destruct (Hk a) as [r Hr]. exists r. by eapply io_bind_ok.
  - exists (Throw e). by apply io_bind_throw.
Qed.

Lemma io_tryCatch {A} (m : M A) (h : string -> M A) :
  (exists r, io_only m r) -> (forall e, exists r, io_only (h e) r) ->
  exists r, io_only (tryCatch m h) r.
Proof.
  intros [[a|e] Hm] Hh.
  - exists (Ok a). intros w. destruct (Hm w) as [cs H]. exists cs.
    unfold tryCatch. by rewrite H.
  - destruct (Hh e) as [r Hr]. exists r. intros w.
    destruct (Hm w) as [cs1 H1]. destruct (Hr (extend w cs1)) as [cs2 H2].
    exists (cs1 ++ cs2). unfold tryCatch. by rewrite H1, H2, extend_extend.
Qed.

Lemma io_resolveToChannelId up h : exists r, io_only (resolveToChannelId up h) r.
Proof.
  unfold resolveToChannelId. destruct (isCanonicalChannelId h).
  - eexists. apply io_ret.
  - apply io_bind; [eexists; apply io_await|].
    intros items. destruct (firstChannelId items); eexists;
      [apply io_ret|apply io_throw].
Qed.

Lemma io_channelIdOrResolve up c h : exists r, io_only (channelIdOrResolve up c h) r.
Proof.
  unfold channelIdOrResolve. destruct (truthy c); [eexists; apply io_ret|].
  destruct h as [hs|]; [|eexists; apply io_ret].
  destruct (truthy (Some hs)); [|eexists; apply io_ret].
  apply io_bind; [apply io_resolveToChannelId|].
  intros a. eexists. apply io_ret.
Qed.

Lemma io_getUploadsPlaylistId up cid : exists r, io_only (getUploadsPlaylistId up cid) r.
Proof.
  unfold getUploadsPlaylistId. apply io_bind; [eexists; apply io_await|].
  intros item. destruct (item ≫= ci_uploads) as [u|]; [|eexists; apply io_throw].
  destruct (truthy (Some u)); eexists; [apply io_ret|apply io_throw].
Qed.

Lemma io_fetchChannelMeta rt up cid : exists r, io_only (fetchChannelMeta rt up cid) r.
Proof.
  unfold fetchChannelMeta. apply io_bind; [eexists; apply io_await|].
  intros [it|]; eexists; [apply io_ret|apply io_throw].
Qed.

Lemma io_walkPages cap cutoff seen backfill uploadsId pages page out :
  exists r, io_only (walkPages cap cutoff seen backfill uploadsId page pages out) r.
Proof.
  revert page out. induction pages as [|p ps IH]; intros page out; cbn [walkPages].
  - eexists. apply io_ret.
  - apply io_bind; [eexists; apply io_await|].
    intros items. destruct (walkItems cap cutoff seen backfill items out) as [o stop].
    destruct stop; [eexists; apply io_ret|apply IH].
Qed.

Lemma io_listNewVideoIds cfg rt up uploadsId sinceISO seen backfill :
  exists r, io_only (listNewVideoIds cfg rt up uploadsId sinceISO seen backfill) r.
Proof.
  unfold listNewVideoIds. destruct (cutoffOf rt sinceISO); [|eexists; apply io_throw].
  apply io_bind; [apply io_walkPages|]. intros out. eexists. apply io_ret.
Qed.

Lemma io_fetchLoop fuel up B ids i rs :
  exists r, io_only (fetchLoop fuel up B ids i rs) r.
Proof.
  revert i rs. induction fuel as [|fuel IH]; intros i rs; rewrite fetchLoop_unfold;
    destruct (i <? Z.of_nat (length ids)); try (eexists; apply io_ret).
  apply io_bind; [eexists; apply io_await|]. intros items. apply IH.
Qed.

Lemma io_fetchVideoDetails cfg up ids : exists r, io_only (fetchVideoDetails cfg up ids) r.
Proof. apply io_fetchLoop. Qed.

Lemma io_only_unique {A} (m : M A) (r1 r2 : result A) :
  io_only m r1 -> io_only m r2 -> r1 = r2.
Proof.
  intros H1 H2. destruct (H1 Samples.world0) as [cs1 E1].
  destruct (H2 Samples.world0) as [cs2 E2]. congruence.
Qed.

Lemma saves_bind {A B} (m : M A) (k : A -> M B) (a : A) (d : DB) (r : result B) :
  io_only m (Ok a) -> saves (k a) d r -> saves (bind m k) d r.
Proof.
  intros Hm Hk w. destruct (Hm w) as [cs1 H1].
  destruct (Hk (extend w cs1)) as [cs2 H2].
  exists (cs1 ++ cs2). unfold bind. rewrite H1, H2. cbn. by rewrite app_assoc.
Qed.

Lemma saves_saveDB {A} (d : DB) (x : A) :
  saves (let! _ := saveDB d in ret x) d (Ok x).
Proof. intros w. exists []. unfold bind, saveDB, ret. cbn. by rewrite app_nil_r. Qed.

(** ** A second walk, from the cursor the first one set *)

Lemma candidateOf_Some (it : PlaylistItem) (c : Candidate) :
  candidateOf it = Some c ->
  contentDetails_videoId it = Some (cand_id c) /\ truthy (Some (cand_id c)) = true.
Proof.
  unfold candidateOf. destruct (contentDetails_videoId it) as [idv|]; [|done].
  destruct (truthy (Some idv)) eqn:E; [|done]. by intros [= <-].
Qed.

(** A walk from an empty buffer either collects nothing, and then without
    stopping only if the items hold no candidate, or its first candidate
    stops any incremental walk whose cursor it is. *)
Lemma walkItems_again cap cutoff seen backfill (items : list PlaylistItem) o stop :
  walkItems cap cutoff seen backfill items [] = (o, stop) ->
  (o = [] /\ (stop = false -> forall cap' cutoff' seen' backfill' out,
                walkItems cap' cutoff' seen' backfill' items out = (out, false)))
  \/ (exists c o', o = c :: o' /\ forall cap' cutoff' out,
        walkItems cap' cutoff' (Some (cand_id c)) false items out = (out, true)).
Proof.
  induction items as [|it items IH].
  - cbn. intros Heq; simplify_eq. left. done.
  - rewrite walkItems_cons. destruct (candidateOf it) as [c|] eqn:Ec.
    + assert (Hagain : forall cap' cutoff' out,
                walkItems cap' cutoff' (Some (cand_id c)) false (it :: items) out
                = (out, true)).
      { intros. rewrite walkItems_cons, Ec.
        destruct (candidateOf_Some it c Ec) as [Hid Ht].
        by rewrite Hid, Ht, bool_decide_eq_true_2. }
      destruct (negb backfill && truthy seen && _).
      { intros Heq; simplify_eq. left. done. }
      destruct (olderThanCutoff cutoff (contentDetails_videoPublishedAt it)).
      { intros Heq; simplify_eq. left. done. }
      destruct (Z.of_nat (length ([] ++ [c])) >=? cap).
      { intros Heq; simplify_eq. right. by exists c, []. }
      intros Hrun.
      destruct (walkItems_prefix cap cutoff seen backfill items ([] ++ [c])) as [n Hn].
      rewrite Hrun in Hn. cbn in Hn. right. eauto.
    + intros Hrun. destruct (IH Hrun) as [[-> Hnone]|(c & o' & -> & Hagain)].
      * left. split; [done|]. intros Hs **. rewrite walkItems_cons, Ec. by apply Hnone.
      * right. exists c, o'. split; [done|]. intros. rewrite walkItems_cons, Ec.
        apply Hagain.
Qed.

Lemma walkPages_extends cap cutoff seen backfill uploadsId pages page out w w' o :
  walkPages cap cutoff seen backfill uploadsId page pages out w = (w', Ok o) ->
  exists suffix, o = out ++ suffix.
Proof.
  revert page out w. induction pages as [|r ps IH]; intros page out w; cbn [walkPages].
  - unfold ret. intros Heq; simplify_eq. exists []. by rewrite app_nil_r.
  - unfold bind, await. destruct r as [items|e]; [|done].
    destruct (walkItems_prefix cap cutoff seen backfill items out) as [n Hn].
    destruct (walkItems cap cutoff seen backfill items out) as [o1 stop].
    cbn in Hn. subst o1. destruct stop.
    + unfold ret. intros Heq; simplify_eq. eauto.
    + intros Hrun. apply IH in Hrun as [suffix ->].
      rewrite <- app_assoc. eauto.
Qed.

Lemma walkPages_again cap cutoff seen backfill uploadsId pages page w w' c o' :
  walkPages cap cutoff seen backfill uploadsId page pages [] w = (w', Ok (c :: o')) ->
  forall cap' cutoff',
    io_only (walkPages cap' cutoff' (Some (cand_id c)) false uploadsId page pages [])
            (Ok []).
Proof.
  revert page w. induction pages as [|r ps IH]; intros page w; cbn [walkPages].
  - discriminate.
  - unfold bind at 1, await at 1. destruct r as [items|e]; [|done].
    destruct (walkItems cap cutoff seen backfill items []) as [o1 stop] eqn:E1.
    unfold ret at 1. intros Hrun cap' cutoff'.
    eapply io_bind_ok; [apply io_await|].
    destruct (walkItems_again _ _ _ _ _ _ _ E1)
      as [[-> Hnone]|(c1 & o1' & -> & Hagain)].
    + destruct stop; [discriminate|]. rewrite Hnone by done.
      by eapply IH.
    + assert (c1 = c) as ->.
      { destruct stop.
        - by simplify_eq.
        - apply walkPages_extends in Hrun as [suffix Hs]. by injection Hs as ->. }
      rewrite Hagain. apply io_ret.
Qed.

(** After an incremental or backfill walk returned candidates, the
    incremental walk from the newest of them returns none. *)
Lemma listNewVideoIds_again cfg rt up uploadsId sinceISO seen backfill w w' newList c :
  listNewVideoIds cfg rt up uploadsId sinceISO seen backfill w = (w', Ok newList) ->
  last newList = Some c ->
  io_only (listNewVideoIds cfg rt up uploadsId sinceISO (Some (cand_id c)) false)
          (Ok []).
Proof.
  unfold listNewVideoIds. destruct (cutoffOf rt sinceISO) as [cutoff|e]; [|done].
  unfold bind at 1.
  destruct (walkPages _ _ _ _ _ _ _ _ w) as [w1 [out|e]] eqn:Hrun; [|done].
  unfold ret at 1. intros Heq Hlast; simplify_eq. rewrite last_reverse in Hlast.
  destruct out as [|c1 o']; [done|]. injection Hlast as ->.
  eapply io_bind_ok; [by eapply walkPages_again|].
  apply io_ret.
Qed.

(** ** Ingestion *)

Lemma walkPages_truthy cap cutoff seen backfill uploadsId pages page out w w' o :
  walkPages cap cutoff seen backfill uploadsId page pages out w = (w', Ok o) ->
  Forall (fun c => truthy (Some (cand_id c)) = true) out ->
  Forall (fun c => truthy (Some (cand_id c)) = true) o.
Proof.
  revert page out w. induction pages as [|r ps IH]; intros page out w; cbn [walkPages].
  - unfold ret. intros Heq; by simplify_eq.
  - unfold bind, await. destruct r as [items|e]; [|done].
    destruct (walkItems_prefix cap cutoff seen backfill items out) as [n Hn].
    destruct (walkItems cap cutoff seen backfill items out) as [o1 stop].
    cbn in Hn. subst o1. intros Hrun Hout.
    assert (Hnext : Forall (fun c => truthy (Some (cand_id c)) = true)
                      (out ++ candidatesOf (take n items))).
    { apply Forall_app. split; [done|]. apply Forall_forall. intros c Hc.
      unfold candidatesOf in Hc. apply list_elem_of_omap in Hc as (p & _ & Hc).
      by apply candidateOf_Some in Hc as [_ Ht]. }
    destruct stop.
    + unfold ret in Hrun. by simplify_eq.
    + by eapply IH.
Qed.

Lemma listNewVideoIds_truthy cfg rt up uploadsId sinceISO seen backfill w w' newList :
  listNewVideoIds cfg rt up uploadsId sinceISO seen backfill w = (w', Ok newList) ->
  Forall (fun c => truthy (Some (cand_id c)) = true) newList.
Proof.
  unfold listNewVideoIds. destruct (cutoffOf rt sinceISO) as [cutoff|e]; [|done].
  unfold bind.
  destruct (walkPages _ _ _ _ _ _ _ _ w) as [w1 [out|e]] eqn:Hrun; [|done].
  unfold ret. intros Heq; simplify_eq.
  apply Forall_reverse. eapply walkPages_truthy; [exact Hrun|constructor].
Qed.

Lemma loadDB_run (w : World) :
  exists wl, loadDB w = (wl, Ok (storedDB w))
    /\ disk wl = Some (storedDB w) /\ calls wl = calls w
    /\ (forall db, disk w = Some db -> wl = w).
Proof.
  unfold loadDB, storedDB. destruct (disk w) as [db|] eqn:E.
  - exists w. by repeat split.
  - eexists. split; [reflexivity|]. by repeat split.
Qed.

Ltac io_step H := eapply io_bind_ok; [exact H|]; cbv beta iota zeta.
Ltac save_step H := eapply saves_bind; [exact H|]; cbv beta iota zeta.

(** The three ways the handler ends: with an error, with [added: 0] before
    anything is stored, or by saving the channel once. *)
Lemma ingestWith_cases cfg rt up req db :
  (exists e, io_only (ingestWith cfg rt up req db) (Throw e))
  \/ (exists cid,
        io_only (ingestWith cfg rt up req db) (Ok (ingestOk 0 cid (req_backfill req))))
  \/ (exists cid uploadsId newList c (details : list VideoRecord) ch3,
        io_only (channelIdOrResolve up (req_channelId req) (req_handle req))
                (Ok (Some cid))
        /\ truthy (Some cid) = true
        /\ io_only (getUploadsPlaylistId up cid) (Ok uploadsId)
        /\ io_only (listNewVideoIds cfg rt up uploadsId (req_since req)
                      (lastSeenVideoId (default newChannel (channels db !! cid)))
                      (req_backfill req)) (Ok newList)
        /\ last newList = Some c
        /\ lastSeenVideoId ch3 =
             (if req_backfill req
              then lastSeenVideoId (default newChannel (channels db !! cid))
              else Some (cand_id c))
        /\ lastPublishedAt ch3 =
             (if req_backfill req
              then lastPublishedAt (default newChannel (channels db !! cid))
              else jsOr (cand_publishedAt c)
                     (lastPublishedAt (default newChannel (channels db !! cid))))
        /\ saves (ingestWith cfg rt up req db)
                 {| channels := <[cid := ch3]> (channels db) |}
                 (Ok (ingestOk (Z.of_nat (length details)) cid (req_backfill req)))).
Proof.
  unfold ingestWith.
  destruct (io_channelIdOrResolve up (req_channelId req) (req_handle req))
    as [[cido|e] Ha].
  2:{ left. exists e. by apply io_bind_throw. }
  destruct cido as [cid|].
  2:{ left. eexists. io_step Ha. apply io_throw. }
  destruct (truthy (Some cid)) eqn:Ht.
  2:{ left. eexists. io_step Ha. rewrite Ht. apply io_throw. }
  destruct (io_getUploadsPlaylistId up cid) as [[uploadsId|e] Hb].
  2:{ left. exists e. io_step Ha. rewrite Ht. cbn [negb]. by apply io_bind_throw. }
  set (ch := default newChannel (channels db !! cid)).
  destruct (io_listNewVideoIds cfg rt up uploadsId (req_since req)
              (lastSeenVideoId ch) (req_backfill req)) as [[newList|e] Hc].
  2:{ left. exists e. io_step Ha. rewrite Ht. cbn [negb].
      io_step Hb. by apply io_bind_throw. }
  destruct (last newList) as [c|] eqn:Hlast.
  2:{ apply last_None in Hlast as ->. right. left. exists cid.
      io_step Ha. rewrite Ht. cbn [negb]. io_step Hb. io_step Hc. apply io_ret. }
  assert (Hlen : (length (map cand_id newList) =? 0)%nat = false).
  { apply Nat.eqb_neq. rewrite length_map. intros H0.
    apply length_zero_iff_nil in H0. by subst. }
  destruct (io_fetchVideoDetails cfg up (map cand_id newList)) as [[details|e] Hd].
  2:{ left. exists e. io_step Ha. rewrite Ht. cbn [negb].
      io_step Hb. io_step Hc. rewrite Hlen. by apply io_bind_throw. }
  assert (Hc_truthy : truthy (Some (cand_id c)) = true).
  { destruct (Hc Samples.world0) as [cs Hrun].
    apply listNewVideoIds_truthy in Hrun. rewrite Forall_forall in Hrun.
    apply Hrun. by apply last_Some_elem_of. }
  set (ch1 := withVideos ch (fold_left setVideo details (videos ch))).
  set (ch2 := if negb (req_backfill req)
              then withCursor ch1
                     (jsOr (cand_id <$> last newList) (lastSeenVideoId ch1))
                     (jsOr (last newList ≫= cand_publishedAt) (lastPublishedAt ch1))
              else ch1).
  assert (Hmeta : exists ch3,
            io_only (match meta ch2 with
                     | Some _ => ret ch2
                     | None =>
                         tryCatch
                           (let! m := fetchChannelMeta rt up cid in
                            ret (withMeta ch2 (Some m)))
                           (fun _ => ret ch2)
                     end) (Ok ch3)
            /\ lastSeenVideoId ch3 = lastSeenVideoId ch2
            /\ lastPublishedAt ch3 = lastPublishedAt ch2).
  { destruct (meta ch2).
    - exists ch2. split; [apply io_ret|done].
    - destruct (io_fetchChannelMeta rt up cid) as [[m|e] Hm].
      + exists (withMeta ch2 (Some m)). split; [|done].
        intros w. destruct (Hm w) as [cs Hr]. exists cs.
        unfold tryCatch, bind, ret. by rewrite Hr.
      + exists ch2. split; [|done].
        intros w. destruct (Hm w) as [cs Hr]. exists cs.
        unfold tryCatch, bind, ret. by rewrite Hr. }
  destruct Hmeta as (ch3 & Hm & Hseen & Hpub).
  right. right. exists cid, uploadsId, newList, c, details, ch3.
  split; [done|]. split; [done|]. split; [done|]. split; [done|]. split; [done|].
  split; [|split].
  - rewrite Hseen. unfold ch2. destruct (req_backfill req); cbn; [done|].
    rewrite Hlast. cbn. unfold jsOr. by rewrite Hc_truthy.
  - rewrite Hpub. unfold ch2. destruct (req_backfill req); cbn; [done|].
    by rewrite Hlast.
  - save_step Ha. rewrite Ht. cbn [negb]. save_step Hb. save_step Hc.
    rewrite Hlen. save_step Hd. save_step Hm. apply saves_saveDB.
Qed.

Lemma ingest_io cfg rt up req w db r :
  disk w = Some db ->
  io_only (ingestWith cfg rt up req db) r ->
  exists cs, ingest cfg rt up req w = (extend w cs, Ok (answer r)).
Proof.
  intros Hdisk Hio. destruct (Hio w) as [cs Hrun]. exists cs.
  unfold ingest, tryCatch, bind, loadDB. rewrite Hdisk, Hrun. by destruct r.
Qed.

Lemma ingest_first_io cfg rt up req w r :
  io_only (ingestWith cfg rt up req (storedDB w)) r ->
  exists w', ingest cfg rt up req w = (w', Ok (answer r))
    /\ disk w' = Some (storedDB w).
Proof.
  intros Hio. destruct (loadDB_run w) as (wl & Hload & Hdisk & _).
  destruct (Hio wl) as [cs Hrun]. exists (extend wl cs).
  unfold ingest, tryCatch, bind. rewrite Hload, Hrun. by destruct r.
Qed.

Lemma ingest_first_saves cfg rt up req w db' r :
  saves (ingestWith cfg rt up req (storedDB w)) db' r ->
  exists w', ingest cfg rt up req w = (w', Ok (answer r)) /\ disk w' = Some db'.
Proof.
  intros Hs. destruct (loadDB_run w) as (wl & Hload & Hdisk & _).
  destruct (Hs wl) as [cs Hrun]. eexists.
  unfold ingest, tryCatch, bind. rewrite Hload, Hrun. by destruct r.
Qed.

Lemma ingestWith_early cfg rt up req db cid uploadsId :
  io_only (channelIdOrResolve up (req_channelId req) (req_handle req)) (Ok (Some cid)) ->
  truthy (Some cid) = true ->
  io_only (getUploadsPlaylistId up cid) (Ok uploadsId) ->
  io_only (listNewVideoIds cfg rt up uploadsId (req_since req)
             (lastSeenVideoId (default newChannel (channels db !! cid)))
             (req_backfill req)) (Ok []) ->
  io_only (ingestWith cfg rt up req db) (Ok (ingestOk 0 cid (req_backfill req))).
Proof.
  intros Ha Ht Hb Hc. unfold ingestWith.
  io_step Ha. rewrite Ht. cbn [negb]. io_step Hb. io_step Hc. apply io_ret.
Qed.

(** C3. Two incremental ingestions in a row against the same upstream: the
    second one writes nothing, neither the file nor, hence, any cursor
    changes; when the first one answered ok the second answers ok with
    [added: 0], and when the first one failed the second repeats its
    answer. *)
Theorem ingest_idempotent (cfg : Config) (rt : Runtime) (up : Upstream)
    (req : IngestRequest) (w0 w1 w2 : World) (r1 r2 : result Response) :
  req_backfill req = false ->
  ingest cfg rt up req w0 = (w1, r1) ->
  ingest cfg rt up req w1 = (w2, r2) ->
  disk w2 = disk w1 /\ writes w2 = writes w1
  /\ (forall cid, cursorOf (storedDB w2) cid = cursorOf (storedDB w1) cid)
  /\ exists resp1 resp2,
      r1 = Ok resp1 /\ r2 = Ok resp2
      /\ (status resp1 = 200 ->
          status resp2 = 200 /\ field "added" (body resp2) = Some (VNum 0))
      /\ (status resp1 <> 200 -> resp2 = resp1).
Proof.
  intros Hbf H1 H2.
  assert (Hsecond : exists db1 rA rB,
            r1 = Ok (answer rA) /\ disk w1 = Some db1
            /\ io_only (ingestWith cfg rt up req db1) rB
            /\ (status (answer rA) = 200 -> exists cid, rB = Ok (ingestOk 0 cid false))
            /\ (status (answer rA) <> 200 -> rB = rA)).
  { destruct (ingestWith_cases cfg rt up req (storedDB w0))
      as [[e He]|[[cid Hz]|(cid & uploadsId & newList & c & details & ch3 &
                            Ha & Ht & Hb & Hc & Hlast & Hseen & _ & Hs)]].
    - destruct (ingest_first_io _ _ _ _ _ _ He) as (w' & Hrun & Hd).
      rewrite Hrun in H1. simplify_eq.
      exists (storedDB w0), (Throw e), (Throw e). by repeat split.
    - destruct (ingest_first_io _ _ _ _ _ _ Hz) as (w' & Hrun & Hd).
      rewrite Hrun in H1. simplify_eq.
      eexists (storedDB w0), _, _.
      split; [done|]. split; [done|]. split; [exact Hz|].
      rewrite Hbf. split; [by exists cid|done].
    - destruct (ingest_first_saves _ _ _ _ _ _ _ Hs) as (w' & Hrun & Hd).
      rewrite Hrun in H1. simplify_eq.
      eexists _, _, (Ok (ingestOk 0 cid (req_backfill req))).
      split; [done|]. split; [exact Hd|]. split.
      + eapply ingestWith_early; [done|done|exact Hb|].
        cbn [channels]. rewrite lookup_insert_eq. cbn [default from_option id].
        rewrite Hseen, Hbf.
        destruct (Hc Samples.world0) as [cs Hrun1]. rewrite Hbf in Hrun1.
        by eapply listNewVideoIds_again.
      + rewrite Hbf. split; [by exists cid|done]. }
  destruct Hsecond as (db1 & rA & rB & -> & Hd1 & Hio & Hok & Hfail).
  destruct (ingest_io _ _ _ _ _ _ _ Hd1 Hio) as [cs Hrun2].
  rewrite Hrun2 in H2. simplify_eq.
  split; [done|]. split; [done|]. split; [done|].
  exists (answer rA), (answer rB). split; [done|]. split; [done|]. split.
  - intros H200. destruct (Hok H200) as [cid ->]. done.
  - intros Hne. by rewrite (Hfail Hne).
Qed.

Lemma ingest_idempotent_witness :
  exists w1 w2 resp2,
    ingest Samples.cfg0 Samples.rt0 (Samples.withFeed Samples.feedABX)
      (Samples.ingestABX false) Samples.world0
    = (w1, Ok (ingestOk 3 Samples.canonicalId false))
    /\ ingest Samples.cfg0 Samples.rt0 (Samples.withFeed Samples.feedABX)
         (Samples.ingestABX false) w1 = (w2, Ok resp2)
    /\ writes w2 = writes w1
    /\ field "added" (body resp2) = Some (VNum 0).
Proof.
  destruct (ingest Samples.cfg0 Samples.rt0 (Samples.withFeed Samples.feedABX)
              (Samples.ingestABX false) Samples.world0) as [w1 r1] eqn:E1.
  destruct (ingest Samples.cfg0 Samples.rt0 (Samples.withFeed Samples.feedABX)
              (Samples.ingestABX false) w1) as [w2 r2] eqn:E2.
  destruct (ingest_idempotent Samples.cfg0 Samples.rt0
              (Samples.withFeed Samples.feedABX) (Samples.ingestABX false)
              _ _ _ _ _ eq_refl E1 E2)
    as (_ & Hw & _ & resp1 & resp2 & -> & -> & Hok & _).
  assert (Hr1 : resp1 = ingestOk 3 Samples.canonicalId false).
  { vm_compute in E1. by injection E1 as _ <-. }
  subst resp1. exists w1, w2, resp2. split; [reflexivity|]. split; [exact E2|].
  split; [exact Hw|]. by apply Hok.
Defined.

(** ** Who moves the cursor *)

Lemma io_searchPages maxPages q publishedAfter keywords pages responses videoIds :
  exists r, io_only (searchPages maxPages q publishedAfter keywords pages responses
                       videoIds) r.
Proof.
  revert pages videoIds. induction responses as [|r rs IH]; intros pages videoIds;
    cbn [searchPages].
  - eexists. apply io_ret.
  - apply io_bind; [eexists; apply io_await|]. intros items.
    destruct (Z.of_nat (S pages) <? maxPages); [apply IH|eexists; apply io_ret].
Qed.

Lemma io_metricsByQuery cfg rt up qQ daysQ :
  exists r, io_only (metricsByQuery cfg rt up qQ daysQ) r.
Proof.
  unfold metricsByQuery. apply io_tryCatch; [|intros e; eexists; apply io_ret].
  cbv zeta. destruct (negb (truthy (Some (trim (orEmpty qQ)))));
    [eexists; apply io_ret|].
  destruct (windowStart rt (numberParam daysQ 90)) as [start|];
    [|eexists; apply io_throw].
  apply io_bind; [apply io_searchPages|]. intros videoIds.
  apply io_bind; [apply io_fetchVideoDetails|]. intros fetched.
  destruct (metricsOfRows _ _ _); eexists; [apply io_ret|apply io_throw].
Qed.

Lemma storedDB_extend (w : World) (cs : list Call) : storedDB (extend w cs) = storedDB w.
Proof. reflexivity. Qed.

Lemma cursorOf_insert (db : DB) (cid cid' : string) (ch' : ChannelState) :
  lastSeenVideoId ch' = lastSeenVideoId (default newChannel (channels db !! cid)) ->
  lastPublishedAt ch' = lastPublishedAt (default newChannel (channels db !! cid)) ->
  cursorOf {| channels := <[cid := ch']> (channels db) |} cid' = cursorOf db cid'.
Proof.
  intros Hs Hp. unfold cursorOf. cbn [channels].
  destruct (decide (cid = cid')) as [<-|Hne].
  - rewrite lookup_insert_eq, Hs, Hp. by destruct (channels db !! cid).
  - by rewrite lookup_insert_ne.
Qed.

Lemma keeps_io {A} (m : M A) : (exists r, io_only m r) -> keeps m.
Proof.
  intros [r0 Hio] w w' r Hrun. destruct (Hio w) as [cs Hrun0].
  rewrite Hrun0 in Hrun. by simplify_eq.
Qed.

Lemma keeps_ret {A} (a : A) : keeps (ret a).
Proof. apply keeps_io. eexists. apply io_ret. Qed.

Lemma keeps_throw {A} (e : string) : keeps (@throw A e).
Proof. apply keeps_io. eexists. apply io_throw. Qed.

Lemma keeps_loadDB : keeps loadDB.
Proof.
  intros w w' r Hrun. destruct (loadDB_run w) as (wl & Hload & Hd & _).
  rewrite Hload in Hrun. simplify_eq. unfold storedDB at 1. by rewrite Hd.
Qed.

Lemma keeps_bind {A B} (m : M A) (k : A -> M B) :
  keeps m -> (forall a, keeps (k a)) -> keeps (bind m k).
Proof.
  intros Hm Hk w w' r. unfold bind.
  destruct (m w) as [w1 [a|e]] eqn:E1.
  - intros Hrun. rewrite (Hk a _ _ _ Hrun). by eapply Hm.
  - intros Heq. simplify_eq. by eapply Hm.
Qed.

Lemma keeps_tryCatch {A} (m : M A) (h : string -> M A) :
  keeps m -> (forall e, keeps (h e)) -> keeps (tryCatch m h).
Proof.
  intros Hm Hh w w' r. unfold tryCatch.
  destruct (m w) as [w1 [a|e]] eqn:E1.
  - intros Heq. simplify_eq. by eapply Hm.
  - intros Hrun. rewrite (Hh e _ _ _ Hrun). by eapply Hm.
Qed.

Lemma io_buildInsightText cfg up sample days :
  exists r, io_only (buildInsightText cfg up sample days) r.
Proof.
  assert (Ho : exists r, io_only (callOpenAI cfg up sample days) r).
  { unfold callOpenAI. destruct (negb _); [eexists; apply io_throw|].
    apply io_bind; [eexists; apply io_await|]. intros content. cbv zeta.
    destruct (trim <$> content) as [t|] eqn:E; [|eexists; apply io_throw].
    destruct (truthy (Some t)); eexists; [apply io_ret|apply io_throw]. }
  assert (Hg : exists r, io_only (callGemini cfg up sample days) r).
  { unfold callGemini. destruct (negb _); [eexists; apply io_throw|].
    apply io_bind; [eexists; apply io_await|]. intros resp. cbv zeta.
    destruct (truthy _); eexists; [apply io_ret|apply io_throw]. }
  unfold buildInsightText. destruct (pickProvider cfg);
    (apply io_tryCatch; [done|]); intros e;
    (apply io_bind; [eexists; apply io_await|]); by intros _.
Qed.

Lemma keeps_metricsByHandle rt up channelIdQ handle daysQ :
  keeps (metricsByHandle rt up channelIdQ handle daysQ).
Proof.
  unfold metricsByHandle. apply keeps_tryCatch; [|intros e; apply keeps_ret].
  cbv zeta. apply keeps_bind; [apply keeps_io, io_channelIdOrResolve|].
  intros [cid|]; [|apply keeps_ret].
  destruct (negb _); [apply keeps_ret|].
  apply keeps_bind; [apply keeps_loadDB|]. intros db.
  destruct (makeMetricsFromChannel _ _ _ _); [apply keeps_ret|apply keeps_throw].
Qed.

Lemma keeps_insight cfg rt up req : keeps (insight cfg rt up req).
Proof.
  unfold insight. apply keeps_tryCatch; [|intros e; apply keeps_ret].
  cbv zeta. apply keeps_bind.
  - assert (Hdb : keeps
        (let! cido := channelIdOrResolve up (ins_channelId req) (ins_handle req) in
         match cido with
         | Some cid =>
             if truthy cido then
               let! db := loadDB in
               match makeMetricsFromChannel rt db cid
                       (JsInt (numberOr (ins_days req) 90)) with
               | Ok m => ret (map ofVideoRecord (rows m))
               | Throw e => throw e
               end
             else ret (default [] (match ins_metrics_rows req with
                                   | Some l => Some l
                                   | None => ins_rows req
                                   end))
         | None => ret (default [] (match ins_metrics_rows req with
                                    | Some l => Some l
                                    | None => ins_rows req
                                    end))
         end)).
    { apply keeps_bind; [apply keeps_io, io_channelIdOrResolve|].
      intros [cid|]; [|apply keeps_ret].
      destruct (truthy _); [|apply keeps_ret].
      apply keeps_bind; [apply keeps_loadDB|]. intros db.
      destruct (makeMetricsFromChannel _ _ _ _); [apply keeps_ret|apply keeps_throw]. }
    destruct (match ins_metrics_rows req with Some l => Some l | None => ins_rows req end)
      as [[|v l]|]; [exact Hdb|apply keeps_ret|exact Hdb].
  - intros [|v l]; [apply keeps_ret|].
    apply keeps_bind; [apply keeps_io, io_buildInsightText|].
    intros text. apply keeps_ret.
Qed.

(** C2. A backfill ingestion leaves the cursor ([lastSeenVideoId],
    [lastPublishedAt]) of every channel as it was, whatever it stores in
    [videos] and however the run ends. No other route moves a cursor
    either: the resolve route only sets [meta]; the two metrics routes and
    the insight route leave the store as it is. *)
Theorem backfill_keeps_cursor (cfg : Config) (rt : Runtime) (up : Upstream)
    (w : World) (cid : string) :
  (forall req w' r,
      req_backfill req = true -> ingest cfg rt up req w = (w', r) ->
      cursorOf (storedDB w') cid = cursorOf (storedDB w) cid)
  /\ (forall handle w' r,
        resolveRoute rt up handle w = (w', r) ->
        cursorOf (storedDB w') cid = cursorOf (storedDB w) cid)
  /\ (forall channelIdQ handle daysQ w' r,
        metricsByHandle rt up channelIdQ handle daysQ w = (w', r) ->
        storedDB w' = storedDB w)
  /\ (forall qQ daysQ w' r,
        metricsByQuery cfg rt up qQ daysQ w = (w', r) -> storedDB w' = storedDB w)
  /\ (forall req w' r,
        insight cfg rt up req w = (w', r) -> storedDB w' = storedDB w).
Proof.
  split; [|split; [|split; [|split]]].
  - intros req w' r Hbf Hrun.
    destruct (ingestWith_cases cfg rt up req (storedDB w))
      as [[e He]|[[c Hz]|(c & uploadsId & newList & cd & details & ch3 &
                          _ & _ & _ & _ & _ & Hseen & Hpub & Hs)]].
    + destruct (ingest_first_io _ _ _ _ _ _ He) as (w1 & Hrun1 & Hd).
      rewrite Hrun1 in Hrun. simplify_eq. unfold storedDB at 1. by rewrite Hd.
    + destruct (ingest_first_io _ _ _ _ _ _ Hz) as (w1 & Hrun1 & Hd).
      rewrite Hrun1 in Hrun. simplify_eq. unfold storedDB at 1. by rewrite Hd.
    + destruct (ingest_first_saves _ _ _ _ _ _ _ Hs) as (w1 & Hrun1 & Hd).
      rewrite Hrun1 in Hrun. simplify_eq. unfold storedDB at 1. rewrite Hd.
      cbn [default from_option id]. rewrite Hbf in Hseen, Hpub.
      by apply cursorOf_insert.
  - intros handle w' r. unfold resolveRoute, tryCatch, bind at 1.
    destruct (io_resolveToChannelId up handle) as [[c|e] Hr];
      destruct (Hr w) as [cs Hrun]; rewrite Hrun.
    2:{ unfold ret. intros Heq; by simplify_eq. }
    unfold bind at 1.
    destruct (loadDB_run (extend w cs)) as (wl & Hload & Hd & _).
    rewrite Hload, storedDB_extend.
    set (fetch := match channels (storedDB w) !! c ≫= meta with
                  | Some c0 => _ | None => _ end).
    assert (Hfetch : exists r0, io_only fetch r0).
    { unfold fetch. destruct (channels (storedDB w) !! c ≫= meta) as [c0|].
      - match goal with |- context [if ?b then _ else _] => destruct b end;
          [eexists; apply io_ret|apply io_fetchChannelMeta].
      - apply io_fetchChannelMeta. }
    destruct Hfetch as [[m|e] Hm]; unfold bind at 1;
      destruct (Hm wl) as [cs2 Hrun2]; rewrite Hrun2.
    + unfold bind, saveDB, ret. intros Heq; simplify_eq.
      unfold storedDB at 1. cbn [disk default from_option id].
      by apply cursorOf_insert.
    + unfold ret. intros Heq; simplify_eq.
      unfold storedDB at 1. cbn [extend disk]. by rewrite Hd.
  - intros channelIdQ handle daysQ w' r. apply keeps_metricsByHandle.
  - intros qQ daysQ w' r. apply keeps_io, io_metricsByQuery.
  - intros req w' r. apply keeps_insight.
Qed.

Lemma backfill_keeps_cursor_witness :
  exists w',
    ingest Samples.cfg0 Samples.rt0 (Samples.withFeed Samples.feedABX)
      (Samples.ingestABX true) Samples.world3
    = (w', Ok (ingestOk 3 Samples.canonicalId true))
    /\ cursorOf (storedDB w') Samples.canonicalId
       = (Some "late", Some "2024-03-10T08:00:00Z").
Proof.
  destruct (ingest Samples.cfg0 Samples.rt0 (Samples.withFeed Samples.feedABX)
              (Samples.ingestABX true) Samples.world3) as [w' r] eqn:E.
  pose proof (proj1 (backfill_keeps_cursor Samples.cfg0 Samples.rt0
                       (Samples.withFeed Samples.feedABX) Samples.world3
                       Samples.canonicalId) (Samples.ingestABX true) _ _ eq_refl E)
    as Hcur.
  assert (Hr : r = Ok (ingestOk 3 Samples.canonicalId true)).
  { vm_compute in E. by injection E as _ <-. }
  subst r. exists w'. split; [reflexivity|].
  rewrite Hcur. vm_compute. reflexivity.
Defined.

(** ** Keyword search *)

Lemma metricsByQuery_unfold (cfg : Config) (rt : Runtime) (up : Upstream)
    (qQ : option string) (daysQ : option JsNumber) (start : Z) :
  trim (orEmpty qQ) <> "" ->
  windowStart rt (numberParam daysQ 90) = Some start ->
  metricsByQuery cfg rt up qQ daysQ
  = tryCatch
      (let! videoIds :=
         searchPages (YT_SEARCH_MAX_PAGES cfg)
           (join " " (keywordsOf (trim (orEmpty qQ)))) (toISOString rt start)
           (keywordsOf (trim (orEmpty qQ))) 0
           (searchResponses up (join " " (keywordsOf (trim (orEmpty qQ))))
              (toISOString rt start)) [] in
       let! fetched := fetchVideoDetails cfg up videoIds in
       match metricsOfRows rt (dayjs_parse rt (toISOString rt start)) fetched with
       | Ok m => ret {| status := 200;
                        body := ("query", VStr (trim (orEmpty qQ))) :: metricsJson m |}
       | Throw e => throw e
       end)
      (fun e => ret (errorResponse e)).
Proof.
  intros Hq Hstart. apply String.eqb_neq in Hq. unfold metricsByQuery. cbv zeta.
  cbn [truthy]. rewrite Hq, Hstart. reflexivity.
Qed.

(** C7, as the code has it. The keyword route always answers, with 200 or
    500. Its result has no [topChannels] field: a successful answer consists
    of [query], [byDay], [rows], [top] and [total] and nothing else. When a
    query was given, the last four are the metrics of the hydrated rows:
    the rows that [fetchVideoDetails] returns for the video ids the search
    collected, filtered on the window start (as the search printed it),
    sorted, bucketed by day and ranked for the top 10 by the steps of the
    channel metrics. *)
Theorem metricsByQuery_fields (cfg : Config) (rt : Runtime) (up : Upstream)
    (qQ : option string) (daysQ : option JsNumber) (w : World) :
  exists w' resp,
    metricsByQuery cfg rt up qQ daysQ w = (w', Ok resp)
    /\ field "topChannels" (body resp) = None
    /\ (status resp = 200 \/ status resp = 500)
    /\ (status resp = 200 ->
        keysOf (body resp) = ["query"; "byDay"; "rows"; "top"; "total"]
        /\ (trim (orEmpty qQ) <> "" ->
            let keywords := keywordsOf (trim (orEmpty qQ)) in
            exists start w1 videoIds fetched m,
              windowStart rt (numberParam daysQ 90) = Some start
              /\ searchPages (YT_SEARCH_MAX_PAGES cfg) (join " " keywords)
                    (toISOString rt start) keywords 0
                    (searchResponses up (join " " keywords) (toISOString rt start))
                    [] w = (w1, Ok videoIds)
              /\ fetchVideoDetails cfg up videoIds w1 = (w', Ok fetched)
              /\ metricsOfRows rt (dayjs_parse rt (toISOString rt start)) fetched
                 = Ok m
              /\ body resp = [("query", VStr (trim (orEmpty qQ)));
                              ("byDay", VCounts (byDay m)); ("rows", VRows (rows m));
                              ("top", VRows (top m)); ("total", VNum (total m))]
              /\ rows m ≡ₚ filter (fun v => isAfter (publishedInstant rt v)
                                              (dayjs_parse rt (toISOString rt start))
                                            = true) fetched
              /\ (consistent (localeCompare rt) ->
                  StronglySorted (notAfter (byPublishedAt rt)) (rows m))
              /\ (forall d, byDay m !! d =
                    let n := length (filter (fun v => dayOf v = d) (rows m)) in
                    if (n =? 0)%nat then None else Some (Z.of_nat n))
              /\ (exists ranked,
                    top m = take 10 ranked
                    /\ ranked ≡ₚ rows m
                    /\ StronglySorted (fun a b => views b <= views a) ranked
                    /\ forall n, filter (fun v => views v = n) ranked
                                 = filter (fun v => views v = n) (rows m))
              /\ total m = Z.of_nat (length (rows m)))).
Proof.
  destruct (String.eqb_spec (trim (orEmpty qQ)) "") as [Hq|Hq].
  { unfold metricsByQuery, tryCatch. cbv zeta. cbn [truthy]. rewrite Hq.
    eexists _, _. split; [reflexivity|]. cbn.
    split; [done|]. split; [by left|]. by intros _. }
  destruct (windowStart rt (numberParam daysQ 90)) as [start|] eqn:Hstart.
  2:{ unfold metricsByQuery, tryCatch. cbv zeta. cbn [truthy].
      apply String.eqb_neq in Hq. rewrite Hq, Hstart.
      eexists _, _. split; [reflexivity|]. cbn.
      split; [done|]. split; [by right|]. done. }
  rewrite (metricsByQuery_unfold cfg rt up qQ daysQ start Hq Hstart).
  unfold tryCatch. unfold bind at 1.
  destruct (searchPages _ _ _ _ _ _ _ w) as [w1 [videoIds|e]] eqn:Hsearch.
  2:{ eexists _, _. split; [reflexivity|]. cbn.
      split; [done|]. split; [by right|]. done. }
  unfold bind at 1.
  destruct (fetchVideoDetails cfg up videoIds w1) as [w2 [fetched|e]] eqn:Hfetch.
  2:{ eexists _, _. split; [reflexivity|]. cbn.
      split; [done|]. split; [by right|]. done. }
  destruct (metricsOfRows rt _ fetched) as [m|e] eqn:Hm.
  - destruct (metricsOfRows_Ok rt _ _ m Hm)
      as (Hperm & Hsorted & Hday & _ & Htop & Htotal & _).
    eexists _, _. split; [reflexivity|]. cbn.
    split; [done|]. split; [by left|]. intros _. split; [done|].
    intros _. exists start, w1, videoIds, fetched, m.
    split; [done|]. split; [exact Hsearch|]. split; [done|]. split; [exact Hm|].
    split; [done|]. split; [exact Hperm|]. split; [exact Hsorted|].
    split; [exact Hday|]. split; [exact Htop|exact Htotal].
  - eexists _, _. split; [reflexivity|]. cbn.
    split; [done|]. split; [by right|]. done.
Qed.

Lemma metricsByQuery_fields_witness :
  exists w' resp,
    metricsByQuery Samples.cfg0 Samples.rt0 Samples.withSearch
      (Some "LG,air conditioner") None Samples.world0 = (w', Ok resp)
    /\ keysOf (body resp) = ["query"; "byDay"; "rows"; "top"; "total"]
    /\ field "total" (body resp) = Some (VNum 1).
Proof.
  destruct (metricsByQuery_fields Samples.cfg0 Samples.rt0 Samples.withSearch
              (Some "LG,air conditioner") None Samples.world0)
    as (w' & resp & Hrun & _ & _ & Hok).
  assert (Hresp : status resp = 200 /\ field "total" (body resp) = Some (VNum 1)).
  { vm_compute in Hrun. injection Hrun as _ <-. vm_compute. split; reflexivity. }
  destruct Hresp as [H200 Htotal]. destruct (Hok H200) as [Hkeys _].
  exists w', resp. split; [exact Hrun|]. split; [exact Hkeys|exact Htotal].
Defined.

(** The sentence as written fails on every successful keyword search: the
    answer carries no [topChannels]. *)
Lemma topChannels_field_counterexample : ~ Stated.topChannels_field.
Proof.
  intros H.
  destruct (metricsByQuery Samples.cfg0 Samples.rt0 Samples.withSearch
              (Some "LG,air conditioner") None Samples.world0) as [w' r] eqn:Hrun.
  assert (Hr : exists resp, r = Ok resp /\ status resp = 200
                 /\ field "topChannels" (body resp) = None).
  { vm_compute in Hrun. injection Hrun as _ <-. eexists. split; [reflexivity|].
    vm_compute. split; reflexivity. }
  destruct Hr as (resp & -> & H200 & Hnone).
  destruct (H _ _ _ _ _ _ _ _ Hrun H200) as [v Hv].
  rewrite Hnone in Hv. discriminate Hv.
Qed.

(** * Further properties *)

(** ** Video feed walker: what every walk guarantees *)

Lemma candidateOf_publishedAt (it : PlaylistItem) (c : Candidate) :
  candidateOf it = Some c ->
  cand_publishedAt c = contentDetails_videoPublishedAt it.
Proof.
  unfold candidateOf. destruct (contentDetails_videoId it) as [idv|]; [|done].
  destruct (truthy (Some idv)); [|done]. by intros [= <-].
Qed.

Lemma walkItems_pushed (P : Candidate -> Prop) cap cutoff seen backfill
    (items : list PlaylistItem) out :
  (forall it c, candidateOf it = Some c ->
     olderThanCutoff cutoff (contentDetails_videoPublishedAt it) = false -> P c) ->
  Forall P out ->
  Forall P (walkItems cap cutoff seen backfill items out).1.
Proof.
  intros HP. revert out. induction items as [|it items IH]; intros out Hout; [done|].
  rewrite walkItems_cons. destruct (candidateOf it) as [c|] eqn:Ec; [|by apply IH].
  destruct (negb backfill && truthy seen && _); [done|].
  destruct (olderThanCutoff cutoff (contentDetails_videoPublishedAt it)) eqn:Eo; [done|].
  assert (Hnext : Forall P (out ++ [c])).
  { apply Forall_app. split; [done|]. constructor; [by eapply HP|constructor]. }
  destruct (Z.of_nat (length (out ++ [c])) >=? cap); [done|]. by apply IH.
Qed.

Lemma walkPages_pushed (P : Candidate -> Prop) cap cutoff seen backfill uploadsId
    pages page out w w' o :
  (forall it c, candidateOf it = Some c ->
     olderThanCutoff cutoff (contentDetails_videoPublishedAt it) = false -> P c) ->
  walkPages cap cutoff seen backfill uploadsId page pages out w = (w', Ok o) ->
  Forall P out -> Forall P o.
Proof.
  intros HP. revert page out w.
  induction pages as [|r ps IH]; intros page out w; cbn [walkPages].
  - unfold ret. intros Heq; by simplify_eq.
  - unfold bind, await. destruct r as [items|e]; [|done].
    pose proof (walkItems_pushed P cap cutoff seen backfill items out HP) as Hstep.
    destruct (walkItems cap cutoff seen backfill items out) as [o1 stop].
    cbn in Hstep. intros Hrun Hout. destruct stop.
    + unfold ret in Hrun. simplify_eq. by apply Hstep.
    + eapply IH; [exact Hrun|by apply Hstep].
Qed.

Lemma ltb_empty_r (p : string) : String.ltb p "" = false.
Proof. by destruct p. Qed.

(** X1. Whatever the feed, the cursor and the mode, no candidate the walker
    returns was published before the cutoff: a returned candidate with a
    publication time compares, as a string, not below the normalised
    [since]. *)
Theorem listNewVideoIds_cutoff_exclusion (cfg : Config) (rt : Runtime) (up : Upstream)
    (uploadsId : string) (sinceISO seen : option string) (backfill : bool)
    (w w' : World) (res : list Candidate) (cutoff : string) :
  cutoffOf rt sinceISO = Ok (Some cutoff) ->
  listNewVideoIds cfg rt up uploadsId sinceISO seen backfill w = (w', Ok res) ->
  forall c p, c ∈ res -> cand_publishedAt c = Some p -> p <> "" ->
              String.ltb p cutoff = false.
Proof.
  intros Hcut. unfold listNewVideoIds. rewrite Hcut. unfold bind.
  destruct (walkPages _ _ _ _ _ _ _ _ w) as [w1 [out|e]] eqn:Hrun; [|done].
  unfold ret. intros Heq c p Hc Hp Hne. simplify_eq.
  rewrite elem_of_reverse in Hc.
  assert (Hall : Forall (fun c => olderThanCutoff (Some cutoff) (cand_publishedAt c)
                                  = false) out).
  { eapply walkPages_pushed; [|exact Hrun|constructor].
    intros it c0 Hc0 Hold. by rewrite (candidateOf_publishedAt it c0 Hc0). }
  rewrite Forall_forall in Hall. specialize (Hall c Hc). rewrite Hp in Hall.
  cbn in Hall. apply String.eqb_neq in Hne. rewrite Hne in Hall. cbn in Hall.
  destruct (String.eqb_spec cutoff "") as [->|Hc0]; [apply ltb_empty_r|].
  by cbn in Hall.
Qed.

Lemma listNewVideoIds_cutoff_exclusion_witness :
  exists w',
    listNewVideoIds Samples.cfg0 Samples.rt0 (Samples.withFeed Samples.feedABX)
      "UU-uploads" (Some "2024-02-01T00:00:00Z") None true Samples.world0
    = (w', Ok [ {| cand_id := "a"; cand_publishedAt := Some "2024-03-01T00:00:00Z" |} ])
    /\ String.ltb "2024-03-01T00:00:00Z" "2024-02-01T00:00:00.000Z" = false.
Proof.
  destruct (listNewVideoIds Samples.cfg0 Samples.rt0 (Samples.withFeed Samples.feedABX)
      "UU-uploads" (Some "2024-02-01T00:00:00Z") None true Samples.world0)
    as [w' r] eqn:Hrun.
  assert (Hr : r = Ok [ {| cand_id := "a";
                           cand_publishedAt := Some "2024-03-01T00:00:00Z" |} ]).
  { vm_compute in Hrun. by injection Hrun as _ <-. }
  subst r. exists w'. split; [reflexivity|].
  apply (listNewVideoIds_cutoff_exclusion Samples.cfg0 Samples.rt0
           (Samples.withFeed Samples.feedABX) "UU-uploads"
           (Some "2024-02-01T00:00:00Z") None true Samples.world0 w' _
           "2024-02-01T00:00:00.000Z" eq_refl Hrun
           {| cand_id := "a"; cand_publishedAt := Some "2024-03-01T00:00:00Z" |}).
  - apply list_elem_of_here.
  - reflexivity.
  - discriminate.
Defined.

Lemma walkItems_bound cap cutoff seen backfill (items : list PlaylistItem) out :
  Z.of_nat (length out) < cap ->
  Z.of_nat (length (walkItems cap cutoff seen backfill items out).1) <= cap
  /\ ((walkItems cap cutoff seen backfill items out).2 = false ->
      Z.of_nat (length (walkItems cap cutoff seen backfill items out).1) < cap).
Proof.
  revert out. induction items as [|it items IH]; intros out Hout.
  - cbn. lia.
  - rewrite walkItems_cons. destruct (candidateOf it) as [c|]; [|by apply IH].
    destruct (negb backfill && truthy seen && _); [cbn; split; [lia|done]|].
    destruct (olderThanCutoff cutoff (contentDetails_videoPublishedAt it));
      [cbn; split; [lia|done]|].
    destruct (Z.geb_spec (Z.of_nat (length (out ++ [c]))) cap) as [Hfull|Hroom].
    + cbn [fst snd]. rewrite length_app in *. cbn [length] in *. split; [lia|done].
    + apply IH. rewrite length_app in *. cbn [length] in *. lia.
Qed.

Lemma walkPages_bound cap cutoff seen backfill uploadsId pages page out w w' o :
  walkPages cap cutoff seen backfill uploadsId page pages out w = (w', Ok o) ->
  Z.of_nat (length out) < cap -> Z.of_nat (length o) <= cap.
Proof.
  revert page out w. induction pages as [|r ps IH]; intros page out w; cbn [walkPages].
  - unfold ret. intros Heq Hout. simplify_eq. lia.
  - unfold bind, await. destruct r as [items|e]; [|done].
    intros Hrun Hout.
    destruct (walkItems_bound cap cutoff seen backfill items out Hout) as [Hle Hlt].
    destruct (walkItems cap cutoff seen backfill items out) as [o1 stop].
    cbn in Hle, Hlt. destruct stop.
    + unfold ret in Hrun. by simplify_eq.
    + eapply IH; [exact Hrun|by apply Hlt].
Qed.

(** X2. The record cap is at least 1 and no walk returns more candidates
    than the cap, whatever the feed, the cursor, the cutoff and the mode. *)
Theorem listNewVideoIds_cap_bound (cfg : Config) (rt : Runtime) (up : Upstream)
    (uploadsId : string) (sinceISO seen : option string) (backfill : bool)
    (w w' : World) (res : list Candidate) :
  listNewVideoIds cfg rt up uploadsId sinceISO seen backfill w = (w', Ok res) ->
  1 <= YT_FETCH_MAX_NEW cfg /\ Z.of_nat (length res) <= YT_FETCH_MAX_NEW cfg.
Proof.
  assert (Hcap : 1 <= YT_FETCH_MAX_NEW cfg) by (unfold YT_FETCH_MAX_NEW; lia).
  unfold listNewVideoIds. destruct (cutoffOf rt sinceISO) as [cutoff|e]; [|done].
  unfold bind.
  destruct (walkPages _ _ _ _ _ _ _ _ w) as [w1 [out|e]] eqn:Hrun; [|done].
  unfold ret. intros Heq. simplify_eq. split; [done|].
  rewrite length_reverse. eapply walkPages_bound; [exact Hrun|]. cbn. lia.
Qed.

Lemma listNewVideoIds_cap_bound_witness :
  exists w' res,
    listNewVideoIds Samples.cfg100 Samples.rt0 (Samples.withFeed Samples.feed120)
      "UU-uploads" None None false Samples.world0 = (w', Ok res)
    /\ Z.of_nat (length res) <= 100.
Proof.
  destruct (listNewVideoIds Samples.cfg100 Samples.rt0
              (Samples.withFeed Samples.feed120) "UU-uploads" None None false
              Samples.world0) as [w' r] eqn:Hrun.
  assert (Hr : exists res, r = Ok res).
  { vm_compute in Hrun. injection Hrun as _ <-. by eexists. }
  destruct Hr as [res ->]. exists w', res. split; [reflexivity|].
  apply (listNewVideoIds_cap_bound Samples.cfg100 Samples.rt0
           (Samples.withFeed Samples.feed120) "UU-uploads" None None false
           Samples.world0 w' res Hrun).
Defined.

Lemma walkItems_nocursor cap cutoff seen (items : list PlaylistItem) out :
  walkItems cap cutoff seen true items out = walkItems cap cutoff None false items out.
Proof.
  revert out. induction items as [|it items IH]; intros out; [done|].
  rewrite !walkItems_cons. destruct (candidateOf it) as [c|]; [|apply IH].
  cbn [negb andb truthy].
  destruct (olderThanCutoff cutoff (contentDetails_videoPublishedAt it)); [done|].
  destruct (Z.of_nat (length (out ++ [c])) >=? cap); [done|]. apply IH.
Qed.

Lemma walkItems_falsy_cursor cap cutoff seen backfill (items : list PlaylistItem) out :
  truthy seen = false ->
  walkItems cap cutoff seen backfill items out
  = walkItems cap cutoff None false items out.
Proof.
  intros Hs. revert out. induction items as [|it items IH]; intros out; [done|].
  rewrite !walkItems_cons. destruct (candidateOf it) as [c|]; [|apply IH].
  rewrite Hs, andb_false_r. cbn [negb andb truthy].
  destruct (olderThanCutoff cutoff (contentDetails_videoPublishedAt it)); [done|].
  destruct (Z.of_nat (length (out ++ [c])) >=? cap); [done|]. apply IH.
Qed.

Lemma walkPages_ext cap cutoff seen1 bf1 seen2 bf2 uploadsId pages page out w :
  (forall items o, walkItems cap cutoff seen1 bf1 items o
                   = walkItems cap cutoff seen2 bf2 items o) ->
  walkPages cap cutoff seen1 bf1 uploadsId page pages out w
  = walkPages cap cutoff seen2 bf2 uploadsId page pages out w.
Proof.
  intros Hext. revert page out w.
  induction pages as [|r ps IH]; intros page out w; cbn [walkPages]; [done|].
  unfold bind, await. destruct r as [items|e]; [|done].
  rewrite Hext. destruct (walkItems cap cutoff seen2 bf2 items out) as [o stop].
  destruct stop; [done|]. apply IH.
Qed.

(** X3. Backfill ignores the cursor: in every world a backfill walk with
    any stored cursor does exactly what an incremental walk without a
    cursor does, and an empty cursor is no cursor. *)
Theorem listNewVideoIds_backfill_ignores_cursor (cfg : Config) (rt : Runtime)
    (up : Upstream) (uploadsId : string) (sinceISO seen : option string) (w : World) :
  listNewVideoIds cfg rt up uploadsId sinceISO seen true w
  = listNewVideoIds cfg rt up uploadsId sinceISO None false w
  /\ listNewVideoIds cfg rt up uploadsId sinceISO (Some "") false w
     = listNewVideoIds cfg rt up uploadsId sinceISO None false w.
Proof.
  unfold listNewVideoIds. destruct (cutoffOf rt sinceISO) as [cutoff|e]; [|done].
  unfold bind. split.
  - rewrite (walkPages_ext _ _ seen true None false); [done|].
    intros. apply walkItems_nocursor.
  - rewrite (walkPages_ext _ _ (Some "") false None false); [done|].
    intros. by apply walkItems_falsy_cursor.
Qed.

(** X4. On a feed whose pages all arrive and with a valid [since], the
    walker never fails and returns a gap-free newest segment of the feed,
    oldest first: the candidates of the first [n] feed items, for some [n],
    reversed. *)
Theorem listNewVideoIds_newest_segment (cfg : Config) (rt : Runtime) (up : Upstream)
    (uploadsId : string) (sinceISO cutoff seen : option string) (backfill : bool)
    (pages : list (list PlaylistItem)) (w : World) :
  playlistItems_list up uploadsId = map Ok pages ->
  cutoffOf rt sinceISO = Ok cutoff ->
  exists w' n,
    listNewVideoIds cfg rt up uploadsId sinceISO seen backfill w
    = (w', Ok (reverse (candidatesOf (take n (concat pages)))))
    /\ disk w' = disk w /\ writes w' = writes w.
Proof.
  intros Hfeed Hcut.
  destruct (listNewVideoIds_ok cfg rt up uploadsId sinceISO cutoff seen backfill
              pages w Hfeed Hcut) as (w' & Hrun & Hd & Hw).
  destruct (walkItems_prefix (YT_FETCH_MAX_NEW cfg) cutoff seen backfill
              (concat pages) []) as [n Hn].
  exists w', n. rewrite Hrun, Hn. done.
Qed.

Lemma listNewVideoIds_newest_segment_witness :
  exists w' n,
    listNewVideoIds Samples.cfg0 Samples.rt0 (Samples.withFeed Samples.feedABX)
      "UU-uploads" (Some "2024-02-01T00:00:00Z") (Some "x") false Samples.world0
    = (w', Ok (reverse (candidatesOf (take n (concat Samples.feedABX))))).
Proof.
  destruct (listNewVideoIds_newest_segment Samples.cfg0 Samples.rt0
              (Samples.withFeed Samples.feedABX) "UU-uploads"
              (Some "2024-02-01T00:00:00Z") (Some "2024-02-01T00:00:00.000Z")
              (Some "x") false Samples.feedABX Samples.world0 eq_refl eq_refl)
    as (w' & n & Hrun & _).
  by exists w', n.
Defined.

Lemma walkItems_cursor_stops cap cutoff X (items : list PlaylistItem) it out :
  it ∈ items -> contentDetails_videoId it = Some X -> X <> "" ->
  (walkItems cap cutoff (Some X) false items out).2 = true.
Proof.
  intros Hin Hid HX.
  assert (Ht : truthy (Some X) = true).
  { cbn. apply negb_true_iff. by apply String.eqb_neq. }
  assert (Hc : candidateOf it <> None).
  { unfold candidateOf. by rewrite Hid, Ht. }
  revert out. induction items as [|it' items IH]; intros out.
  { by apply elem_of_nil in Hin. }
  rewrite walkItems_cons. rewrite Ht. cbn [negb andb].
  destruct (candidateOf it') as [c|] eqn:Ec.
  - destruct (bool_decide (contentDetails_videoId it' = Some X)) eqn:Eid; [done|].
    apply bool_decide_eq_false in Eid.
    assert (Hrest : it ∈ items).
    { apply elem_of_cons in Hin as [->|Hin]; [by rewrite Hid in Eid|done]. }
    destruct (olderThanCutoff cutoff (contentDetails_videoPublishedAt it')); [done|].
    destruct (Z.of_nat (length (out ++ [c])) >=? cap); [done|]. by apply IH.
  - assert (Hrest : it ∈ items).
    { apply elem_of_cons in Hin as [->|Hin]; [by rewrite Ec in Hc|done]. }
    by apply IH.
Qed.

(** X5. Paging stops with the cursor: when the cursor occurs in the first
    page of the feed, an incremental walk issues exactly one
    [playlistItems.list] request, whatever the later pages hold, and
    returns without error. *)
Theorem listNewVideoIds_one_request (cfg : Config) (rt : Runtime) (up : Upstream)
    (uploadsId : string) (sinceISO cutoff : option string) (X : string)
    (p : list PlaylistItem) (rest : list (result (list PlaylistItem)))
    (it : PlaylistItem) (w : World) :
  playlistItems_list up uploadsId = Ok p :: rest ->
  cutoffOf rt sinceISO = Ok cutoff ->
  it ∈ p -> contentDetails_videoId it = Some X -> X <> "" ->
  exists res,
    listNewVideoIds cfg rt up uploadsId sinceISO (Some X) false w
    = ({| calls := calls w ++ [Call_playlistItems_list uploadsId 0];
          disk := disk w; writes := writes w |}, Ok res).
Proof.
  intros Hfeed Hcut Hin Hid HX. unfold listNewVideoIds, feedPages.
  rewrite Hcut, Hfeed. cbn [walkPages]. unfold bind, await.
  pose proof (walkItems_cursor_stops (YT_FETCH_MAX_NEW cfg) cutoff X p it []
                Hin Hid HX) as Hstop.
  destruct (walkItems (YT_FETCH_MAX_NEW cfg) cutoff (Some X) false p []) as [o stop].
  cbn in Hstop. subst stop. by eexists.
Qed.

Lemma listNewVideoIds_one_request_witness :
  exists res,
    listNewVideoIds Samples.cfg0 Samples.rt0
      (Samples.withFeed (Samples.feedABX ++ Samples.feed120)) "UU-uploads" None
      (Some "x") false Samples.world0
    = ({| calls := [Call_playlistItems_list "UU-uploads" 0];
          disk := None; writes := 0 |}, Ok res).
Proof.
  apply (listNewVideoIds_one_request Samples.cfg0 Samples.rt0
           (Samples.withFeed (Samples.feedABX ++ Samples.feed120)) "UU-uploads"
           None None "x" _ _ (Samples.item "x" "2024-01-01T00:00:00Z")
           Samples.world0 eq_refl eq_refl).
  - do 2 apply list_elem_of_further. apply list_elem_of_here.
  - reflexivity.
  - discriminate.
Defined.

(** X6. A [since] that is not a date fails the walk with "Invalid time
    value" before any request is issued. *)
Theorem listNewVideoIds_invalid_since (cfg : Config) (rt : Runtime) (up : Upstream)
    (uploadsId since : string) (seen : option string) (backfill : bool) (w : World) :
  since <> "" -> Date_parse rt since = None ->
  listNewVideoIds cfg rt up uploadsId (Some since) seen backfill w
  = (w, Throw "Invalid time value").
Proof.
  intros Hne Hparse. unfold listNewVideoIds, cutoffOf.
  apply String.eqb_neq in Hne. cbn. by rewrite Hne, Hparse.
Qed.

Lemma listNewVideoIds_invalid_since_witness :
  listNewVideoIds Samples.cfg0 Samples.rt0 (Samples.withFeed Samples.feedABX)
    "UU-uploads" (Some "last week") None false Samples.world0
  = (Samples.world0, Throw "Invalid time value").
Proof.
  apply (listNewVideoIds_invalid_since Samples.cfg0 Samples.rt0
           (Samples.withFeed Samples.feedABX) "UU-uploads" "last week" None false
           Samples.world0).
  - discriminate.
  - reflexivity.
Defined.

(** ** Detail fetcher: requests and rows *)

Lemma fetchLoop_slices up (B : Z) (ids : list string) :
  1 <= B ->
  (forall b, exists items, videos_list up b = Ok items) ->
  forall (fuel n : nat) (rows : list VideoRecord) (w : World),
    (length ids - n <= fuel)%nat ->
    let batches :=
      map (fun j : nat => jsSlice (Z.of_nat n + Z.of_nat j * B)
                            (Z.of_nat n + Z.of_nat j * B + B) ids)
          (seq 0 (Z.to_nat ((Z.of_nat (length ids) - Z.of_nat n + B - 1) / B))) in
    fetchLoop fuel up B ids (Z.of_nat n) rows w
    = ({| calls := calls w ++ map Call_videos_list batches;
          disk := disk w; writes := writes w |},
       Ok (rows ++ concat (map (rowsOfBatch up) batches))).
Proof.
  intros HB Hok fuel.
  assert (Hdone : forall fuel n rows w, (length ids <= n)%nat ->
    let batches :=
      map (fun j : nat => jsSlice (Z.of_nat n + Z.of_nat j * B)
                            (Z.of_nat n + Z.of_nat j * B + B) ids)
          (seq 0 (Z.to_nat ((Z.of_nat (length ids) - Z.of_nat n + B - 1) / B))) in
    fetchLoop fuel up B ids (Z.of_nat n) rows w
    = ({| calls := calls w ++ map Call_videos_list batches;
          disk := disk w; writes := writes w |},
       Ok (rows ++ concat (map (rowsOfBatch up) batches)))).
  { intros fuel' n rows w Hn. rewrite fetchLoop_unfold.
    destruct (Z.ltb_spec (Z.of_nat n) (Z.of_nat (length ids))); [lia|].
    assert (Hz : (Z.of_nat (length ids) - Z.of_nat n + B - 1) / B <= 0).
    { assert ((Z.of_nat (length ids) - Z.of_nat n + B - 1) / B < 1); [|lia].
      apply Z.div_lt_upper_bound; lia. }
    replace (Z.to_nat ((Z.of_nat (length ids) - Z.of_nat n + B - 1) / B))
      with 0%nat by lia.
    cbn. rewrite !app_nil_r. by destruct w. }
  induction fuel as [|fuel IH]; intros n rows w Hfuel.
  { apply Hdone. lia. }
  destruct (Nat.le_gt_cases (length ids) n) as [Hge|Hlt]; [by apply Hdone|].
  clear Hdone. rewrite fetchLoop_unfold.
  destruct (Z.ltb_spec (Z.of_nat n) (Z.of_nat (length ids))); [|lia].
  cbn zeta. unfold bind, await.
  set (batch := jsSlice (Z.of_nat n) (Z.of_nat n + B) ids).
  destruct (Hok batch) as [items Hitems]. rewrite Hitems.
  replace (Z.of_nat n + B) with (Z.of_nat (n + Z.to_nat B)) by lia.
  rewrite IH by lia. cbn zeta.
  replace ((Z.of_nat (length ids) - Z.of_nat n + B - 1) / B)
    with ((Z.of_nat (length ids) - Z.of_nat (n + Z.to_nat B) + B - 1) / B + 1).
  2:{ rewrite <- Z.div_add by lia. f_equal. lia. }
  assert (Hnn : 0 <= (Z.of_nat (length ids) - Z.of_nat (n + Z.to_nat B) + B - 1) / B).
  { apply Z.div_pos; lia. }
  rewrite Z2Nat.inj_add, Nat.add_1_r by lia. cbn [seq map concat].
  rewrite <- seq_shift, !map_map.
  assert (Hf : forall j : nat,
    jsSlice (Z.of_nat (n + Z.to_nat B) + Z.of_nat j * B)
      (Z.of_nat (n + Z.to_nat B) + Z.of_nat j * B + B) ids
    = jsSlice (Z.of_nat n + Z.of_nat (S j) * B)
        (Z.of_nat n + Z.of_nat (S j) * B + B) ids).
  { intros j. f_equal; lia. }
  replace (Z.of_nat n + Z.of_nat 0 * B) with (Z.of_nat n) by lia.
  fold batch. unfold logged. cbn [calls disk writes].
  f_equal.
  - f_equal. rewrite <- app_assoc. cbn [app]. do 2 f_equal.
    apply map_ext. intros j. by rewrite Hf.
  - f_equal. unfold rowsOfBatch at 2. rewrite Hitems.
    rewrite <- app_assoc. do 3 f_equal.
    apply map_ext. intros j. by rewrite Hf.
Qed.

(** X7. When no request throws, [fetchVideoDetails] issues exactly
    ceil(n / B) [videos.list] requests for n ids and batch size B, the k-th
    for [ids.slice(k * B, k * B + B)], does nothing else, and returns the
    rows of the answers in request order. *)
Theorem fetchVideoDetails_requests (cfg : Config) (up : Upstream) (ids : list string)
    (w : World) :
  (forall b, exists items, videos_list up b = Ok items) ->
  let B := YT_VIDEOS_BATCH cfg in
  let batches :=
    map (batchAt B ids) (seq 0 (Z.to_nat ((Z.of_nat (length ids) + B - 1) / B))) in
  fetchVideoDetails cfg up ids w
  = ({| calls := calls w ++ map Call_videos_list batches;
        disk := disk w; writes := writes w |},
     Ok (concat (map (rowsOfBatch up) batches))).
Proof.
  intros Hok B batches. unfold fetchVideoDetails.
  pose proof (YT_VIDEOS_BATCH_range cfg) as HB.
  pose proof (fetchLoop_slices up (YT_VIDEOS_BATCH cfg) ids (proj1 HB) Hok
                (length ids) 0%nat [] w) as Hrun.
  cbn zeta in Hrun. change (Z.of_nat 0) with 0 in Hrun.
  rewrite Hrun by lia. cbn [app]. rewrite Z.sub_0_r.
  subst batches B. unfold batchAt. do 4 f_equal.
Qed.

Lemma fetchVideoDetails_requests_witness :
  fetchVideoDetails Samples.cfg500 (Samples.withFeed Samples.feed120) Samples.ids120
    Samples.world0
  = ({| calls := map Call_videos_list
                   [take 50 Samples.ids120; take 50 (drop 50 Samples.ids120);
                    drop 100 Samples.ids120];
        disk := None; writes := 0 |},
     Ok (map (fun id => toRow (Samples.apiVideo id)) Samples.ids120)).
Proof.
  rewrite (fetchVideoDetails_requests Samples.cfg500 (Samples.withFeed Samples.feed120)
             Samples.ids120 Samples.world0).
  - vm_compute. reflexivity.
  - intros b. by eexists.
Defined.

Lemma fetchLoop_failure up (B : Z) (ids : list string) :
  forall (fuel : nat) (i : Z) (rows : list VideoRecord) (w w' : World) (e : string),
    fetchLoop fuel up B ids i rows w = (w', Throw e) ->
    exists k : nat,
      calls w' = calls w ++
        map (fun j : nat => Call_videos_list
               (jsSlice (i + Z.of_nat j * B) (i + Z.of_nat j * B + B) ids))
            (seq 0 (S k))
      /\ disk w' = disk w /\ writes w' = writes w
      /\ videos_list up (jsSlice (i + Z.of_nat k * B) (i + Z.of_nat k * B + B) ids)
         = Throw e
      /\ (forall j : nat, (j < k)%nat ->
            exists items,
              videos_list up (jsSlice (i + Z.of_nat j * B) (i + Z.of_nat j * B + B) ids)
              = Ok items)
      /\ i + Z.of_nat k * B < Z.of_nat (length ids).
Proof.
  induction fuel as [|fuel IH]; intros i rows w w' e; rewrite fetchLoop_unfold;
    destruct (Z.ltb_spec i (Z.of_nat (length ids))) as [Hlt|Hge]; try done.
  cbn zeta. unfold bind, await.
  destruct (videos_list up (jsSlice i (i + B) ids)) as [items|e'] eqn:Ecall.
  - intros Hrun. apply IH in Hrun as (k & Hcalls & Hdisk & Hwrites & Hthrow & Hok & Hk).
    assert (Hf : forall j : nat, i + B + Z.of_nat j * B = i + Z.of_nat (S j) * B)
      by (intros; lia).
    exists (S k). rewrite Hcalls, Hdisk, Hwrites. cbn [logged calls disk writes].
    split; [|split; [done|split; [done|split; [|split]]]].
    + rewrite <- app_assoc. f_equal.
      change (seq 0 (S (S k))) with (0%nat :: seq 1 (S k)).
      rewrite <- seq_shift, map_cons, map_map. cbn [app]. f_equal.
      * replace (i + Z.of_nat 0 * B) with i by lia. done.
      * apply map_ext. intros j. by rewrite Hf.
    + by rewrite <- Hf.
    + intros [|j] Hj.
      * replace (i + Z.of_nat 0 * B) with i by lia. by exists items.
      * rewrite <- Hf. apply Hok. lia.
    + by rewrite <- Hf.
  - unfold throw. intros Heq. simplify_eq. exists 0%nat.
    cbn [seq map]. replace (i + Z.of_nat 0 * B) with i by lia.
    split; [done|]. split; [done|]. split; [done|]. split; [done|].
    split; [intros j Hj; lia|done].
Qed.

(** X8. A failing [videos.list] request aborts the fetch: when
    [fetchVideoDetails] throws, the error is that of the last request made,
    which is the first slice of the ids that the platform refuses; every
    earlier slice was answered, its rows are dropped, and no later slice is
    requested. *)
Theorem fetchVideoDetails_first_failure (cfg : Config) (up : Upstream)
    (ids : list string) (w w' : World) (e : string) :
  fetchVideoDetails cfg up ids w = (w', Throw e) ->
  let B := YT_VIDEOS_BATCH cfg in
  exists k : nat,
    calls w' = calls w ++ map Call_videos_list (map (batchAt B ids) (seq 0 (S k)))
    /\ disk w' = disk w /\ writes w' = writes w
    /\ videos_list up (batchAt B ids k) = Throw e
    /\ (forall j : nat, (j < k)%nat ->
          exists items, videos_list up (batchAt B ids j) = Ok items)
    /\ Z.of_nat k * B < Z.of_nat (length ids).
Proof.
  intros Hrun B. unfold fetchVideoDetails in Hrun.
  apply fetchLoop_failure in Hrun as (k & Hcalls & Hdisk & Hwrites & Hthrow & Hok & Hk).
  exists k. rewrite Hcalls, map_map. done.
Qed.

Lemma fetchVideoDetails_first_failure_witness :
  exists w',
    fetchVideoDetails Samples.cfg0 Cases.quotaAfterFull Samples.ids120 Samples.world0
    = (w', Throw "quotaExceeded")
    /\ calls w' = map Call_videos_list
                    [take 50 Samples.ids120; take 50 (drop 50 Samples.ids120);
                     drop 100 Samples.ids120].
Proof.
  destruct (fetchVideoDetails Samples.cfg0 Cases.quotaAfterFull Samples.ids120
              Samples.world0) as [w' r] eqn:Hrun.
  assert (Hr : r = Throw "quotaExceeded").
  { vm_compute in Hrun. by injection Hrun as _ <-. }
  subst r. exists w'. split; [reflexivity|].
  destruct (fetchVideoDetails_first_failure Samples.cfg0 Cases.quotaAfterFull
              Samples.ids120 Samples.world0 w' "quotaExceeded" Hrun)
    as (k & Hcalls & _ & _ & Hthrow & Hok & Hk).
  assert (Hk2 : k = 2%nat).
  { destruct k as [|[|[|k]]].
    - vm_compute in Hthrow. discriminate Hthrow.
    - vm_compute in Hthrow. discriminate Hthrow.
    - reflexivity.
    - exfalso. destruct (Hok 2%nat) as [items Hi]; [lia|].
      vm_compute in Hi. discriminate Hi. }
  subst k. rewrite Hcalls. vm_compute. reflexivity.
Defined.

(** ** Metrics: the failure case *)

(** X9. For a stored channel, the metrics computation throws exactly when
    the window start is a valid date that lies before now and some stored
    row has no [publishedAt]: such a row counts as published now, passes
    the filter and fails the sort or the day bucket. With an invalid window
    start nothing passes the filter and nothing is thrown. *)
Theorem makeMetricsFromChannel_throws (rt : Runtime) (db : DB) (cid : string)
    (days : JsNumber) (ch : ChannelState) :
  channels db !! cid = Some ch ->
  (exists e, makeMetricsFromChannel rt db cid days = Throw e)
  <-> ((exists start, windowStart rt days = Some start /\ start < now rt)
       /\ exists v, v ∈ map snd (videos ch) /\ publishedAt v = None).
Proof.
  intros Hch. unfold makeMetricsFromChannel, metricsOfRows. rewrite Hch.
  set (kept := filter (fun v => isAfter _ _ = true) (map snd (videos ch))).
  destruct (forallb (fun v => bool_decide (is_Some (publishedAt v))) kept) eqn:Hall.
  - split; [by intros [e He]|]. intros ((start & Hstart & Hnow) & v & Hv & Hnone).
    exfalso. rewrite forallb_forall in Hall.
    assert (Hk : v ∈ kept).
    { apply list_elem_of_filter. split; [|done].
      unfold publishedInstant, isAfter. rewrite Hnone, Hstart. by apply Z.ltb_lt. }
    apply list_elem_of_In, Hall, bool_decide_eq_true_1 in Hk.
    rewrite Hnone in Hk. by destruct Hk.
  - split; [|by eexists]. intros _.
    apply not_true_iff_false in Hall. rewrite forallb_forall in Hall.
    assert (Hex : exists v, v ∈ kept /\ publishedAt v = None).
    { clear -Hall. induction kept as [|v l IH].
      - exfalso. apply Hall. intros x [].
      - destruct (publishedAt v) as [p|] eqn:Hp.
        + destruct IH as (x & Hx & Hnone).
          * intros Hl. apply Hall. intros x [<-|Hx]; [|by apply Hl].
            apply bool_decide_eq_true_2. by rewrite Hp.
          * exists x. split; [by apply list_elem_of_further|done].
        + exists v. split; [apply list_elem_of_here|done]. }
    destruct Hex as (v & Hv & Hnone).
    apply list_elem_of_filter in Hv as [Hafter Hv].
    unfold publishedInstant, isAfter in Hafter. rewrite Hnone in Hafter.
    destruct (windowStart rt days) as [start|]; [|done].
    apply Z.ltb_lt in Hafter. split; [by exists start|]. by exists v.
Qed.

Lemma makeMetricsFromChannel_throws_witness :
  (exists e, makeMetricsFromChannel Samples.rt0 Cases.dbUndated Samples.canonicalId
               (JsInt 30) = Throw e)
  /\ ~ (exists e, makeMetricsFromChannel Samples.rt0 Cases.dbUndated
                    Samples.canonicalId (JsInt 200000000) = Throw e).
Proof.
  split.
  - apply (makeMetricsFromChannel_throws Samples.rt0 Cases.dbUndated
             Samples.canonicalId (JsInt 30) _ eq_refl).
    split; [eexists; split; [reflexivity|vm_compute; reflexivity]|].
    eexists. split; [apply list_elem_of_further, list_elem_of_here|reflexivity].
  - intros Hthrow.
    apply (makeMetricsFromChannel_throws Samples.rt0 Cases.dbUndated
             Samples.canonicalId (JsInt 200000000) _ eq_refl) in Hthrow.
    destruct Hthrow as [(start & Hstart & _) _]. discriminate Hstart.
Defined.

(** ** Keyword match *)

Lemma append_String (c : ascii) (s t : string) :
  String.append (String c s) t = String c (String.append s t).
Proof. reflexivity. Qed.

Lemma append_Empty (t : string) : String.append "" t = t.
Proof. reflexivity. Qed.

Lemma prefix_append (k t : string) :
  String.prefix k t = true <-> exists post, t = String.append k post.
Proof.
  revert k. induction t as [|b t IH]; intros [|a k]; cbn [String.prefix].
  - split; [intros _; by exists ""|done].
  - split; [done|intros [post Hp]; rewrite append_String in Hp; discriminate Hp].
  - split; [intros _; by exists (String b t)|done].
  - destruct (ascii_dec a b) as [->|Hne].
    + rewrite IH. split; intros [post Hp]; exists post;
        rewrite append_String in *; congruence.
    + split; [done|]. intros [post Hp]. rewrite append_String in Hp. congruence.
Qed.

Lemma includes_substring (t k : string) :
  includes t k = true
  <-> exists pre post, t = String.append pre (String.append k post).
Proof.
  induction t as [|c t IH]; cbn [includes].
  - destruct (String.prefix k "") eqn:Hp.
    + split; [intros _|done]. apply prefix_append in Hp as [post Hp].
      by exists "", post.
    + split; [done|]. intros (pre & post & Heq).
      destruct pre; [|rewrite append_String in Heq; discriminate Heq].
      rewrite append_Empty in Heq.
      assert (String.prefix k "" = true) by (apply prefix_append; by exists post).
      congruence.
  - destruct (String.prefix k (String c t)) eqn:Hp.
    + split; [intros _|done]. apply prefix_append in Hp as [post Hp].
      by exists "", post.
    + rewrite IH. split.
      * intros (pre & post & ->). by exists (String c pre), post.
      * intros (pre & post & Heq). destruct pre as [|c' pre].
        -- rewrite append_Empty in Heq.
           assert (String.prefix k (String c t) = true)
             by (apply prefix_append; by exists post).
           congruence.
        -- rewrite append_String in Heq. injection Heq as _ ->. by exists pre, post.
Qed.

(** X10. A text matches a keyword list exactly when every keyword, in
    lower case, occurs as a contiguous substring of the text in lower
    case; the empty list matches every text. *)
Theorem isMatchAllKeywords_substrings (text : string) (keywords : list string) :
  isMatchAllKeywords text keywords = true
  <-> forall k, k ∈ keywords ->
        exists pre post,
          toLowerCase text
          = String.append pre (String.append (toLowerCase k) post).
Proof.
  unfold isMatchAllKeywords. cbv zeta. rewrite forallb_forall. split.
  - intros Hall k Hk. apply includes_substring, Hall. by apply list_elem_of_In.
  - intros Hall k Hk. apply includes_substring, Hall. by apply list_elem_of_In.
Qed.

(** ** Keyword search: requests and hydrated ids *)

Lemma matchingIds_spec (keywords : list string) (items : list SearchItem) (id : string) :
  id ∈ matchingIds keywords items
  <-> exists it, it ∈ items /\ id_videoId it = Some id /\ id <> ""
                 /\ isMatchAllKeywords (searchTextOf it) keywords = true.
Proof.
  induction items as [|it items IH]; cbn [matchingIds].
  - split; [by intros ?%elem_of_nil|]. by intros (it & ?%elem_of_nil & _).
  - assert (Hskip : (forall id', id_videoId it = Some id' -> id' <> "" ->
                       isMatchAllKeywords (searchTextOf it) keywords = false) ->
                    (id ∈ matchingIds keywords items
                     <-> exists it', it' ∈ it :: items /\ id_videoId it' = Some id
                           /\ id <> ""
                           /\ isMatchAllKeywords (searchTextOf it') keywords = true)).
    { intros Hno. rewrite IH. split.
      - intros (it' & Hin & Hrest). exists it'. split; [by apply list_elem_of_further|done].
      - intros (it' & Hin & Hid & Hne & Hm).
        apply elem_of_cons in Hin as [->|Hin]; [|by exists it'].
        rewrite (Hno id Hid Hne) in Hm. discriminate Hm. }
    destruct (id_videoId it) as [idv|] eqn:Eid; [|apply Hskip; intros; discriminate].
    cbn [truthy]. rewrite negb_involutive.
    destruct (String.eqb_spec idv "") as [->|Hne]; cbn [negb].
    { apply Hskip. intros id' [= <-] Hid'. done. }
    fold (searchTextOf it).
    destruct (isMatchAllKeywords (searchTextOf it) keywords) eqn:Hm; cbn [negb].
    2:{ apply Hskip. intros. done. }
    rewrite elem_of_cons, IH. split.
    + intros [->|(it' & Hin & Hrest)].
      * exists it. split; [apply list_elem_of_here|done].
      * exists it'. split; [by apply list_elem_of_further|done].
    + intros (it' & Hin & Hid & Hne' & Hm').
      apply elem_of_cons in Hin as [->|Hin].
      * left. congruence.
      * right. by exists it'.
Qed.

Lemma searchPages_trace (maxPages : Z) (q pa : string) (keywords : list string) :
  forall (responses : list (result (list SearchItem))) (pages : nat)
         (videoIds : list string) (w : World),
  exists (n : nat) r,
    searchPages maxPages q pa keywords pages responses videoIds w
    = (extend w (map (fun k : nat => Call_search_video q pa (pages + k)) (seq 0 n)), r)
    /\ (n <= length responses)%nat
    /\ (responses <> [] -> (1 <= n)%nat)
    /\ Z.of_nat n <= Z.max 1 (maxPages - Z.of_nat pages)
    /\ forall ids, r = Ok ids ->
         forall id, id ∈ ids ->
           id ∈ videoIds
           \/ exists (k : nat) items it,
                (k < n)%nat /\ responses !! k = Some (Ok items) /\ it ∈ items
                /\ id_videoId it = Some id /\ id <> ""
                /\ isMatchAllKeywords (searchTextOf it) keywords = true.
Proof.
  induction responses as [|r rest IH]; intros pages videoIds w; cbn [searchPages].
  - exists 0%nat, (Ok videoIds). cbn. rewrite extend_nil.
    split; [done|]. split; [done|]. split; [done|]. split; [lia|].
    intros ids [= <-] id Hid. by left.
  - unfold bind, await. destruct r as [items|e].
    2:{ exists 1%nat, (Throw e). cbn [seq map]. rewrite Nat.add_0_r.
        split; [done|]. split; [cbn; lia|]. split; [done|]. split; [lia|done]. }
    assert (Hone : forall id, id ∈ videoIds ++ matchingIds keywords items ->
              id ∈ videoIds
              \/ exists (k : nat) its it,
                   (k < 1)%nat /\ (Ok items :: rest) !! k = Some (Ok its) /\ it ∈ its
                   /\ id_videoId it = Some id /\ id <> ""
                   /\ isMatchAllKeywords (searchTextOf it) keywords = true).
    { intros id Hid. apply elem_of_app in Hid as [Hid|Hid]; [by left|right].
      apply matchingIds_spec in Hid as (it & Hin & Hrest).
      exists 0%nat, items, it. split; [lia|]. split; [done|]. done. }
    destruct (Z.ltb_spec (Z.of_nat (S pages)) maxPages) as [Hmore|Hstop].
    + destruct (IH (S pages) (videoIds ++ matchingIds keywords items)
                  {| calls := calls w ++ [Call_search_video q pa pages];
                     disk := disk w; writes := writes w |})
        as (n & r & Hrun & Hlen & _ & Hbound & Hids).
      exists (S n), r. rewrite Hrun. unfold extend. cbn [calls disk writes].
      split.
      { f_equal. f_equal. rewrite <- app_assoc. f_equal.
        cbn [seq map app]. rewrite Nat.add_0_r. f_equal.
        rewrite <- seq_shift, map_map. apply map_ext. intros k. f_equal. lia. }
      split; [cbn; lia|]. split; [lia|]. split; [lia|].
      intros ids Hr id Hid. destruct (Hids ids Hr id Hid) as [Hold|Hnew].
      * destruct (Hone id Hold) as [Hv|(k & its & it & Hk & Hrest)]; [by left|right].
        exists k, its, it. split; [lia|done].
      * right. destruct Hnew as (k & its & it & Hk & Hlook & Hrest).
        exists (S k), its, it. split; [lia|]. split; [done|done].
    + exists 1%nat, (Ok (videoIds ++ matchingIds keywords items)).
      cbn [seq map]. rewrite Nat.add_0_r.
      split; [done|]. split; [cbn; lia|]. split; [done|]. split; [lia|].
      intros ids [= <-] id Hid. by apply Hone.
Qed.

(** X11. A missing, empty or blank [q] is answered at once with
    [query: null] and the empty metrics; nothing is searched and the world
    stays as it was. *)
Theorem metricsByQuery_blank (cfg : Config) (rt : Runtime) (up : Upstream)
    (qQ : option string) (daysQ : option JsNumber) (w : World) :
  trim (orEmpty qQ) = "" ->
  metricsByQuery cfg rt up qQ daysQ w
  = (w, Ok {| status := 200;
              body := [("query", VNull); ("byDay", VCounts ∅); ("rows", VRows []);
                       ("top", VRows []); ("total", VNum 0)] |}).
Proof.
  intros Hq. unfold metricsByQuery, tryCatch. cbv zeta. by rewrite Hq.
Qed.

Lemma metricsByQuery_blank_witness :
  metricsByQuery Samples.cfg0 Samples.rt0 Samples.withSearch (Some "   ") None
    Samples.world0
  = (Samples.world0,
     Ok {| status := 200;
           body := [("query", VNull); ("byDay", VCounts ∅); ("rows", VRows []);
                    ("top", VRows []); ("total", VNum 0)] |}).
Proof.
  apply (metricsByQuery_blank Samples.cfg0 Samples.rt0 Samples.withSearch
           (Some "   ") None Samples.world0).
  reflexivity.
Defined.

(** X12. The keyword route with a query always answers. When the window
    start is no valid date it answers 500 "Invalid time value" before
    anything is searched. Otherwise it does nothing but this: between 1 and
    max(1, YT_SEARCH_MAX_PAGES) search requests for the pages 0, 1, ... of
    the joined keywords, at most one per page the platform has, followed by
    [videos.list] requests whose ids all come from a returned search item
    with a non-empty video id whose title and description contain every
    keyword. The file is not touched. *)
Theorem metricsByQuery_trace (cfg : Config) (rt : Runtime) (up : Upstream)
    (qQ : option string) (daysQ : option JsNumber) (w : World) :
  trim (orEmpty qQ) <> "" ->
  (windowStart rt (numberParam daysQ 90) = None ->
   metricsByQuery cfg rt up qQ daysQ w
   = (w, Ok {| status := 500; body := [("error", VStr "Invalid time value")] |}))
  /\ (forall start, windowStart rt (numberParam daysQ 90) = Some start ->
      let keywords := keywordsOf (trim (orEmpty qQ)) in
      let q := join " " keywords in
      let publishedAfter := toISOString rt start in
      let responses := searchResponses up q publishedAfter in
      exists (n : nat) (batches : list (list string)) resp,
        metricsByQuery cfg rt up qQ daysQ w
        = (extend w (map (Call_search_video q publishedAfter) (seq 0 n)
                     ++ map Call_videos_list batches), Ok resp)
        /\ (1 <= n <= length responses)%nat
        /\ Z.of_nat n <= Z.max 1 (YT_SEARCH_MAX_PAGES cfg)
        /\ forall id, id ∈ concat batches ->
             exists (k : nat) items it,
               (k < n)%nat /\ responses !! k = Some (Ok items) /\ it ∈ items
               /\ id_videoId it = Some id /\ id <> ""
               /\ isMatchAllKeywords (searchTextOf it) keywords = true).
Proof.
  intros Hq. split.
  { intros Hnone. apply String.eqb_neq in Hq.
    unfold metricsByQuery, tryCatch. cbv zeta. cbn [truthy].
    by rewrite Hq, Hnone. }
  intros start Hstart. cbv zeta.
  rewrite (metricsByQuery_unfold cfg rt up qQ daysQ start Hq Hstart).
  set (keywords := keywordsOf (trim (orEmpty qQ))).
  set (q := join " " keywords).
  set (publishedAfter := toISOString rt start).
  set (responses := searchResponses up q publishedAfter).
  assert (Hne : responses <> []).
  { unfold responses, searchResponses.
    by destruct (search_video up q publishedAfter). }
  unfold tryCatch.
  unfold bind at 1.
  destruct (searchPages_trace (YT_SEARCH_MAX_PAGES cfg) q publishedAfter keywords
              responses 0 [] w) as (n & r & Hrun & Hlen & Hpos & Hbound & Hids).
  rewrite Hrun. specialize (Hpos Hne).
  assert (Hb : Z.of_nat n <= Z.max 1 (YT_SEARCH_MAX_PAGES cfg)) by lia.
  destruct r as [videoIds|e].
  2:{ exists n, [], (errorResponse e). cbn [map]. rewrite app_nil_r.
      split; [done|]. split; [lia|]. split; [done|].
      intros id Hid. by apply elem_of_nil in Hid. }
  assert (Hfrom : forall id, id ∈ videoIds ->
            exists (k : nat) items it,
              (k < n)%nat /\ responses !! k = Some (Ok items) /\ it ∈ items
              /\ id_videoId it = Some id /\ id <> ""
              /\ isMatchAllKeywords (searchTextOf it) keywords = true).
  { intros id Hid. destruct (Hids videoIds eq_refl id Hid) as [Hnil|Hok]; [|done].
    by apply elem_of_nil in Hnil. }
  pose proof (YT_VIDEOS_BATCH_range cfg) as HB.
  set (w1 := extend w (map (fun k : nat => Call_search_video q publishedAfter (0 + k))
                         (seq 0 n))).
  destruct (fetchLoop_batches up (YT_VIDEOS_BATCH cfg) videoIds (proj1 HB)
              (length videoIds) 0%nat [] w1)
    as (bs & w2 & r2 & Hrun2 & Hcalls & Hdisk & Hwrites & _ & Hpre & _); [lia|].
  assert (Hw2 : w2 = extend w (map (Call_search_video q publishedAfter) (seq 0 n)
                               ++ map Call_videos_list bs)).
  { destruct w2 as [c2 d2 n2]. cbn in Hcalls, Hdisk, Hwrites. subst c2 d2 n2.
    unfold extend. cbn. by rewrite app_assoc. }
  assert (Hin : forall id, id ∈ concat bs ->
            exists (k : nat) items it,
              (k < n)%nat /\ responses !! k = Some (Ok items) /\ it ∈ items
              /\ id_videoId it = Some id /\ id <> ""
              /\ isMatchAllKeywords (searchTextOf it) keywords = true).
  { intros id Hid. apply Hfrom. destruct Hpre as [tail Htail].
    rewrite drop_0 in Htail. rewrite Htail. apply elem_of_app. by left. }
  unfold bind, fetchVideoDetails. change 0 with (Z.of_nat 0) at 1.
  rewrite Hrun2, Hw2.
  destruct r2 as [fetched|e].
  - destruct (metricsOfRows rt _ fetched) as [m|e].
    + eexists n, bs, _. split; [reflexivity|]. split; [lia|]. done.
    + eexists n, bs, _. split; [reflexivity|]. split; [lia|]. done.
  - eexists n, bs, _. split; [reflexivity|]. split; [lia|]. done.
Qed.

Lemma metricsByQuery_trace_witness :
  (exists (n : nat) batches resp,
     metricsByQuery Samples.cfg0 Samples.rt0 Samples.withSearch
       (Some "AC, air conditioner") None Samples.world0
     = (extend Samples.world0
          (map (Call_search_video "AC air conditioner" "2023-12-11T00:00:00.000Z")
               (seq 0 n)
           ++ map Call_videos_list batches), Ok resp)
     /\ (1 <= n <= 1)%nat)
  /\ metricsByQuery Samples.cfg0 Samples.rt0 Samples.withSearch
       (Some "AC, air conditioner") (Some JsNaN) Samples.world0
     = (Samples.world0,
        Ok {| status := 500; body := [("error", VStr "Invalid time value")] |}).
Proof.
  split.
  - destruct (proj2 (metricsByQuery_trace Samples.cfg0 Samples.rt0 Samples.withSearch
                       (Some "AC, air conditioner") None Samples.world0
                       ltac:(discriminate)) 1702252800000 eq_refl)
      as (n & batches & resp & Hrun & Hn & _).
    exists n, batches, resp. split; [exact Hrun|exact Hn].
  - apply (proj1 (metricsByQuery_trace Samples.cfg0 Samples.rt0 Samples.withSearch
                    (Some "AC, air conditioner") (Some JsNaN) Samples.world0
                    ltac:(discriminate))).
    reflexivity.
Defined.

(** ** LLM providers *)

Lemma callProvider_outcome (cfg : Config) (up : Upstream) (p : Provider)
    (sample : list SampleRow) (days : Z) (w w' : World) (r : result string) :
  callProvider cfg up p sample days w = (w', r) ->
  let c := match p with openai => Call_openai | gemini => Call_gemini end in
  (w' = w /\ exists e, r = Throw e)
  \/ (w' = logged c w /\ ((exists e, r = Throw e) \/ exists t, r = Ok t /\ t <> "")).
Proof.
  destruct p; cbn [callProvider]; unfold callOpenAI, callGemini, bind, await, throw, ret;
    cbv zeta.
  - destruct (negb (truthy (Some (OPENAI_KEY cfg)))).
    { intros Heq. simplify_eq. left. eauto. }
    destruct (openai_create up sample days) as [[c|]|e]; cbn.
    + destruct (String.eqb_spec (trim c) ""); cbn; intros Heq; simplify_eq; right;
        (split; [done|]); [left|right]; eauto.
    + intros Heq. simplify_eq. right. split; [done|]. left. eauto.
    + intros Heq. simplify_eq. right. split; [done|]. left. eauto.
  - destruct (negb (truthy (Some (GEMINI_KEY cfg)))).
    { intros Heq. simplify_eq. left. eauto. }
    destruct (gemini_generateContent up sample days) as [resp|e]; cbn.
    + destruct (String.eqb_spec (orEmpty resp) ""); cbn; intros Heq; simplify_eq;
        right; (split; [done|]); [left|right]; eauto.
    + intros Heq. simplify_eq. right. split; [done|]. left. eauto.
Qed.

Lemma countCalls_logged (p : Call -> bool) (c : Call) (w : World) :
  countCalls p (logged c w) = (countCalls p w + (if p c then 1 else 0))%nat.
Proof.
  unfold countCalls, logged. cbn [calls].
  rewrite List.filter_app, length_app. cbn. by destruct (p c).
Qed.

(** X13. A text that [buildInsightText] returns is never empty and comes
    from a provider that was called; whatever the outcome, each provider's
    API is called at most once, at most one fallback is logged, and the
    file is left alone. *)
Theorem buildInsightText_calls (cfg : Config) (up : Upstream)
    (sample : list SampleRow) (days : Z) (w w' : World) (r : result string) :
  buildInsightText cfg up sample days w = (w', r) ->
  (countCalls isOpenAICall w <= countCalls isOpenAICall w'
     <= S (countCalls isOpenAICall w))%nat
  /\ (countCalls isGeminiCall w <= countCalls isGeminiCall w'
        <= S (countCalls isGeminiCall w))%nat
  /\ (fallbacks w <= fallbacks w' <= S (fallbacks w))%nat
  /\ disk w' = disk w /\ writes w' = writes w
  /\ forall text, r = Ok text ->
       text <> ""
       /\ (countCalls isOpenAICall w + countCalls isGeminiCall w
           < countCalls isOpenAICall w' + countCalls isGeminiCall w')%nat.
Proof.
  assert (Hf : forall c v, fallbacks (logged c v)
                           = (countCalls isWarn v + (if isWarn c then 1 else 0))%nat).
  { intros c v. apply (countCalls_logged isWarn). }
  assert (Hf0 : forall v, fallbacks v = countCalls isWarn v) by done.
  unfold buildInsightText, tryCatch.
  destruct (pickProvider cfg).
  - destruct (callOpenAI cfg up sample days w) as [w1 r1] eqn:E1.
    pose proof (callProvider_outcome cfg up openai sample days w w1 r1 E1) as H1.
    cbv zeta in H1.
    destruct r1 as [t|e].
    + intros Heq. simplify_eq.
      destruct H1 as [[_ [e He]]|[-> [[e He]|(t' & Ht & Hne)]]]; try discriminate.
      simplify_eq. rewrite !countCalls_logged, Hf, Hf0. cbn.
      split; [lia|]. split; [lia|]. split; [lia|]. split; [done|]. split; [done|].
      intros text Heq. simplify_eq. split; [done|lia].
    + unfold bind, warn, await.
      set (w2 := {| calls := calls w1 ++ [Console_warn _];
                    disk := disk w1; writes := writes w1 |}).
      intros E2.
      pose proof (callProvider_outcome cfg up gemini sample days w2 w' r E2) as H2.
      cbv zeta in H2.
      assert (Hw2 : w2 = logged (Console_warn
                "[insight] openai failed, fallback->gemini:") w1) by done.
      destruct H1 as [[-> _]|[-> _]];
        destruct H2 as [[-> [e2 ->]]|[-> [[e2 ->]|(t' & -> & Hne)]]];
        rewrite ?Hw2, ?countCalls_logged, ?Hf, ?Hf0, ?countCalls_logged; cbn;
        (split; [lia|]); (split; [lia|]); (split; [lia|]); (split; [done|]);
        (split; [done|]);
        intros text Heq; simplify_eq; (split; [done|lia]).
  - destruct (callGemini cfg up sample days w) as [w1 r1] eqn:E1.
    pose proof (callProvider_outcome cfg up gemini sample days w w1 r1 E1) as H1.
    cbv zeta in H1.
    destruct r1 as [t|e].
    + intros Heq. simplify_eq.
      destruct H1 as [[_ [e He]]|[-> [[e He]|(t' & Ht & Hne)]]]; try discriminate.
      simplify_eq. rewrite !countCalls_logged, Hf, Hf0. cbn.
      split; [lia|]. split; [lia|]. split; [lia|]. split; [done|]. split; [done|].
      intros text Heq. simplify_eq. split; [done|lia].
    + unfold bind, warn, await.
      set (w2 := {| calls := calls w1 ++ [Console_warn _];
                    disk := disk w1; writes := writes w1 |}).
      intros E2.
      pose proof (callProvider_outcome cfg up openai sample days w2 w' r E2) as H2.
      cbv zeta in H2.
      assert (Hw2 : w2 = logged (Console_warn
                "[insight] gemini failed, fallback->openai:") w1) by done.
      destruct H1 as [[-> _]|[-> _]];
        destruct H2 as [[-> [e2 ->]]|[-> [[e2 ->]|(t' & -> & Hne)]]];
        rewrite ?Hw2, ?countCalls_logged, ?Hf, ?Hf0, ?countCalls_logged; cbn;
        (split; [lia|]); (split; [lia|]); (split; [lia|]); (split; [done|]);
        (split; [done|]);
        intros text Heq; simplify_eq; (split; [done|lia]).
Qed.

Lemma buildInsightText_calls_witness :
  exists w',
    buildInsightText Samples.cfg0 Samples.geminiOnly [] 30 Samples.world0
    = (w', Ok "report")
    /\ (countCalls isOpenAICall w' <= 1)%nat /\ (countCalls isGeminiCall w' <= 1)%nat
    /\ "report" <> "".
Proof.
  destruct (buildInsightText Samples.cfg0 Samples.geminiOnly [] 30 Samples.world0)
    as [w' r] eqn:Hrun.
  assert (Hr : r = Ok "report") by (vm_compute in Hrun; by injection Hrun as _ <-).
  subst r.
  destruct (buildInsightText_calls Samples.cfg0 Samples.geminiOnly [] 30
              Samples.world0 w' (Ok "report") Hrun)
    as (Ho & Hg & _ & _ & _ & Htext).
  destruct (Htext "report" eq_refl) as [Hne _].
  exists w'. split; [reflexivity|].
  split; [exact (proj2 Ho)|]. split; [exact (proj2 Hg)|exact Hne].
Defined.

(** X14. With neither key configured no provider API is called: the first
    choice fails, one fallback is logged, and [buildInsightText] throws the
    other provider's "not configured" error. *)
Theorem buildInsightText_no_keys (cfg : Config) (up : Upstream)
    (sample : list SampleRow) (days : Z) (w : World) :
  OPENAI_KEY cfg = "" -> GEMINI_KEY cfg = "" ->
  buildInsightText cfg up sample days w
  = match pickProvider cfg with
    | openai =>
        (logged (Console_warn "[insight] openai failed, fallback->gemini:") w,
         Throw "GEMINI_API_KEY not configured")
    | gemini =>
        (logged (Console_warn "[insight] gemini failed, fallback->openai:") w,
         Throw "OPENAI_API_KEY not configured")
    end.
Proof.
  intros Ho Hg. unfold buildInsightText, tryCatch, callOpenAI, callGemini.
  rewrite Ho, Hg. by destruct (pickProvider cfg).
Qed.

Lemma buildInsightText_no_keys_witness :
  buildInsightText Cases.cfgNoKeys Samples.geminiOnly [] 30 Samples.world0
  = ({| calls := [Console_warn "[insight] openai failed, fallback->gemini:"];
        disk := None; writes := 0 |},
     Throw "GEMINI_API_KEY not configured").
Proof.
  apply (buildInsightText_no_keys Cases.cfgNoKeys Samples.geminiOnly [] 30
           Samples.world0 eq_refl eq_refl).
Defined.

(** ** The resolve route *)

Lemma videosOf_insert (db : DB) (cid c : string) (ch' : ChannelState) :
  videos ch' = videosOf db cid ->
  videosOf {| channels := <[cid := ch']> (channels db) |} c = videosOf db c.
Proof.
  intros Hv. unfold videosOf. cbn [channels].
  destruct (decide (c = cid)) as [->|Hne].
  - by rewrite lookup_insert_eq.
  - by rewrite lookup_insert_ne.
Qed.

(** X15. The resolve route always answers, with 200 or 500. A 500 leaves
    the store as it was. A 200 means that the handle was resolved to a
    channel id and answers the metadata that is now stored under that id,
    the file having been written once; every other channel is stored as it
    was. In no case does the route change the videos of any channel. *)
Theorem resolveRoute_keeps_videos (rt : Runtime) (up : Upstream) (handle : string)
    (w : World) :
  exists w' resp,
    resolveRoute rt up handle w = (w', Ok resp)
    /\ ((status resp = 500 /\ storedDB w' = storedDB w)
        \/ (status resp = 200
            /\ exists w1 cid m,
                 resolveToChannelId up handle w = (w1, Ok cid)
                 /\ body resp = metaJson m
                 /\ channels (storedDB w') !! cid ≫= meta = Some m
                 /\ (forall c, c <> cid ->
                       channels (storedDB w') !! c = channels (storedDB w) !! c)
                 /\ writes w' = S (writes (loadDB w).1)))
    /\ forall c, videosOf (storedDB w') c = videosOf (storedDB w) c.
Proof.
  unfold resolveRoute, tryCatch.
  destruct (io_resolveToChannelId up handle) as [[cid|e] Hres];
    destruct (Hres w) as [cs Hrun]; unfold bind at 1; rewrite Hrun.
  2:{ eexists _, _. split; [reflexivity|]. split; [by left|]. done. }
  destruct (loadDB_run (extend w cs)) as (wl & Hload & Hdisk & Hcalls & _).
  rewrite storedDB_extend in Hload, Hdisk.
  unfold bind at 1. rewrite Hload. cbv zeta.
  set (db := storedDB w) in *.
  assert (Htail : forall mm : M ChannelMeta, (exists r, io_only mm r) ->
    exists w' resp,
      match (let! m := mm in
             let! _ := saveDB {| channels :=
                          <[cid := withMeta (default newChannel (channels db !! cid))
                                     (Some m)]> (channels db) |} in
             ret {| status := 200; body := metaJson m |}) wl with
      | (w', Ok a) => (w', Ok a)
      | (w', Throw e) => ret (errorResponse e) w'
      end = (w', Ok resp)
      /\ ((status resp = 500 /\ storedDB w' = db)
          \/ (status resp = 200
              /\ exists w1 cid0 m,
                   (extend w cs, Ok cid) = (w1, Ok cid0)
                   /\ body resp = metaJson m
                   /\ channels (storedDB w') !! cid0 ≫= meta = Some m
                   /\ (forall c, c <> cid0 ->
                         channels (storedDB w') !! c = channels db !! c)
                   /\ writes w' = S (writes (loadDB w).1)))
      /\ forall c, videosOf (storedDB w') c = videosOf db c).
  { intros mm [[m|e] Hf]; destruct (Hf wl) as [cs2 Hrun2];
      unfold bind at 1; rewrite Hrun2.
    2:{ eexists _, _. split; [reflexivity|]. split.
        - left. split; [done|]. unfold storedDB at 1. cbn. by rewrite Hdisk.
        - intros c. unfold storedDB at 1. cbn. by rewrite Hdisk. }
    unfold bind, saveDB, ret. cbn [calls disk writes extend].
    eexists _, _. split; [reflexivity|]. split.
    - right. split; [done|]. exists (extend w cs), cid, m.
      split; [done|]. split; [done|].
      unfold storedDB. cbn. rewrite lookup_insert_eq. cbn.
      split; [done|]. split.
      + intros c Hc. by rewrite lookup_insert_ne.
      + f_equal.
        assert (Hwl : writes (loadDB w).1 = writes wl).
        { clear -Hload. unfold loadDB, extend in *. cbn in *.
          destruct (disk w); by simplify_eq. }
        by rewrite Hwl.
    - intros c. unfold storedDB at 1. cbn [disk default from_option id].
      apply videosOf_insert. cbn. unfold videosOf.
      by destruct (channels db !! cid). }
  apply Htail.
  destruct (channels db !! cid ≫= meta) as [c|]; [|apply io_fetchChannelMeta].
  destruct (match dayjs_parse rt (meta_fetchedAt c) with
            | Some t => _ | None => false end);
    [eexists; apply io_ret|apply io_fetchChannelMeta].
Qed.

(** X16. A canonical channel id whose stored metadata is less than 24
    full hours old is answered from the store without any upstream call;
    the file is still rewritten, with the content it had. *)
Theorem resolveRoute_cached (rt : Runtime) (up : Upstream) (handle : string)
    (db : DB) (ch : ChannelState) (m : ChannelMeta) (t : Z) (w : World) :
  isCanonicalChannelId handle = true ->
  disk w = Some db ->
  channels db !! handle = Some ch ->
  meta ch = Some m ->
  dayjs_parse rt (meta_fetchedAt m) = Some t ->
  Z.quot (now rt - t) 3600000 < 24 ->
  resolveRoute rt up handle w
  = ({| calls := calls w; disk := Some db; writes := S (writes w) |},
     Ok {| status := 200; body := metaJson m |}).
Proof.
  intros Hcanon Hdisk Hch Hmeta Hparse Hfresh.
  unfold resolveRoute, tryCatch, resolveToChannelId. rewrite Hcanon.
  unfold bind, ret, loadDB. rewrite Hdisk. cbv zeta.
  rewrite Hch. cbn [mbind option_bind]. rewrite Hmeta, Hparse.
  apply Z.ltb_lt in Hfresh. rewrite Hfresh.
  unfold saveDB. cbn [default from_option id]. do 3 f_equal.
  assert (Hsame : withMeta ch (Some m) = ch).
  { destruct ch. cbn in *. by subst. }
  rewrite Hsame, insert_id by done. by destruct db.
Qed.

Lemma resolveRoute_cached_witness :
  resolveRoute Samples.rt0 Samples.offline Samples.canonicalId
    {| calls := []; disk := Some Cases.dbCached; writes := 0 |}
  = ({| calls := []; disk := Some Cases.dbCached; writes := 1 |},
     Ok {| status := 200; body := metaJson Cases.metaNoon |}).
Proof.
  apply (resolveRoute_cached Samples.rt0 Samples.offline Samples.canonicalId
           Cases.dbCached Cases.channelCached Cases.metaNoon 1710028800000
           {| calls := []; disk := Some Cases.dbCached; writes := 0 |}).
  - reflexivity.
  - reflexivity.
  - reflexivity.
  - reflexivity.
  - vm_compute. reflexivity.
  - vm_compute. reflexivity.
Defined.

(** ** Ingestion: what is stored *)

Lemma lookupVideo_setVideo (vs : list (string * VideoRecord)) (v : VideoRecord)
    (k : string) :
  lookupVideo k (setVideo vs v)
  = if String.eqb (videoId v) k then Some v else lookupVideo k vs.
Proof.
  induction vs as [|[k' old] vs IH]; cbn [setVideo lookupVideo]; [done|].
  destruct (String.eqb_spec k' (videoId v)) as [->|Hne]; cbn [lookupVideo].
  - by destruct (String.eqb (videoId v) k).
  - rewrite IH. destruct (String.eqb_spec k' k) as [->|Hk]; [|done].
    destruct (String.eqb_spec (videoId v) k); [congruence|done].
Qed.

Lemma lookupVideo_fold (details : list VideoRecord) (vs : list (string * VideoRecord))
    (k : string) :
  lookupVideo k (fold_left setVideo details vs)
  = match lastFetched k details with
    | Some d => Some d
    | None => lookupVideo k vs
    end.
Proof.
  unfold lastFetched. revert vs.
  induction details as [|d ds IH]; intros vs; cbn [fold_left]; [done|].
  rewrite IH, lookupVideo_setVideo, filter_cons.
  destruct (decide (videoId d = k)) as [Hk|Hk].
  - rewrite last_cons. apply String.eqb_eq in Hk. rewrite Hk.
    by destruct (last (filter (fun d0 => videoId d0 = k) ds)).
  - apply String.eqb_neq in Hk. by rewrite Hk.
Qed.

Lemma fetchLoop_rows up (B : Z) (ids : list string) :
  forall (fuel : nat) (i : Z) (rows : list VideoRecord) (w w' : World)
         (rs : list VideoRecord),
    fetchLoop fuel up B ids i rows w = (w', Ok rs) ->
    exists batches,
      rs = rows ++ concat (map (rowsOfBatch up) batches)
      /\ calls w' = calls w ++ map Call_videos_list batches.
Proof.
  induction fuel as [|fuel IH]; intros i rows w w' rs; rewrite fetchLoop_unfold;
    destruct (i <? Z.of_nat (length ids));
    try (unfold ret; intros Heq; simplify_eq; exists []; cbn;
         by rewrite !app_nil_r).
  cbn zeta. unfold bind, await.
  destruct (videos_list up (jsSlice i (i + B) ids)) as [items|e] eqn:Ecall; [|done].
  intros Hrun. apply IH in Hrun as (bs & -> & Hcalls).
  exists (jsSlice i (i + B) ids :: bs). cbn [map concat]. unfold rowsOfBatch at 2.
  rewrite Ecall, Hcalls. cbn [calls]. by rewrite <- !app_assoc.
Qed.

(** The handler ends with an error, with [added: 0] before anything is
    stored, or by saving the channel with the fetched rows merged into its
    videos. *)
Lemma ingestWith_merge cfg rt up req db :
  (exists e, io_only (ingestWith cfg rt up req db) (Throw e))
  \/ (exists cid,
        io_only (ingestWith cfg rt up req db) (Ok (ingestOk 0 cid (req_backfill req))))
  \/ (exists cid ids (details : list VideoRecord) ch3,
        io_only (fetchVideoDetails cfg up ids) (Ok details)
        /\ videos ch3
           = fold_left setVideo details
               (videos (default newChannel (channels db !! cid)))
        /\ saves (ingestWith cfg rt up req db)
                 {| channels := <[cid := ch3]> (channels db) |}
                 (Ok (ingestOk (Z.of_nat (length details)) cid (req_backfill req)))).
Proof.
  unfold ingestWith.
  destruct (io_channelIdOrResolve up (req_channelId req) (req_handle req))
    as [[cido|e] Ha].
  2:{ left. exists e. by apply io_bind_throw. }
  destruct cido as [cid|].
  2:{ left. eexists. io_step Ha. apply io_throw. }
  destruct (truthy (Some cid)) eqn:Ht.
  2:{ left. eexists. io_step Ha. rewrite Ht. apply io_throw. }
  destruct (io_getUploadsPlaylistId up cid) as [[uploadsId|e] Hb].
  2:{ left. exists e. io_step Ha. rewrite Ht. cbn [negb]. by apply io_bind_throw. }
  set (ch := default newChannel (channels db !! cid)).
  destruct (io_listNewVideoIds cfg rt up uploadsId (req_since req)
              (lastSeenVideoId ch) (req_backfill req)) as [[newList|e] Hc].
  2:{ left. exists e. io_step Ha. rewrite Ht. cbn [negb].
      io_step Hb. by apply io_bind_throw. }
  destruct (length (map cand_id newList) =? 0)%nat eqn:Hlen.
  { right. left. exists cid.
    io_step Ha. rewrite Ht. cbn [negb]. io_step Hb. io_step Hc.
    rewrite Hlen. apply io_ret. }
  destruct (io_fetchVideoDetails cfg up (map cand_id newList)) as [[details|e] Hd].
  2:{ left. exists e. io_step Ha. rewrite Ht. cbn [negb].
      io_step Hb. io_step Hc. rewrite Hlen. by apply io_bind_throw. }
  set (ch1 := withVideos ch (fold_left setVideo details (videos ch))).
  set (ch2 := if negb (req_backfill req)
              then withCursor ch1
                     (jsOr (cand_id <$> last newList) (lastSeenVideoId ch1))
                     (jsOr (last newList ≫= cand_publishedAt) (lastPublishedAt ch1))
              else ch1).
  assert (Hv2 : videos ch2 = fold_left setVideo details (videos ch)).
  { unfold ch2. by destruct (negb (req_backfill req)). }
  assert (Hmeta : exists ch3,
            io_only (match meta ch2 with
                     | Some _ => ret ch2
                     | None =>
                         tryCatch
                           (let! m := fetchChannelMeta rt up cid in
                            ret (withMeta ch2 (Some m)))
                           (fun _ => ret ch2)
                     end) (Ok ch3)
            /\ videos ch3 = videos ch2).
  { destruct (meta ch2).
    - exists ch2. split; [apply io_ret|done].
    - destruct (io_fetchChannelMeta rt up cid) as [[m|e] Hm].
      + exists (withMeta ch2 (Some m)). split; [|done].
        intros w. destruct (Hm w) as [cs Hr]. exists cs.
        unfold tryCatch, bind, ret. by rewrite Hr.
      + exists ch2. split; [|done].
        intros w. destruct (Hm w) as [cs Hr]. exists cs.
        unfold tryCatch, bind, ret. by rewrite Hr. }
  destruct Hmeta as (ch3 & Hm & Hv3).
  right. right. exists cid, (map cand_id newList), details, ch3.
  split; [done|]. split; [by rewrite Hv3|].
  save_step Ha. rewrite Ht. cbn [negb]. save_step Hb. save_step Hc.
  rewrite Hlen. save_step Hd. save_step Hm. apply saves_saveDB.
Qed.

Lemma ingest_run cfg rt up req w r :
  (io_only (ingestWith cfg rt up req (storedDB w)) r ->
   exists w', ingest cfg rt up req w = (w', Ok (answer r))
              /\ storedDB w' = storedDB w)
  /\ (forall db', saves (ingestWith cfg rt up req (storedDB w)) db' r ->
      exists w', ingest cfg rt up req w = (w', Ok (answer r))
                 /\ storedDB w' = db').
Proof.
  split.
  - intros Hio. destruct (ingest_first_io _ _ _ _ _ _ Hio) as (w' & Hrun & Hd).
    exists w'. split; [done|]. unfold storedDB at 1. by rewrite Hd.
  - intros db' Hs. destruct (ingest_first_saves _ _ _ _ _ _ _ Hs) as (w' & Hrun & Hd).
    exists w'. split; [done|]. unfold storedDB at 1. by rewrite Hd.
Qed.

(** X17. Ingestion always answers, with 200 or 500, and a 500 leaves the
    store as it was. An answer names the one channel the run may have
    changed: every other channel is stored as before. In the named channel
    each video id holds the last fetched row with that id, or else what it
    held before, so no stored video is ever removed; [added] counts the
    fetched rows, all of them rows of [videos.list] answers. *)
Theorem ingest_merges (cfg : Config) (rt : Runtime) (up : Upstream)
    (req : IngestRequest) (w : World) :
  exists w' resp,
    ingest cfg rt up req w = (w', Ok resp)
    /\ ((status resp = 500 /\ storedDB w' = storedDB w)
        \/ (status resp = 200
            /\ exists cid (details : list VideoRecord) batches,
                 field "channelId" (body resp) = Some (VStr cid)
                 /\ field "added" (body resp) = Some (VNum (Z.of_nat (length details)))
                 /\ details = concat (map (rowsOfBatch up) batches)
                 /\ (forall c, c <> cid ->
                       channels (storedDB w') !! c = channels (storedDB w) !! c)
                 /\ forall k,
                      lookupVideo k (videosOf (storedDB w') cid)
                      = match lastFetched k details with
                        | Some d => Some d
                        | None => lookupVideo k (videosOf (storedDB w) cid)
                        end)).
Proof.
  destruct (ingestWith_merge cfg rt up req (storedDB w))
    as [[e He]|[[cid Hz]|(cid & ids & details & ch3 & Hd & Hv & Hs)]].
  - destruct (proj1 (ingest_run cfg rt up req w _) He) as (w' & Hrun & Hst).
    exists w', (ingestError e). split; [done|]. by left.
  - destruct (proj1 (ingest_run cfg rt up req w _) Hz) as (w' & Hrun & Hst).
    exists w', (ingestOk 0 cid (req_backfill req)). split; [done|]. right.
    split; [done|]. exists cid, [], []. rewrite Hst. by repeat split.
  - destruct (proj2 (ingest_run cfg rt up req w _) _ Hs) as (w' & Hrun & Hst).
    exists w', (ingestOk (Z.of_nat (length details)) cid (req_backfill req)).
    split; [done|]. right. split; [done|].
    destruct (Hd Samples.world0) as [cs Hfetch].
    unfold fetchVideoDetails in Hfetch.
    apply fetchLoop_rows in Hfetch as (batches & Hrows & _).
    exists cid, details, batches. rewrite Hst. cbn [channels].
    split; [done|]. split; [done|]. split; [done|]. split.
    + intros c Hc. by rewrite lookup_insert_ne.
    + intros k. unfold videosOf at 1. cbn [channels].
      rewrite lookup_insert_eq, Hv, lookupVideo_fold.
      unfold videosOf. by destruct (channels (storedDB w) !! cid).
Qed.

(** ** Ingestion: errors and the cursor *)

(** X18. An ingestion request with neither a channel id nor a handle is
    refused with 500 "channelId/handle required" before anything is
    called; the store is as it was. *)
Theorem ingest_requires_channel (cfg : Config) (rt : Runtime) (up : Upstream)
    (req : IngestRequest) (w : World) :
  truthy (req_channelId req) = false ->
  truthy (req_handle req) = false ->
  exists w',
    ingest cfg rt up req w = (w', Ok (ingestError "channelId/handle required"))
    /\ calls w' = calls w /\ storedDB w' = storedDB w.
Proof.
  intros Hc Hh. destruct (loadDB_run w) as (wl & Hload & Hdisk & Hcalls & _).
  exists wl. unfold ingest, tryCatch, bind at 1. rewrite Hload.
  unfold ingestWith, channelIdOrResolve. rewrite Hc.
  split; [|split; [done|unfold storedDB at 1; by rewrite Hdisk]].
  destruct (req_handle req) as [h|]; [rewrite Hh|]; reflexivity.
Qed.

Lemma ingest_requires_channel_witness :
  exists w',
    ingest Samples.cfg0 Samples.rt0 (Samples.withFeed Samples.feedABX)
      {| req_handle := Some ""; req_channelId := None; req_since := None;
         req_backfill := false |} Samples.world3
    = (w', Ok (ingestError "channelId/handle required"))
    /\ calls w' = [] /\ storedDB w' = Samples.db3.
Proof.
  apply (ingest_requires_channel Samples.cfg0 Samples.rt0
           (Samples.withFeed Samples.feedABX)
           {| req_handle := Some ""; req_channelId := None; req_since := None;
              req_backfill := false |} Samples.world3 eq_refl eq_refl).
Defined.

(** X19. A channel for which [channels.list] returns no item, or an item
    without uploads playlist, cannot be ingested: the route answers 500
    "uploads playlist not found" after that one request and stores
    nothing. *)
Theorem ingest_unknown_channel (cfg : Config) (rt : Runtime) (up : Upstream)
    (req : IngestRequest) (cid : string) (item : option ChannelItem) (w : World) :
  req_channelId req = Some cid -> cid <> "" ->
  channels_list up cid = Ok item ->
  truthy (item ≫= ci_uploads) = false ->
  exists w',
    ingest cfg rt up req w = (w', Ok (ingestError "uploads playlist not found"))
    /\ calls w' = calls w ++ [Call_channels_list cid]
    /\ storedDB w' = storedDB w.
Proof.
  intros Hc Hne Hlist Hup. destruct (loadDB_run w) as (wl & Hload & Hdisk & Hcalls & _).
  apply String.eqb_neq in Hne.
  exists (logged (Call_channels_list cid) wl).
  unfold ingest, tryCatch, bind at 1. rewrite Hload.
  unfold ingestWith, channelIdOrResolve. rewrite Hc. cbn [truthy]. rewrite Hne.
  cbn [negb]. unfold bind at 1. unfold ret at 1. cbn [negb].
  unfold getUploadsPlaylistId, bind, await. rewrite Hlist.
  split; [|split; [cbn; by rewrite Hcalls|unfold storedDB at 1; cbn; by rewrite Hdisk]].
  destruct (item ≫= ci_uploads) as [u|]; rewrite ?Hup, ?Hne; reflexivity.
Qed.

Lemma ingest_unknown_channel_witness :
  exists w',
    ingest Samples.cfg0 Samples.rt0 Samples.offline (Samples.ingestABX false)
      Samples.world3
    = (w', Ok (ingestError "uploads playlist not found"))
    /\ calls w' = [Call_channels_list Samples.canonicalId]
    /\ storedDB w' = Samples.db3.
Proof.
  apply (ingest_unknown_channel Samples.cfg0 Samples.rt0 Samples.offline
           (Samples.ingestABX false) Samples.canonicalId None Samples.world3
           eq_refl).
  - discriminate.
  - reflexivity.
  - reflexivity.
Defined.

Lemma candidatesOf_take_head (items : list PlaylistItem) (n : nat) (c : Candidate) :
  head (candidatesOf (take n items)) = Some c -> head (candidatesOf items) = Some c.
Proof.
  intros Hh. rewrite <- (take_drop n items). unfold candidatesOf in *.
  rewrite omap_app. by destruct (omap candidateOf (take n items)).
Qed.

(** X20. Where an incremental ingestion can move the cursor: for a
    channel whose feed pages all arrive, the cursor after the run is the
    cursor before it, or else the newest upload of the feed that carries a
    video id, with that upload's publication date if it has one. *)
Theorem ingest_cursor_newest (cfg : Config) (rt : Runtime) (up : Upstream)
    (req : IngestRequest) (cid uploads : string) (item : ChannelItem)
    (pages : list (list PlaylistItem)) (w : World) :
  req_backfill req = false ->
  req_channelId req = Some cid -> cid <> "" ->
  channels_list up cid = Ok (Some item) ->
  ci_uploads item = Some uploads ->
  playlistItems_list up uploads = map Ok pages ->
  exists w' resp,
    ingest cfg rt up req w = (w', Ok resp)
    /\ (cursorOf (storedDB w') cid = cursorOf (storedDB w) cid
        \/ exists c,
             head (candidatesOf (concat pages)) = Some c
             /\ cursorOf (storedDB w') cid
                = (Some (cand_id c),
                   jsOr (cand_publishedAt c) (cursorOf (storedDB w) cid).2)).
Proof.
  intros Hbf Hc Hne Hlist Hup Hfeed.
  destruct (ingestWith_cases cfg rt up req (storedDB w))
    as [[e He]|[[cid' Hz]|(cid' & uploadsId & newList & c & details & ch3 &
                           Ha & Ht & Hb & Hn & Hlast & Hseen & Hpub & Hs)]].
  - destruct (proj1 (ingest_run cfg rt up req w _) He) as (w' & Hrun & Hst).
    exists w', (ingestError e). split; [done|]. left. by rewrite Hst.
  - destruct (proj1 (ingest_run cfg rt up req w _) Hz) as (w' & Hrun & Hst).
    eexists w', _. split; [exact Hrun|]. left. by rewrite Hst.
  - destruct (proj2 (ingest_run cfg rt up req w _) _ Hs) as (w' & Hrun & Hst).
    eexists w', _. split; [exact Hrun|]. right.
    assert (Hcid : cid' = cid).
    { destruct (Ha Samples.world0) as [cs Hra]. unfold channelIdOrResolve in Hra.
      rewrite Hc in Hra. cbn [truthy] in Hra.
      apply String.eqb_neq in Hne. rewrite Hne in Hra. cbn [negb] in Hra.
      unfold ret in Hra. congruence. }
    subst cid'.
    assert (Hu : uploadsId = uploads).
    { destruct (Hb Samples.world0) as [cs Hrb].
      unfold getUploadsPlaylistId, bind, await in Hrb. rewrite Hlist in Hrb.
      change (Some item ≫= ci_uploads) with (ci_uploads item) in Hrb.
      rewrite Hup in Hrb.
      destruct (truthy (Some uploads)); unfold ret, throw in Hrb; congruence. }
    subst uploadsId.
    set (ch := default newChannel (channels (storedDB w) !! cid)) in *.
    assert (Hhead : head (candidatesOf (concat pages)) = Some c).
    { destruct (Hn Samples.world0) as [cs Hrn].
      destruct (cutoffOf rt (req_since req)) as [cutoff|e] eqn:Hcut.
      2:{ unfold listNewVideoIds in Hrn. rewrite Hcut in Hrn. discriminate Hrn. }
      destruct (listNewVideoIds_ok cfg rt up uploads (req_since req) cutoff
                  (lastSeenVideoId ch) (req_backfill req) pages Samples.world0
                  Hfeed Hcut) as (w1 & Hok & _).
      rewrite Hok in Hrn.
      destruct (walkItems_prefix (YT_FETCH_MAX_NEW cfg) cutoff (lastSeenVideoId ch)
                  (req_backfill req) (concat pages) []) as [n Hpre].
      rewrite Hpre in Hrn. cbn [app] in Hrn.
      assert (Hnl : newList = reverse (candidatesOf (take n (concat pages))))
        by congruence.
      rewrite Hnl, last_reverse in Hlast.
      by eapply candidatesOf_take_head. }
    exists c. split; [exact Hhead|].
    rewrite Hst. unfold cursorOf at 1. cbn [channels]. rewrite lookup_insert_eq.
    rewrite Hseen, Hpub, Hbf. f_equal. f_equal.
    unfold cursorOf, ch. by destruct (channels (storedDB w) !! cid).
Qed.

Lemma ingest_cursor_newest_witness :
  exists w' resp,
    ingest Samples.cfg0 Samples.rt0 (Samples.withFeed Samples.feedABX)
      (Samples.ingestABX false) Samples.world3 = (w', Ok resp)
    /\ (cursorOf (storedDB w') Samples.canonicalId
        = (Some "late", Some "2024-03-10T08:00:00Z")
        \/ cursorOf (storedDB w') Samples.canonicalId
           = (Some "a", Some "2024-03-01T00:00:00Z")).
Proof.
  destruct (ingest_cursor_newest Samples.cfg0 Samples.rt0
              (Samples.withFeed Samples.feedABX) (Samples.ingestABX false)
              Samples.canonicalId "UU-uploads"
              {| ci_title := Some "channel"; ci_description := None;
                 ci_subscriberCount := None; ci_videoCount := None;
                 ci_viewCount := None; ci_uploads := Some "UU-uploads" |}
              Samples.feedABX Samples.world3 eq_refl eq_refl)
    as (w' & resp & Hrun & Hcur).
  - discriminate.
  - reflexivity.
  - reflexivity.
  - reflexivity.
  - exists w', resp. split; [exact Hrun|].
    destruct Hcur as [Hsame|(c & Hhead & Hnew)].
    + left. rewrite Hsame. reflexivity.
    + right. rewrite Hnew. injection Hhead as <-. reflexivity.
Defined.

(** ** The stored-metrics route and the insight route *)

(** X21. Without a channel id and without a handle the stored-metrics
    route answers the empty metrics at once: nothing is resolved and the
    file is not even read. *)
Theorem metricsByHandle_blank (rt : Runtime) (up : Upstream)
    (channelIdQ handle : option string) (daysQ : option JsNumber) (w : World) :
  truthy channelIdQ = false -> truthy handle = false ->
  metricsByHandle rt up channelIdQ handle daysQ w
  = (w, Ok {| status := 200;
              body := [("byDay", VCounts ∅); ("rows", VRows []);
                       ("top", VRows []); ("total", VNum 0)] |}).
Proof.
  intros Hc Hh. unfold metricsByHandle, tryCatch, bind, channelIdOrResolve.
  cbv zeta. rewrite Hc. destruct handle as [h|]; [rewrite Hh|]; reflexivity.
Qed.

Lemma metricsByHandle_blank_witness :
  metricsByHandle Samples.rt0 Samples.offline (Some "") None (Some (JsInt 30))
    Samples.world0
  = (Samples.world0,
     Ok {| status := 200;
           body := [("byDay", VCounts ∅); ("rows", VRows []);
                    ("top", VRows []); ("total", VNum 0)] |}).
Proof.
  apply (metricsByHandle_blank Samples.rt0 Samples.offline (Some "") None
           (Some (JsInt 30)) Samples.world0 eq_refl eq_refl).
Defined.

Lemma sliceLast_length {A} (n : Z) (l : list A) :
  Z.of_nat (length (sliceLast n l))
  = if 0 <? n then Z.min n (Z.of_nat (length l))
    else if n =? 0 then Z.of_nat (length l)
    else Z.max 0 (Z.of_nat (length l) + n).
Proof.
  unfold sliceLast. cbv zeta. rewrite length_drop.
  destruct (Z.ltb_spec 0 n); destruct (Z.ltb_spec (- n) 0); try lia.
  destruct (Z.eqb_spec n 0); lia.
Qed.

Lemma buildInsightText_log (cfg : Config) (up : Upstream) (sample : list SampleRow)
    (days : Z) (w w' : World) (r : result string) :
  buildInsightText cfg up sample days w = (w', r) ->
  exists cs, w' = extend w cs
             /\ Forall (fun c => isInsightCall c = true) cs
             /\ forall text, r = Ok text -> text <> "".
Proof.
  assert (Hone : forall p v v' r',
            callProvider cfg up p sample days v = (v', r') ->
            exists cs, v' = extend v cs
                       /\ Forall (fun c => isInsightCall c = true) cs
                       /\ forall text, r' = Ok text -> text <> "").
  { intros p v v' r' Hrun.
    destruct (callProvider_outcome cfg up p sample days v v' r' Hrun)
      as [[-> [e ->]]|[-> Hr]].
    - exists []. rewrite extend_nil. split; [done|]. split; [constructor|done].
    - eexists [_]. split; [reflexivity|]. split.
      + constructor; [|constructor]. by destruct p.
      + intros text ->. destruct Hr as [[e He]|(t & Ht & Hne)]; [done|congruence]. }
  unfold buildInsightText, tryCatch.
  destruct (pickProvider cfg).
  - destruct (callOpenAI cfg up sample days w) as [w1 r1] eqn:E1.
    destruct (Hone openai w w1 r1 E1) as (cs1 & -> & Hall1 & Hne1).
    destruct r1 as [t|e].
    + intros Heq. simplify_eq. by exists cs1.
    + unfold bind, warn, await. intros E2.
      destruct (Hone gemini _ w' r E2) as (cs2 & -> & Hall2 & Hne2).
      exists (cs1 ++ Console_warn "[insight] openai failed, fallback->gemini:" :: cs2).
      split; [|split; [|done]].
      * unfold extend. cbn. by rewrite <- !app_assoc.
      * apply Forall_app. split; [done|]. by constructor.
  - destruct (callGemini cfg up sample days w) as [w1 r1] eqn:E1.
    destruct (Hone gemini w w1 r1 E1) as (cs1 & -> & Hall1 & Hne1).
    destruct r1 as [t|e].
    + intros Heq. simplify_eq. by exists cs1.
    + unfold bind, warn, await. intros E2.
      destruct (Hone openai _ w' r E2) as (cs2 & -> & Hall2 & Hne2).
      exists (cs1 ++ Console_warn "[insight] gemini failed, fallback->openai:" :: cs2).
      split; [|split; [|done]].
      * unfold extend. cbn. by rewrite <- !app_assoc.
      * apply Forall_app. split; [done|]. by constructor.
Qed.

(** X22. An insight request without rows and without a channel is refused
    with 400; nothing is called and the file is not read. *)
Theorem insight_no_rows (cfg : Config) (rt : Runtime) (up : Upstream)
    (req : InsightRequest) (w : World) :
  postedRows req = None \/ postedRows req = Some [] ->
  truthy (ins_channelId req) = false -> truthy (ins_handle req) = false ->
  insight cfg rt up req w
  = (w, Ok {| status := 400;
              body := [("error",
                        VStr "rows data not provided (or cannot load from DB).")] |}).
Proof.
  intros Hposted Hc Hh. unfold insight, tryCatch, bind, channelIdOrResolve. cbv zeta.
  fold (postedRows req). rewrite Hc.
  destruct Hposted as [->| ->]; (destruct (ins_handle req) as [h|]; [rewrite Hh|]);
    reflexivity.
Qed.

Lemma insight_no_rows_witness :
  insight Samples.cfg0 Samples.rt0 Samples.geminiOnly
    {| ins_days := None; ins_metrics_rows := Some []; ins_rows := None;
       ins_channelId := None; ins_handle := Some "" |} Samples.world0
  = (Samples.world0,
     Ok {| status := 400;
           body := [("error",
                     VStr "rows data not provided (or cannot load from DB).")] |}).
Proof.
  apply (insight_no_rows Samples.cfg0 Samples.rt0 Samples.geminiOnly
           {| ins_days := None; ins_metrics_rows := Some []; ins_rows := None;
              ins_channelId := None; ins_handle := Some "" |} Samples.world0).
  - by right.
  - reflexivity.
  - reflexivity.
Defined.

(** X23. Posted rows are used as they are: with a non-empty posted array
    the insight route leaves the file alone and issues no YouTube request,
    whatever channel the request names; all it logs are provider requests
    and the fallback warning. It answers 500, or 200 with a non-empty text
    and [rowsUsed]: the smaller of INSIGHT_MAX_ROWS and the number of posted
    rows when the limit is positive, and all posted rows when the limit is
    0 ([slice(-0)] keeps everything). *)
Theorem insight_posted_rows (cfg : Config) (rt : Runtime) (up : Upstream)
    (req : InsightRequest) (v : InsightRow) (l : list InsightRow) (w : World) :
  postedRows req = Some (v :: l) ->
  exists cs resp,
    insight cfg rt up req w = (extend w cs, Ok resp)
    /\ Forall (fun c => isInsightCall c = true) cs
    /\ (status resp = 500
        \/ exists text used,
             resp = {| status := 200;
                       body := [("text", VStr text); ("rowsUsed", VNum used)] |}
             /\ text <> ""
             /\ (0 < INSIGHT_MAX_ROWS cfg ->
                 used = Z.min (INSIGHT_MAX_ROWS cfg) (Z.of_nat (S (length l))))
             /\ (INSIGHT_MAX_ROWS cfg = 0 -> used = Z.of_nat (S (length l)))).
Proof.
  intros Hposted. unfold insight, tryCatch. cbv zeta.
  fold (postedRows req). rewrite Hposted.
  unfold bind at 1. unfold ret at 1. cbv iota beta.
  set (sample := map toSample _).
  assert (Hlen : Z.of_nat (length sample)
                 = if 0 <? INSIGHT_MAX_ROWS cfg
                   then Z.min (INSIGHT_MAX_ROWS cfg) (Z.of_nat (S (length l)))
                   else if INSIGHT_MAX_ROWS cfg =? 0 then Z.of_nat (S (length l))
                   else Z.max 0 (Z.of_nat (S (length l)) + INSIGHT_MAX_ROWS cfg)).
  { unfold sample. rewrite length_map, sliceLast_length.
    rewrite (Permutation_length (jsSort_Permutation _ _)), length_map. done. }
  unfold bind.
  destruct (buildInsightText cfg up sample (numberOr (ins_days req) 90) w)
    as [w' r] eqn:Hrun.
  destruct (buildInsightText_log _ _ _ _ _ _ _ Hrun) as (cs & -> & Hall & Hne).
  destruct r as [text|e].
  - exists cs. eexists. split; [reflexivity|]. split; [done|]. right.
    exists text, (Z.of_nat (length sample)). split; [done|].
    split; [by apply Hne|]. rewrite Hlen. split.
    + intros Hpos. apply Z.ltb_lt in Hpos. by rewrite Hpos.
    + intros ->. done.
  - exists cs. eexists. split; [reflexivity|]. split; [done|]. by left.
Qed.

Lemma insight_posted_rows_witness :
  exists cs resp,
    insight Samples.cfg0 Samples.rt0 Samples.geminiOnly
      {| ins_days := None; ins_metrics_rows := None;
         ins_rows := Some [ofVideoRecord (Samples.row "a" "2024-03-01T00:00:00Z" 3);
                           ofVideoRecord (Samples.row "b" "2024-03-02T00:00:00Z" 4)];
         ins_channelId := Some Samples.canonicalId; ins_handle := None |}
      Samples.world0
    = (extend Samples.world0 cs, Ok resp)
    /\ Forall (fun c => isInsightCall c = true) cs.
Proof.
  destruct (insight_posted_rows Samples.cfg0 Samples.rt0 Samples.geminiOnly
              {| ins_days := None; ins_metrics_rows := None;
                 ins_rows := Some [ofVideoRecord
                                     (Samples.row "a" "2024-03-01T00:00:00Z" 3);
                                   ofVideoRecord
                                     (Samples.row "b" "2024-03-02T00:00:00Z" 4)];
                 ins_channelId := Some Samples.canonicalId; ins_handle := None |}
              (ofVideoRecord (Samples.row "a" "2024-03-01T00:00:00Z" 3))
              [ofVideoRecord (Samples.row "b" "2024-03-02T00:00:00Z" 4)]
              Samples.world0 eq_refl) as (cs & resp & Hrun & Hall & _).
  exists cs, resp. split; [exact Hrun|exact Hall].
Defined.

(** X24. Without posted rows the insight route falls back on the store:
    for a channel id that the store does not hold there is nothing to
    report, and the route answers 400 without calling a provider or
    writing the file. *)
Theorem insight_unknown_channel (cfg : Config) (rt : Runtime) (up : Upstream)
    (req : InsightRequest) (cid : string) (db : DB) (w : World) :
  postedRows req = None \/ postedRows req = Some [] ->
  ins_channelId req = Some cid -> cid <> "" ->
  disk w = Some db -> channels db !! cid = None ->
  insight cfg rt up req w
  = (w, Ok {| status := 400;
              body := [("error",
                        VStr "rows data not provided (or cannot load from DB).")] |}).
Proof.
  intros Hposted Hc Hne Hdisk Habs. apply String.eqb_neq in Hne.
  assert (Hdb : (let! cido := channelIdOrResolve up (ins_channelId req)
                                (ins_handle req) in
                 match cido with
                 | Some cid0 =>
                     if truthy cido then
                       let! db0 := loadDB in
                       match makeMetricsFromChannel rt db0 cid0
                               (JsInt (numberOr (ins_days req) 90)) with
                       | Ok m => ret (map ofVideoRecord (rows m))
                       | Throw e => throw e
                       end
                     else ret (default [] (postedRows req))
                 | None => ret (default [] (postedRows req))
                 end) w = (w, Ok [])).
  { unfold channelIdOrResolve. rewrite Hc. cbn [truthy]. rewrite Hne. cbn [negb].
    unfold bind at 1. unfold ret at 1. cbn [truthy]. rewrite Hne. cbn [negb].
    unfold bind, loadDB. rewrite Hdisk.
    unfold makeMetricsFromChannel. by rewrite Habs. }
  unfold insight, tryCatch. cbv zeta. fold (postedRows req).
  unfold bind at 1.
  destruct Hposted as [Hp|Hp]; rewrite Hp in *; by rewrite Hdb.
Qed.

Lemma insight_unknown_channel_witness :
  insight Samples.cfg0 Samples.rt0 Samples.geminiOnly
    {| ins_days := None; ins_metrics_rows := None; ins_rows := None;
       ins_channelId := Some "UCnobody"; ins_handle := None |} Samples.world3
  = (Samples.world3,
     Ok {| status := 400;
           body := [("error",
                     VStr "rows data not provided (or cannot load from DB).")] |}).
Proof.
  apply (insight_unknown_channel Samples.cfg0 Samples.rt0 Samples.geminiOnly
           {| ins_days := None; ins_metrics_rows := None; ins_rows := None;
              ins_channelId := Some "UCnobody"; ins_handle := None |}
           "UCnobody" Samples.db3 Samples.world3).
  - by left.
  - reflexivity.
  - discriminate.
  - reflexivity.
  - vm_compute. reflexivity.
Defined.
